(** * Attendance matching: the OCR reconciliation handler

    A shallow embedding of [src/app/api/attendance/route.ts]:
    [normalizeVietnameseName], [calculateNameSimilarity] and the [POST]
    handler, over a model of the JavaScript values they manipulate and of
    the two collaborators of the handler (the OCR service and the Prisma
    client). *)

From Stdlib Require Import String Ascii.
From Stdlib Require Import List Bool NArith ZArith QArith Qreduction
  Permutation Lia Lqa.
Import ListNotations.

Set Implicit Arguments.
Local Open Scope list_scope.

(** ** JavaScript strings

    A JavaScript string is a sequence of UTF-16 code units. *)

Module JS.

Definition codeunit := N.
Definition jsstring := list codeunit.

Definition SPACE : codeunit := 32%N.

Definition codeunit_eqb : codeunit -> codeunit -> bool := N.eqb.

Fixpoint jsstring_eqb (s t : jsstring) : bool :=
  match s, t with
  | [], [] => true
  | c :: s', d :: t' => codeunit_eqb c d && jsstring_eqb s' t'
  | _, _ => false
  end.

(** A string literal of the source, as code units (ASCII only). *)
Fixpoint lit (s : string) : jsstring :=
  match s with
  | EmptyString => []
  | String c s' => N_of_ascii c :: lit s'
  end.

(** The class [\s] of a regular expression without the [u] flag, which is
    also the set [String.prototype.trim] strips: WhiteSpace (TAB, VT, FF,
    SP, NBSP, ZWNBSP and the category Zs) and LineTerminator (LF, CR, LS,
    PS). *)
Definition isWhiteSpace (c : codeunit) : bool :=
  ((9 <=? c) && (c <=? 13) || (c =? 32) || (c =? 160) || (c =? 5760)
   || (8192 <=? c) && (c <=? 8202) || (c =? 8232) || (c =? 8233)
   || (c =? 8239) || (c =? 8287) || (c =? 12288) || (c =? 65279))%N.

(** [s.replace(/\s+/g, ' ')]: every maximal run of white space becomes one
    SPACE.  [inRun] tells that the previous code unit belonged to the run
    being replaced. *)
Fixpoint replaceRuns (inRun : bool) (s : jsstring) : jsstring :=
  match s with
  | [] => []
  | c :: s' =>
      if isWhiteSpace c
      then if inRun then replaceRuns true s' else SPACE :: replaceRuns true s'
      else c :: replaceRuns false s'
  end.

Definition replace_ws_plus_g (s : jsstring) : jsstring := replaceRuns false s.

Fixpoint trimStart (s : jsstring) : jsstring :=
  match s with
  | [] => []
  | c :: s' => if isWhiteSpace c then trimStart s' else s
  end.

Definition trimEnd (s : jsstring) : jsstring := rev (trimStart (rev s)).

Definition trim (s : jsstring) : jsstring := trimEnd (trimStart s).

(** [s.split(sep)] for a separator of one code unit: the pieces between the
    occurrences of [sep]; a string without [sep] (the empty string too) is
    one piece. *)
Fixpoint split (sep : codeunit) (s : jsstring) : list jsstring :=
  match s with
  | [] => [[]]
  | c :: s' =>
      if codeunit_eqb c sep then [] :: split sep s'
      else match split sep s' with
           | w :: ws => (c :: w) :: ws
           | [] => [[c]]
           end
  end.

(** [xs.includes(x)] on an array of strings. *)
Definition includes (xs : list jsstring) (x : jsstring) : bool :=
  existsb (jsstring_eqb x) xs.

(** [new Set(xs)]: the elements in insertion order, each kept at its first
    occurrence; [Array.from] lists them in that order. *)
Fixpoint Set_addAll (seen : list jsstring) (xs : list jsstring)
  : list jsstring :=
  match xs with
  | [] => seen
  | x :: xs' =>
      if includes seen x then Set_addAll seen xs'
      else Set_addAll (seen ++ [x]) xs'
  end.

Definition Array_from_Set (xs : list jsstring) : list jsstring :=
  Set_addAll [] xs.

(** ** Numbers

    The numbers of the handler are quotients of two array lengths and the
    constants 0, 0.7, 50 and 75; they are kept as exact rationals in lowest
    terms, not rounded to doubles (on word lists of less than 2^26 words the
    comparisons of the handler give the same answer on both).  Division by
    zero does not raise in JavaScript: it gives [Infinity], or [NaN] for
    0/0. *)
Inductive number : Type :=
| Fin (q : Q)
| Infinity
| NaN.

Definition divide (n d : nat) : number :=
  match d, n with
  | O, O => NaN
  | O, S _ => Infinity
  | S _, _ => Fin (Qred (Z.of_nat n # Pos.of_nat d))
  end.

Definition Qltb (a b : Q) : bool := negb (Qle_bool b a).

(** [a > b] *)
Definition gt (a b : number) : bool :=
  match a, b with
  | Fin x, Fin y => Qltb y x
  | Infinity, Fin _ => true
  | _, _ => false
  end.

(** [a >= b] *)
Definition ge (a b : number) : bool :=
  match a, b with
  | Fin x, Fin y => Qle_bool y x
  | Infinity, Fin _ => true
  | Infinity, Infinity => true
  | _, _ => false
  end.

End JS.

Import JS.

(** The ASCII part of [String.prototype.toLowerCase]: on a string of code
    units below 128 the method maps A-Z to a-z and keeps the rest. *)
Definition toLowerCase_ascii (s : jsstring) : jsstring :=
  map (fun c => if ((65 <=? c) && (c <=? 90))%N then (c + 32)%N else c) s.

Section Similarity.

(** [String.prototype.toLowerCase] is the engine's (it follows the Unicode
    case tables); the definitions are given for any such function. *)
Variable toLowerCase : jsstring -> jsstring.

Definition normalizeVietnameseName (name : jsstring) : jsstring :=
  trim (replace_ws_plus_g (toLowerCase name)).

(** [normalizeVietnameseName(name).split(' ')] *)
Definition nameWords (name : jsstring) : list jsstring :=
  split SPACE (normalizeVietnameseName name).

Definition intersectionOf (words1 words2 : list jsstring) : list jsstring :=
  filter (fun x => includes words2 x) words1.

Definition unionOf (words1 words2 : list jsstring) : list jsstring :=
  Array_from_Set (words1 ++ words2).

Definition calculateNameSimilarity (name1 name2 : jsstring) : number :=
  let norm1 := normalizeVietnameseName name1 in
  let norm2 := normalizeVietnameseName name2 in
  let words1 := split SPACE norm1 in
  let words2 := split SPACE norm2 in
  let intersection := intersectionOf words1 words2 in
  let union := unionOf words1 words2 in
  divide (length intersection) (length union).


End Similarity.

(** ** The data model

    The rows of the tables [Student] and [Attendance] of the Prisma schema
    (the columns [createdAt] and [updatedAt] are never read by the handler)
    and the JSON value the OCR service answers with. *)

Record Student : Type := {
  st_id : N;
  st_studentId : jsstring;
  st_name : jsstring;
  st_class : jsstring
}.

(** The values the variable [matchType] takes: [''], ['ID_Match'] and
    ['Name_Match']. *)
Inductive MatchType : Type :=
| NoMatchType
| ID_Match
| Name_Match.

Record Attendance : Type := {
  att_id : N;
  att_date : N;
  att_status : MatchType;
  att_studentId : N
}.

Record OCRResult : Type := {
  student_id : option jsstring;
  student_name : option jsstring;
  confidence : Q;
  ocr_text : jsstring
}.

(** A string property in a condition: [undefined] and [''] are falsy. *)
Definition truthy (v : option jsstring) : option jsstring :=
  match v with
  | Some (c :: s) => Some (c :: s)
  | _ => None
  end.

Definition File := list N.

(** What the handler answers. *)
Inductive Response : Type :=
| NoFileUploaded
| OCRServiceFailed (details : jsstring)
| LowConfidence (confidence : Q) (ocrText : jsstring)
| StudentNotFound (studentId studentName : option jsstring)
    (confidence : Q) (ocrText : jsstring)
| Success (attendance : Attendance) (matchType : MatchType)
    (student : Student) (ocrResult : OCRResult)
| FailedToProcess (errorDetails : jsstring).

(** ** The collaborators

    The handler awaits the OCR service and the Prisma client.  The world
    holds the two tables, the clock [new Date()] reads, the answer of the
    OCR service to each file, the Prisma operations that reject (with the
    message of their error) and the Prisma calls made so far. *)

Inductive PrismaOp : Type :=
| OpFindFirst
| OpFindMany
| OpCreate.

Inductive PrismaCall : Type :=
| CallFindFirst (studentId : jsstring)
| CallFindMany
| CallCreate (studentId : N) (status : MatchType) (date : N).

Inductive OcrReply : Type :=
| FetchRejected (message : jsstring)
| ResponseNotOk (errorText : jsstring)
| ResponseOk (ocrResult : OCRResult).

Record World : Type := {
  students : list Student;
  attendances : list Attendance;
  attendance_seq : N;
  clock : N;
  ocr_service : File -> OcrReply;
  prisma_rejects : PrismaOp -> option jsstring;
  prisma_calls : list PrismaCall
}.

Definition with_call (c : PrismaCall) (w : World) : World :=
  {| students := students w;
     attendances := attendances w;
     attendance_seq := attendance_seq w;
     clock := clock w;
     ocr_service := ocr_service w;
     prisma_rejects := prisma_rejects w;
     prisma_calls := prisma_calls w ++ [c] |}.

Definition with_attendance (a : Attendance) (w : World) : World :=
  {| students := students w;
     attendances := attendances w ++ [a];
     attendance_seq := N.succ (attendance_seq w);
     clock := clock w;
     ocr_service := ocr_service w;
     prisma_rejects := prisma_rejects w;
     prisma_calls := prisma_calls w |}.

(** An awaited computation: it returns or throws, and changes the world. *)
Inductive Result (A : Type) : Type :=
| Returned (a : A)
| Thrown (message : jsstring).
Arguments Thrown {A} message.

Definition Async (A : Type) : Type := World -> Result A * World.

Definition ret {A} (a : A) : Async A := fun w => (Returned a, w).

Definition bind {A B} (m : Async A) (k : A -> Async B) : Async B :=
  fun w =>
    match m w with
    | (Returned a, w') => k a w'
    | (Thrown e, w') => (Thrown e, w')
    end.

Notation "x <- m ;; k" := (bind m (fun x => k))
  (at level 61, m at next level, right associativity).

(** [try { ... } catch (error) { return 500 }] *)
Definition try_catch (m : Async Response) : World -> Response * World :=
  fun w =>
    match m w with
    | (Returned r, w') => (r, w')
    | (Thrown e, w') => (FailedToProcess e, w')
    end.

Definition prisma (op : PrismaOp) (c : PrismaCall) {A} (run : World -> A * World)
  : Async A :=
  fun w =>
    let w1 := with_call c w in
    match prisma_rejects w op with
    | Some e => (Thrown e, w1)
    | None => let '(a, w2) := run w1 in (Returned a, w2)
    end.

(** [prisma.student.findFirst({ where: { studentId } })] *)
Definition prisma_student_findFirst (studentId : jsstring)
  : Async (option Student) :=
  prisma OpFindFirst (CallFindFirst studentId)
    (fun w =>
       (find (fun s => jsstring_eqb (st_studentId s) studentId) (students w),
        w)).

(** [prisma.student.findMany()] *)
Definition prisma_student_findMany : Async (list Student) :=
  prisma OpFindMany CallFindMany (fun w => (students w, w)).

(** [prisma.attendance.create({ data: { studentId, status, date } })] *)
Definition prisma_attendance_create (studentId : N) (status : MatchType)
  (date : N) : Async Attendance :=
  prisma OpCreate (CallCreate studentId status date)
    (fun w =>
       let a := {| att_id := N.succ (attendance_seq w);
                   att_date := date;
                   att_status := status;
                   att_studentId := studentId |} in
       (a, with_attendance a w)).

(** [fetch('http://localhost:8000/api/ocr', ...)] and the reading of its
    body: [inl errorText] when the response is not ok. *)
Definition fetch_ocr (file : File) : Async (jsstring + OCRResult) :=
  fun w =>
    match ocr_service w file with
    | FetchRejected e => (Thrown e, w)
    | ResponseNotOk errorText => (Returned (inl errorText), w)
    | ResponseOk ocrResult => (Returned (inr ocrResult), w)
    end.

Definition new_Date : Async N := fun w => (Returned (clock w), w).

(** ** The handler *)

Section Handler.

Variable toLowerCase : jsstring -> jsstring.

Definition similarityThreshold : number := Fin (7 # 10).

(** The body of the loop over [allStudents]; the accumulator is
    [(bestMatch, bestSimilarity)]. *)
Definition scanStep (student_name : jsstring)
  (best : option Student * number) (potentialStudent : Student)
  : option Student * number :=
  let similarity :=
    calculateNameSimilarity toLowerCase (st_name potentialStudent) student_name in
  if gt similarity (snd best) && ge similarity similarityThreshold
  then (Some potentialStudent, similarity)
  else best.

Definition scanRoster (allStudents : list Student) (student_name : jsstring)
  : option Student * number :=
  fold_left (scanStep student_name) allStudents (None, Fin 0).

(** "First try to find by student ID": the values of [student] and
    [matchType] after it. *)
Definition identifierMatch (ocrResult : OCRResult)
  : Async (option Student * MatchType) :=
  match truthy (student_id ocrResult) with
  | Some sid =>
      student <- prisma_student_findFirst sid ;;
      ret (student, match student with Some _ => ID_Match | None => NoMatchType end)
  | None => ret (None, NoMatchType)
  end.

(** The condition of the name matching:
    [!student && ocrResult.student_name && ocrResult.confidence >= 75]. *)
Definition nameMatchGuard (student : option Student) (ocrResult : OCRResult)
  : option jsstring :=
  match student with
  | Some _ => None
  | None =>
      match truthy (student_name ocrResult) with
      | Some name => if Qle_bool 75 (confidence ocrResult) then Some name else None
      | None => None
      end
  end.

(** "If no match by ID and OCR confidence is high enough for name
    matching". *)
Definition nameMatch (ocrResult : OCRResult) (found : option Student * MatchType)
  : Async (option Student * MatchType) :=
  match nameMatchGuard (fst found) ocrResult with
  | Some name =>
      allStudents <- prisma_student_findMany ;;
      match fst (scanRoster allStudents name) with
      | Some bestMatch => ret (Some bestMatch, Name_Match)
      | None => ret found
      end
  | None => ret found
  end.

(** "Try to find student by ID or name": the two steps in order. *)
Definition resolveStudent (ocrResult : OCRResult)
  : Async (option Student * MatchType) :=
  found <- identifierMatch ocrResult ;;
  nameMatch ocrResult found.

(** "If no student found by either method" the 404 answer, else "Create
    attendance record" and the answer of success. *)
Definition recordAttendance (ocrResult : OCRResult)
  (found : option Student * MatchType) : Async Response :=
  match found with
  | (None, _) =>
      ret (StudentNotFound (student_id ocrResult) (student_name ocrResult)
             (confidence ocrResult) (ocr_text ocrResult))
  | (Some student, matchType) =>
      date <- new_Date ;;
      attendance <- prisma_attendance_create (st_id student) matchType date ;;
      ret (Success attendance matchType student ocrResult)
  end.

(** The handler, from the file of the request's form data on. *)
Definition POST (file : option File) : World -> Response * World :=
  try_catch
    match file with
    | None => ret NoFileUploaded
    | Some file =>
        ocrResponse <- fetch_ocr file ;;
        match ocrResponse with
        | inl errorText => ret (OCRServiceFailed errorText)
        | inr ocrResult =>
            if Qltb (confidence ocrResult) 50
            then ret (LowConfidence (confidence ocrResult) (ocr_text ocrResult))
            else
              found <- resolveStudent ocrResult ;;
              recordAttendance ocrResult found
        end
    end.

End Handler.

(** ** The students route

    [src/app/api/students/route.ts]: [GET] lists the students with their
    latest attendance, [POST] registers a student.  The table [Student]
    has an AUTOINCREMENT key and a unique index on [studentId]. *)

Module Students.

(** The JSON body of a registration, its three properties read as strings
    ([None] for a property that is absent). *)
Record StudentJson : Type := {
  json_studentId : option jsstring;
  json_name : option jsstring;
  json_class : option jsstring
}.

(** [await request.json()]: it rejects on a body that is not JSON. *)
Inductive Body : Type :=
| NotJson (message : jsstring)
| Json (json : StudentJson).

(** The errors of [prisma.student.create]: the violation of the unique
    index has [code] ['P2002']. *)
Inductive PrismaError : Type :=
| P2002
| OtherError (message : jsstring).

(** The store of the route: the world of the attendance handler, the
    sequence of the key of [Student] and whether the creation of a student
    is rejected for a reason of its own. *)
Record Registry : Type := {
  world : World;
  student_seq : N;
  student_create_rejects : option jsstring
}.

Definition with_student (s : Student) (r : Registry) : Registry :=
  {| world :=
       {| students := students (world r) ++ [s];
          attendances := attendances (world r);
          attendance_seq := attendance_seq (world r);
          clock := clock (world r);
          ocr_service := ocr_service (world r);
          prisma_rejects := prisma_rejects (world r);
          prisma_calls := prisma_calls (world r) |};
     student_seq := N.succ (student_seq r);
     student_create_rejects := student_create_rejects r |}.

Definition with_world (w : World) (r : Registry) : Registry :=
  {| world := w;
     student_seq := student_seq r;
     student_create_rejects := student_create_rejects r |}.

(** [prisma.student.create({ data: { studentId, name, class } })] *)
Definition prisma_student_create (studentId name class : jsstring)
  (r : Registry) : (PrismaError + Student) * Registry :=
  match student_create_rejects r with
  | Some e => (inl (OtherError e), r)
  | None =>
      if existsb (fun s => jsstring_eqb (st_studentId s) studentId)
           (students (world r))
      then (inl P2002, r)
      else
        let student := {| st_id := N.succ (student_seq r);
                          st_studentId := studentId;
                          st_name := name;
                          st_class := class |} in
        (inr student, with_student student r)
  end.

(** What the route answers: a row of [GET] is a student with the
    attendance records included. *)
Inductive Response : Type :=
| Created (student : Student)
| MissingRequiredFields
| StudentIdExists
| FailedToCreate
| Listed (rows : list (Student * list Attendance))
| FailedToFetch.

(** "POST new student" *)
Definition POST (body : Body) (r : Registry) : Response * Registry :=
  match body with
  | NotJson _ => (FailedToCreate, r)
  | Json json =>
      match truthy (json_studentId json), truthy (json_name json),
            truthy (json_class json) with
      | Some studentId, Some name, Some class =>
          match prisma_student_create studentId name class r with
          | (inr student, r') => (Created student, r')
          | (inl P2002, r') => (StudentIdExists, r')
          | (inl (OtherError _), r') => (FailedToCreate, r')
          end
      | _, _, _ => (MissingRequiredFields, r)
      end
  end.

Section Get.

(** [orderBy: { date: 'desc' }] is the database's: some ordering of the
    records by decreasing date. *)
Variable orderByDateDesc : list Attendance -> list Attendance.

(** [include: { attendance: { orderBy: { date: 'desc' }, take: 1 } }] *)
Definition includeAttendance (w : World) (s : Student) : list Attendance :=
  firstn 1
    (orderByDateDesc
       (filter (fun a => N.eqb (att_studentId a) (st_id s)) (attendances w))).

(** "GET all students with their latest attendance" *)
Definition GET (w : World) : Response * World :=
  match prisma OpFindMany CallFindMany
          (fun w => (map (fun s => (s, includeAttendance w s)) (students w), w))
          w with
  | (Returned rows, w') => (Listed rows, w')
  | (Thrown _, w') => (FailedToFetch, w')
  end.

End Get.

(** One ordering by decreasing date: insertion, the records of one date
    kept in the order of the table. *)
Fixpoint insertByDate (a : Attendance) (l : list Attendance) : list Attendance :=
  match l with
  | [] => [a]
  | b :: l' =>
      if N.leb (att_date b) (att_date a) then a :: l
      else b :: insertByDate a l'
  end.

Definition sortByDateDesc (l : list Attendance) : list Attendance :=
  fold_right insertByDate [] l.

(** The invariant of the table [Student]: the keys and the identifiers
    are unique and the keys were drawn from the sequence. *)
Definition tableInvariant (r : Registry) : Prop :=
  NoDup (map st_studentId (students (world r)))
  /\ NoDup (map st_id (students (world r)))
  /\ forall s, In s (students (world r)) -> (st_id s <= student_seq r)%N.

End Students.

(** The records of [l] are in decreasing order of date. *)
Fixpoint decreasingDates (l : list Attendance) : Prop :=
  match l with
  | [] => True
  | a :: l' =>
      (forall b, In b l' -> (att_date b <= att_date a)%N) /\ decreasingDates l'
  end.

Definition registry0 (w : World) : Students.Registry :=
  {| Students.world := w;
     Students.student_seq := 3;
     Students.student_create_rejects := None |}.

Definition jsonNewStudent : Students.StudentJson :=
  {| Students.json_studentId := Some (lit "B21DCCN777");
     Students.json_name := Some (lit "Pham Thi D");
     Students.json_class := Some (lit "D21CQCN01-B") |}.

(** ** The page

    The utilities and the calls of the client page that comes with the
    students route in [src/app/api/students/route.ts]. *)

(** [xs.join(sep)] on an array of strings, for a separator of one code
    unit. *)
Fixpoint join (sep : codeunit) (xs : list jsstring) : jsstring :=
  match xs with
  | [] => []
  | [x] => x
  | x :: xs' => x ++ sep :: join sep xs'
  end.

Definition LF : codeunit := 10%N.

Module textProcessors.

(** The object [corrections]: the value at each of its fifteen keys, which
    are strings of one code unit, as are the values. *)
Definition corrections (char : codeunit) : option codeunit :=
  match char with
  | 56 => Some 66       (* '8': 'B' *)
  | 48 => Some 68       (* '0': 'D' *)
  | 1086 => Some 111    (* U+043E: 'o' *)
  | 1054 => Some 79     (* U+041E: 'O' *)
  | 1047 => Some 69     (* U+0417: 'E' *)
  | 108 => Some 49      (* 'l': '1' *)
  | 73 => Some 49       (* 'I': '1' *)
  | 1110 => Some 105    (* U+0456: 'i' *)
  | 1040 => Some 65     (* U+0410: 'A' *)
  | 1045 => Some 69     (* U+0415: 'E' *)
  | 84 => Some 84       (* 'T': 'T' *)
  | 1057 => Some 67     (* U+0421: 'C' *)
  | 1029 => Some 83     (* U+0405: 'S' *)
  | 53 => Some 83       (* '5': 'S' *)
  | 54 => Some 71       (* '6': 'G' *)
  | _ => None
  end%N.

(** [text.split('').map(char => corrections[char] || char).join('')] *)
Definition preprocessText (text : jsstring) : jsstring :=
  map (fun char => match corrections char with
                   | Some corrected => corrected
                   | None => char
                   end) text.

(** [/[a-zA-Z0-9\u00C0-\u1EF9]/] on one code unit. *)
Definition validChars (c : codeunit) : bool :=
  ((97 <=? c) && (c <=? 122) || (65 <=? c) && (c <=? 90)
   || (48 <=? c) && (c <=? 57) || (192 <=? c) && (c <=? 7929))%N.

Definition minLength : nat := 2.

(** The filter on the lines:
    [line.length >= minLength && validChars.test(line)]. *)
Definition keepLine (line : jsstring) : bool :=
  Nat.leb minLength (length line) && existsb validChars line.

Definition cleanOCRText (text : jsstring) : jsstring :=
  match text with
  | [] => []
  | _ :: _ =>
      let processed := preprocessText text in
      join LF (filter keepLine (map trim (split LF processed)))
  end.

End textProcessors.

(** What [fetch] gives: a response, with its [ok] flag and [status], or a
    rejection. *)
Inductive FetchResult (R : Type) : Type :=
| Responded (ok : bool) (status : N) (response : R)
| Rejected (message : jsstring).
Arguments Rejected {R} message.

(** The errors [fetchWithRetry] throws: the one [fetch] rejected with,
    [new Error(`HTTP error! status: ...`)] or
    [new Error('Failed after retries')]. *)
Inductive RetryError : Type :=
| FetchError (message : jsstring)
| HttpError (status : N)
| FailedAfterRetries.

Section FetchWithRetry.

(** The server the request goes to: each [fetch] takes it from one state
    to the next. *)
Variables (Server R : Type).
Variable fetch : Server -> FetchResult R * Server.

(** The loop [for (let i = 0; i < retries; i++)], at [i] with
    [remaining] rounds to go; [slept] lists the delays waited so far, in
    milliseconds. *)
Fixpoint retryLoop (retries i remaining : nat) (server : Server)
  (slept : list N) : (RetryError + R) * Server * list N :=
  match remaining with
  | O => (inl FailedAfterRetries, server, slept)
  | S remaining' =>
      let '(result, server') := fetch server in
      let retry (error : RetryError) :=
        if Nat.eqb i (retries - 1) then (inl error, server', slept)
        else retryLoop retries (S i) remaining' server'
               (slept ++ [1000 * (N.of_nat i + 1)])%N in
      match result with
      | Responded true _ response => (inr response, server', slept)
      | Responded false status _ => retry (HttpError status)
      | Rejected message => retry (FetchError message)
      end
  end.

Definition fetchWithRetry (retries : nat) (server : Server)
  : (RetryError + R) * Server * list N :=
  retryLoop retries 0 retries server [].

End FetchWithRetry.

(** A server that answers the [n]-th request with [answers n]. *)
Definition scripted {R} (answers : nat -> FetchResult R) (n : nat)
  : FetchResult R * nat :=
  (answers n, S n).

Definition isOk {R} (result : FetchResult R) : bool :=
  match result with
  | Responded ok _ _ => ok
  | Rejected _ => false
  end.

Definition errorOf {R} (result : FetchResult R) : RetryError :=
  match result with
  | Responded _ status _ => HttpError status
  | Rejected message => FetchError message
  end.

(** The delays after the first [k] failed attempts: 1000, 2000, ... *)
Definition delays (k : nat) : list N :=
  map (fun i => (1000 * (N.of_nat i + 1))%N) (seq 0 k).

(** The status of each answer of the attendance handler, and the request
    to [/api/attendance] as a [fetch]. *)
Definition statusOf (response : Response) : N :=
  match response with
  | NoFileUploaded => 400
  | OCRServiceFailed _ => 500
  | LowConfidence _ _ => 400
  | StudentNotFound _ _ _ _ => 404
  | Success _ _ _ _ => 200
  | FailedToProcess _ => 500
  end%N.

(** What becomes of a request on its way: it reaches the route and the
    reply comes back; it never reaches the route; or the route runs and
    its reply is lost.  In the last two cases [fetch] rejects. *)
Inductive Transport : Type :=
| Delivered
| NotSent (message : jsstring)
| ReplyLost (message : jsstring).

(** A route called over the network: the [n]-th request of the page meets
    [transport n]; the state is the one of the route with the number of
    requests made. *)
Definition viaNetwork {Server Answer R} (transport : nat -> Transport)
  (route : Server -> Answer * Server) (respond : Answer -> FetchResult R)
  (state : Server * nat) : FetchResult R * (Server * nat) :=
  let '(server, n) := state in
  match transport n with
  | Delivered =>
      let '(answer, server') := route server in
      (respond answer, (server', S n))
  | NotSent message => (Rejected message, (server, S n))
  | ReplyLost message =>
      let '(_, server') := route server in
      (Rejected message, (server', S n))
  end.

Definition respondAttendance (response : Response) : FetchResult Response :=
  Responded ((200 <=? statusOf response) && (statusOf response <=? 299))%N
    (statusOf response) response.

(** [fetch('/api/attendance', { method: 'POST', body: formData })] *)
Definition fetchAttendance (toLowerCase : jsstring -> jsstring)
  (transport : nat -> Transport) (file : option File)
  : World * nat -> FetchResult Response * (World * nat) :=
  viaNetwork transport (POST toLowerCase file) respondAttendance.

(** ** Regular expressions

    The patterns of [validators] are tested against the whole string
    ([^...$] without the [m] flag): [test] answers whether the string is
    in the language of the pattern, which the derivatives decide. *)

Module Regex.

Inductive regex : Type :=
| Nothing
| Empty
| Class (p : codeunit -> bool)
| Seq (r1 r2 : regex)
| Alt (r1 r2 : regex)
| Star (r : regex).

Fixpoint nullable (r : regex) : bool :=
  match r with
  | Nothing => false
  | Empty => true
  | Class _ => false
  | Seq r1 r2 => nullable r1 && nullable r2
  | Alt r1 r2 => nullable r1 || nullable r2
  | Star _ => true
  end.

Fixpoint deriv (c : codeunit) (r : regex) : regex :=
  match r with
  | Nothing => Nothing
  | Empty => Nothing
  | Class p => if p c then Empty else Nothing
  | Seq r1 r2 =>
      if nullable r1 then Alt (Seq (deriv c r1) r2) (deriv c r2)
      else Seq (deriv c r1) r2
  | Alt r1 r2 => Alt (deriv c r1) (deriv c r2)
  | Star r1 => Seq (deriv c r1) (Star r1)
  end.

(** [/^r$/.test(s)] *)
Fixpoint test (r : regex) (s : jsstring) : bool :=
  match s with
  | [] => nullable r
  | c :: s' => test (deriv c r) s'
  end.

(** [r?], [r+], [r{n}] and [r{lo,hi}] *)
Definition Opt (r : regex) : regex := Alt r Empty.
Definition Plus (r : regex) : regex := Seq r (Star r).

Fixpoint Times (n : nat) (r : regex) : regex :=
  match n with
  | O => Empty
  | S n' => Seq r (Times n' r)
  end.

Definition Range (lo hi : nat) (r : regex) : regex :=
  Seq (Times lo r) (Times (hi - lo) (Opt r)).

(** [\d] *)
Definition digit (c : codeunit) : bool := ((48 <=? c) && (c <=? 57))%N.

(** [[A-Z]] *)
Definition upper (c : codeunit) : bool := ((65 <=? c) && (c <=? 90))%N.

(** A class of characters listed one by one, such as [[BDCL]]. *)
Definition oneOf (cs : list codeunit) (c : codeunit) : bool :=
  existsb (N.eqb c) cs.

(** The flag [i] on a class of ASCII characters, without the flag [u]: a
    code unit matches when its upper case does; code units from 128 on
    are left alone. *)
Definition ignoreCase (p : codeunit -> bool) (c : codeunit) : bool :=
  p (if ((97 <=? c) && (c <=? 122))%N then (c - 32)%N else c).

(** The strings a pattern matches. *)
Inductive Matches : regex -> jsstring -> Prop :=
| MEmpty : Matches Empty []
| MClass p c : p c = true -> Matches (Class p) [c]
| MSeq r1 r2 s1 s2 : Matches r1 s1 -> Matches r2 s2 -> Matches (Seq r1 r2) (s1 ++ s2)
| MAltL r1 r2 s : Matches r1 s -> Matches (Alt r1 r2) s
| MAltR r1 r2 s : Matches r2 s -> Matches (Alt r1 r2) s
| MStarNil r : Matches (Star r) []
| MStarCons r s1 s2 :
    Matches r s1 -> Matches (Star r) s2 -> Matches (Star r) (s1 ++ s2).

End Regex.

Module validators.

Import Regex.

(** [/^[BDCL]\d{8,10}$/] *)
Definition studentIdPattern : regex :=
  Seq (Class (oneOf (lit "BDCL"))) (Range 8 10 (Class digit)).

(** [/^[EDCL]\d{2}[A-Z]+\d{2,3}(?:-[A-Z])?$/i] *)
Definition classNamePattern : regex :=
  Seq (Class (ignoreCase (oneOf (lit "EDCL"))))
    (Seq (Times 2 (Class digit))
       (Seq (Plus (Class (ignoreCase upper)))
          (Seq (Range 2 3 (Class digit))
             (Opt (Seq (Class (ignoreCase (oneOf (lit "-"))))
                     (Class (ignoreCase upper))))))).

Section Validators.

(** [String.prototype.toUpperCase] is the engine's. *)
Variable toUpperCase : jsstring -> jsstring.

Definition studentId (id : jsstring) : bool :=
  test studentIdPattern (toUpperCase id).

Definition className (className : jsstring) : bool :=
  test classNamePattern (toUpperCase className).

End Validators.

End validators.

(** The ASCII part of [String.prototype.toUpperCase]. *)
Definition toUpperCase_ascii (s : jsstring) : jsstring :=
  map (fun c => if ((97 <=? c) && (c <=? 122))%N then (c - 32)%N else c) s.

(** ** Adding a student from the page *)

(** The messages [addStudent] sets. *)
Inductive Message : Type :=
| BadStudentIdFormat
| BadClassFormat
| StudentAdded
| ServerError (result : Students.Response)
| AddFailed.

(** The status of each answer of the students route, and the request
    [POST /api/students] as a [fetch]; the response carries its [ok] flag
    for [addStudent] to read. *)
Definition studentsStatusOf (response : Students.Response) : N :=
  match response with
  | Students.Created _ => 200
  | Students.MissingRequiredFields => 400
  | Students.StudentIdExists => 409
  | Students.FailedToCreate => 500
  | Students.Listed _ => 200
  | Students.FailedToFetch => 500
  end%N.

Definition respondStudents (response : Students.Response)
  : FetchResult (bool * Students.Response) :=
  let ok := ((200 <=? studentsStatusOf response)
             && (studentsStatusOf response <=? 299))%N in
  Responded ok (studentsStatusOf response) (ok, response).

(** [fetch('/api/students', { method: 'POST', ... })] *)
Definition fetchStudentsPOST (transport : nat -> Transport)
  (json : Students.StudentJson)
  : Students.Registry * nat
    -> FetchResult (bool * Students.Response) * (Students.Registry * nat) :=
  viaNetwork transport (Students.POST (Students.Json json)) respondStudents.

(** The fields of the form: [formData.get] gives [null] for a field that
    is absent. *)
Record StudentForm : Type := {
  form_studentId : option jsstring;
  form_name : option jsstring;
  form_class : option jsstring
}.

(** What [addStudent] leaves: the message, whether the list of students
    was asked again ([fetchStudents()]), the registry and the delays
    waited. *)
Record AddStudentOutcome : Type := {
  message : Message;
  refreshed : bool;
  registry : Students.Registry;
  waited : list N
}.

Section AddStudent.

Variable toUpperCase : jsstring -> jsstring.
Variable transport : nat -> Transport.

(** [formData.get(field)?.toString().toUpperCase() || ''] *)
Definition upperField (field : option jsstring) : jsstring :=
  match field with
  | Some s => toUpperCase s
  | None => []
  end.

Definition addStudent (form : StudentForm) (r : Students.Registry)
  : AddStudentOutcome :=
  let studentId := upperField (form_studentId form) in
  let className := upperField (form_class form) in
  if negb (validators.studentId toUpperCase studentId) then
    {| message := BadStudentIdFormat; refreshed := false;
       registry := r; waited := [] |}
  else if negb (validators.className toUpperCase className) then
    {| message := BadClassFormat; refreshed := false;
       registry := r; waited := [] |}
  else
    let studentData :=
      {| Students.json_studentId := Some studentId;
         Students.json_name := form_name form;
         Students.json_class := Some className |} in
    match fetchWithRetry (fetchStudentsPOST transport studentData) 3
            (r, 0%nat) with
    | (inr (ok, result), (r', _), slept) =>
        if ok
        then {| message := StudentAdded; refreshed := true;
                registry := r'; waited := slept |}
        else {| message := ServerError result; refreshed := false;
                registry := r'; waited := slept |}
    | (inl _, (r', _), slept) =>
        {| message := AddFailed; refreshed := false;
           registry := r'; waited := slept |}
    end.

End AddStudent.

(** ** The Jaccard index of the specification *)

Definition jsstring_eq_dec : forall s t : jsstring, {s = t} + {s <> t} :=
  list_eq_dec N.eq_dec.

(** The word lists taken as sets: the number of distinct words the two
    names share over the number of distinct words of both. *)
Definition jaccardIndex (toLowerCase : jsstring -> jsstring)
  (name1 name2 : jsstring) : number :=
  let A := nameWords toLowerCase name1 in
  let B := nameWords toLowerCase name2 in
  divide
    (length (nodup jsstring_eq_dec
               (filter (fun x => if in_dec jsstring_eq_dec x B then true else false) A)))
    (length (nodup jsstring_eq_dec (A ++ B))).

(** [0 <= x <= 1] on numbers. *)
Definition inUnitRange (x : number) : bool := ge x (Fin 0) && ge (Fin 1) x.

(** ** What the name matching is to select

    [s] is the first student of the roster whose score is the highest, and
    that score reaches the threshold. *)
Definition nameScore (toLowerCase : jsstring -> jsstring)
  (student_name : jsstring) (s : Student) : number :=
  calculateNameSimilarity toLowerCase (st_name s) student_name.

Definition bestScoring (toLowerCase : jsstring -> jsstring)
  (roster : list Student) (student_name : jsstring) (s : Student) : Prop :=
  exists before after,
    roster = before ++ s :: after
    /\ ge (nameScore toLowerCase student_name s) similarityThreshold = true
    /\ (forall s', In s' before ->
          gt (nameScore toLowerCase student_name s)
             (nameScore toLowerCase student_name s') = true)
    /\ (forall s', In s' after ->
          ge (nameScore toLowerCase student_name s)
             (nameScore toLowerCase student_name s') = true).

(** The identifier step resolves nobody: there is no identifier to look
    up, or the lookup answers and no student of the roster carries it. *)
Definition identifierLookupFails (w : World) (ocrResult : OCRResult) : Prop :=
  match truthy (student_id ocrResult) with
  | None => True
  | Some sid =>
      prisma_rejects w OpFindFirst = None
      /\ forall s, In s (students w) -> st_studentId s <> sid
  end.

(** The Prisma calls of the identifier step. *)
Definition identifierCalls (ocrResult : OCRResult) : list PrismaCall :=
  match truthy (student_id ocrResult) with
  | None => []
  | Some sid => [CallFindFirst sid]
  end.

Definition with_calls (cs : list PrismaCall) (w : World) : World :=
  fold_left (fun w c => with_call c w) cs w.

(** ** Sample data: the scenarios of the specification *)

Definition mkStudent (id : N) (sid name : string) : Student :=
  {| st_id := id; st_studentId := lit sid; st_name := lit name;
     st_class := lit "D21" |}.

Definition mkOcr (sid name : string) (conf : Q) : OCRResult :=
  {| student_id := Some (lit sid); student_name := Some (lit name);
     confidence := conf; ocr_text := lit "raw" |}.

Definition mkWorld (roster : list Student) (reply : OcrReply) : World :=
  {| students := roster;
     attendances := [];
     attendance_seq := 0;
     clock := 1700000000;
     ocr_service := fun _ => reply;
     prisma_rejects := fun _ => None;
     prisma_calls := [] |}.

Definition aFile : File := [255; 216; 255]%N.

Definition roster1 : list Student :=
  [mkStudent 1 "B21DCVT020" "Nguyen Van A"; mkStudent 2 "B21DCCN101" "Tran Thi B"].

Definition roster3 : list Student :=
  [mkStudent 1 "X" "Le Van C"; mkStudent 2 "Z" "Van C Le"; mkStudent 3 "W" "Le Van"].

(** Scenario 3 of the specification, with a second student whose name has
    the same words: the identifier "Y" is unknown, the name "Le Van C"
    scores 1 on the first two students and 2/3 on the third. *)
Definition ocrByName : OCRResult := mkOcr "Y" "Le Van C" 80.
Definition worldByName : World := mkWorld roster3 (ResponseOk ocrByName).

(** The identifier of the third student, whose name scores lower. *)
Definition ocrById : OCRResult := mkOcr "W" "Le Van C" 90.
Definition worldById : World := mkWorld roster3 (ResponseOk ocrById).

(** Confidence between the two thresholds. *)
Definition ocrMidConfidence : OCRResult := mkOcr "Y" "Le Van C" 60.
Definition worldMidConfidence : World :=
  mkWorld roster3 (ResponseOk ocrMidConfidence).

Definition ocrLowConfidence : OCRResult := mkOcr "B21DCVT020" "Nguyen Van A" 40.
Definition worldLowConfidence : World :=
  mkWorld roster1 (ResponseOk ocrLowConfidence).

(** Nobody is registered yet. *)
Definition worldEmptyRoster : World := mkWorld [] (ResponseOk ocrByName).

(** The OCR service answers with an error page. *)
Definition worldOcrDown : World :=
  mkWorld roster3 (ResponseNotOk (lit "Internal Server Error")).

(** The database rejects every call. *)
Definition worldDbDown : World :=
  {| students := roster3;
     attendances := [];
     attendance_seq := 0;
     clock := 1700000000;
     ocr_service := fun _ => ResponseOk ocrByName;
     prisma_rejects := fun _ => Some (lit "database is locked");
     prisma_calls := [] |}.

(** The database rejects the creation of attendance records only. *)
Definition worldCreateRejected : World :=
  {| students := roster3;
     attendances := [];
     attendance_seq := 0;
     clock := 1700000000;
     ocr_service := fun _ => ResponseOk ocrByName;
     prisma_rejects :=
       fun op => match op with
                 | OpCreate => Some (lit "disk full")
                 | _ => None
                 end;
     prisma_calls := [] |}.

(** White space in a string is well spaced when it is made of single
    SPACEs; [afterSpace] tells that the previous code unit was one. *)
Fixpoint wellSpaced (afterSpace : bool) (s : jsstring) : bool :=
  match s with
  | [] => true
  | c :: s' =>
      if isWhiteSpace c
      then codeunit_eqb c SPACE && negb afterSpace && wellSpaced true s'
      else wellSpaced false s'
  end.

(** The string is empty or its last code unit is not white space. *)
Fixpoint endsClean (s : jsstring) : bool :=
  match s with
  | [] => true
  | [c] => negb (isWhiteSpace c)
  | _ :: s' => endsClean s'
  end.

(** The OCR result carries a name and no identifier. *)
Definition ocrNameOnly : OCRResult := mkOcr "" "C  van LE" 80.
Definition worldNameOnly : World := mkWorld roster3 (ResponseOk ocrNameOnly).

Definition worldDbDownNameOnly : World :=
  {| students := roster3;
     attendances := [];
     attendance_seq := 0;
     clock := 1700000000;
     ocr_service := fun _ => ResponseOk ocrNameOnly;
     prisma_rejects := fun _ => Some (lit "database is locked");
     prisma_calls := [] |}.

(** A server that is unreachable, then answers 404, then answers. *)
Definition flakyAnswers (n : nat) : FetchResult jsstring :=
  match n with
  | O => Rejected (lit "network down")
  | S O => Responded false 404 (lit "not found")
  | _ => Responded true 200 (lit "done")
  end.

Definition failingAnswers (n : nat) : FetchResult jsstring :=
  Responded false (500 + N.of_nat n) (lit "error").

Definition formNewStudent : StudentForm :=
  {| form_studentId := Some (lit "b2112345678");
     form_name := Some (lit "Pham Thi D");
     form_class := Some (lit "e21cqcn02-b") |}.

Definition registryWith (sid : string) : Students.Registry :=
  registry0 (mkWorld [mkStudent 1 sid "Le Van C"] (ResponseOk ocrByName)).

(** The roster is empty and the database rejects every call; the OCR
    result has no identifier. *)
Definition worldEmptyRosterDbDown : World :=
  {| students := [];
     attendances := [];
     attendance_seq := 0;
     clock := 1700000000;
     ocr_service := fun _ => ResponseOk ocrNameOnly;
     prisma_rejects := fun _ => Some (lit "database is locked");
     prisma_calls := [] |}.

(** Three records: two of the first student, the later one second in the
    table, and one of the second student. *)
Definition recordOf (id student date : N) (status : MatchType) : Attendance :=
  {| att_id := id; att_date := date; att_status := status;
     att_studentId := student |}.

Definition worldWithRecords : World :=
  {| students := roster3;
     attendances := [recordOf 1 1 100 ID_Match; recordOf 2 2 200 Name_Match;
                     recordOf 3 1 300 Name_Match; recordOf 4 1 300 ID_Match];
     attendance_seq := 4;
     clock := 1700000000;
     ocr_service := fun _ => ResponseOk ocrByName;
     prisma_rejects := fun _ => None;
     prisma_calls := [] |}.

(** The first request is not sent; the later ones arrive. *)
Definition firstNotSent (n : nat) : Transport :=
  match n with
  | O => NotSent (lit "network down")
  | _ => Delivered
  end.

(** The reply to the first request is lost; the later ones arrive. *)
Definition firstReplyLost (n : nat) : Transport :=
  match n with
  | O => ReplyLost (lit "connection reset")
  | _ => Delivered
  end.

(** ** Properties of the string primitives *)

Lemma jsstring_eqb_eq (s t : jsstring) : jsstring_eqb s t = true <-> s = t.
Proof.
  revert t; induction s as [|c s IH]; intros [|d t]; simpl; try (split; congruence).
  unfold codeunit_eqb. rewrite andb_true_iff, N.eqb_eq, IH.
  split; [intros [-> ->]; reflexivity | intros H; inversion H; auto].
Qed.

Lemma includes_In (xs : list jsstring) (x : jsstring) :
  includes xs x = true <-> In x xs.
Proof.
  unfold includes. rewrite existsb_exists. split.
  - intros [y [Hy Heq]]. apply jsstring_eqb_eq in Heq. subst. assumption.
  - intros H. exists x. split; [assumption | apply jsstring_eqb_eq; reflexivity].
Qed.

Lemma includes_false (xs : list jsstring) (x : jsstring) :
  includes xs x = false <-> ~ In x xs.
Proof.
  rewrite <- includes_In. destruct (includes xs x); split; congruence.
Qed.

Lemma split_length (sep : codeunit) (s : jsstring) :
  (1 <= length (split sep s))%nat.
Proof.
  induction s as [|c s IH]; simpl; [lia|].
  destruct (codeunit_eqb c sep); simpl; [lia|].
  destruct (split sep s); simpl in *; lia.
Qed.

Lemma Set_addAll_In (xs seen : list jsstring) (x : jsstring) :
  In x (Set_addAll seen xs) <-> In x seen \/ In x xs.
Proof.
  revert seen; induction xs as [|y xs IH]; intros seen; simpl.
  - tauto.
  - destruct (includes seen y) eqn:E; rewrite IH.
    + apply includes_In in E. split; [tauto|]. intros [H|[<-|H]]; auto.
    + rewrite in_app_iff. simpl. tauto.
Qed.

Lemma Set_addAll_NoDup (xs seen : list jsstring) :
  NoDup seen -> NoDup (Set_addAll seen xs).
Proof.
  revert seen; induction xs as [|y xs IH]; intros seen Hs; simpl; [assumption|].
  destruct (includes seen y) eqn:E; apply IH; [assumption|].
  apply includes_false in E.
  apply NoDup_app; [assumption | repeat constructor; simpl; tauto |].
  intros a Ha [<-|[]]. contradiction.
Qed.

Lemma Set_addAll_length (xs seen : list jsstring) :
  (length seen <= length (Set_addAll seen xs))%nat.
Proof.
  revert seen; induction xs as [|y xs IH]; intros seen; simpl; [lia|].
  destruct (includes seen y); [apply IH|].
  specialize (IH (seen ++ [y])). rewrite length_app in IH. simpl in IH. lia.
Qed.

Lemma Array_from_Set_In (xs : list jsstring) (x : jsstring) :
  In x (Array_from_Set xs) <-> In x xs.
Proof. unfold Array_from_Set. rewrite Set_addAll_In. simpl. tauto. Qed.

Lemma Array_from_Set_NoDup (xs : list jsstring) : NoDup (Array_from_Set xs).
Proof. apply Set_addAll_NoDup. constructor. Qed.

(** The size of the set depends on the elements only. *)
Lemma Array_from_Set_length_ext (xs ys : list jsstring) :
  (forall x, In x xs <-> In x ys) ->
  length (Array_from_Set xs) = length (Array_from_Set ys).
Proof.
  intros H. apply Permutation_length.
  apply NoDup_Permutation; try apply Array_from_Set_NoDup.
  intros x. rewrite !Array_from_Set_In. apply H.
Qed.

Lemma Array_from_Set_length_nodup (xs : list jsstring) :
  length (Array_from_Set xs) = length (nodup jsstring_eq_dec xs).
Proof.
  apply Permutation_length.
  apply NoDup_Permutation;
    [apply Array_from_Set_NoDup | apply NoDup_nodup |].
  intros x. rewrite Array_from_Set_In, nodup_In. tauto.
Qed.

Lemma Array_from_Set_nonempty (x : jsstring) (xs : list jsstring) :
  (1 <= length (Array_from_Set (x :: xs)))%nat.
Proof.
  unfold Array_from_Set. simpl.
  pose proof (Set_addAll_length xs [x]). simpl in *. lia.
Qed.

(** ** Properties of the numbers *)

Lemma Zpos_of_nat (d : nat) :
  (1 <= d)%nat -> Z.pos (Pos.of_nat d) = Z.of_nat d.
Proof. intros H. rewrite <- (Nat2Pos.id d) at 2 by lia. symmetry. apply positive_nat_Z. Qed.

Lemma divide_Fin (n d : nat) :
  (1 <= d)%nat -> divide n d = Fin (Qred (Z.of_nat n # Pos.of_nat d)).
Proof. destruct d; [lia | reflexivity]. Qed.

Lemma divide_zero (d : nat) : (1 <= d)%nat -> divide 0 d = Fin 0.
Proof.
  intros H. rewrite divide_Fin by assumption. reflexivity.
Qed.

Lemma divide_same (d : nat) : (1 <= d)%nat -> divide d d = Fin 1.
Proof.
  intros H. rewrite divide_Fin by assumption. f_equal.
  change 1%Q with (Qred 1). apply Qred_complete.
  unfold Qeq; simpl. rewrite Zpos_of_nat by assumption. lia.
Qed.

Lemma divide_nonneg (n d : nat) :
  (1 <= d)%nat -> exists q, divide n d = Fin q /\ (0 <= q)%Q.
Proof.
  intros H. rewrite divide_Fin by assumption. eexists; split; [reflexivity|].
  rewrite Qred_correct. unfold Qle; simpl. lia.
Qed.

Lemma divide_unit_range (n d : nat) :
  (n <= d)%nat -> (1 <= d)%nat -> inUnitRange (divide n d) = true.
Proof.
  intros Hn Hd. rewrite divide_Fin by assumption.
  unfold inUnitRange, ge. rewrite andb_true_iff, !Qle_bool_iff, !Qred_correct.
  unfold Qle; simpl. rewrite Zpos_of_nat by assumption. lia.
Qed.

(** ** Properties of the similarity *)

Section SimilarityFacts.

Variable toLowerCase : jsstring -> jsstring.

Lemma similarity_unfold (name1 name2 : jsstring) :
  calculateNameSimilarity toLowerCase name1 name2
  = divide (length (intersectionOf (nameWords toLowerCase name1) (nameWords toLowerCase name2)))
           (length (unionOf (nameWords toLowerCase name1) (nameWords toLowerCase name2))).
Proof. reflexivity. Qed.

Lemma nameWords_length (name : jsstring) : (1 <= length (nameWords toLowerCase name))%nat.
Proof. apply split_length. Qed.

Lemma unionOf_length (name1 name2 : jsstring) :
  (1 <= length (unionOf (nameWords toLowerCase name1) (nameWords toLowerCase name2)))%nat.
Proof.
  pose proof (nameWords_length name1) as H.
  unfold unionOf. destruct (nameWords toLowerCase name1) as [|x xs]; simpl in H; [lia|].
  apply (Array_from_Set_nonempty x (xs ++ nameWords toLowerCase name2)).
Qed.

Lemma similarity_Fin (name1 name2 : jsstring) :
  exists q, calculateNameSimilarity toLowerCase name1 name2 = Fin q /\ (0 <= q)%Q.
Proof. rewrite similarity_unfold. apply divide_nonneg, unionOf_length. Qed.

Lemma intersectionOf_perm (ws1 ws1' ws2 ws2' : list jsstring) :
  Permutation ws1 ws1' -> Permutation ws2 ws2' ->
  length (intersectionOf ws1 ws2) = length (intersectionOf ws1' ws2').
Proof.
  intros H1 H2. unfold intersectionOf.
  transitivity (length (filter (fun x => includes ws2' x) ws1)).
  - f_equal. apply filter_ext. intros x.
    destruct (includes ws2' x) eqn:E.
    + apply includes_In. apply includes_In in E.
      apply Permutation_in with ws2'; [symmetry|]; assumption.
    + apply includes_false. apply includes_false in E.
      intros Hin. apply E. apply Permutation_in with ws2; assumption.
  - clear H2. induction H1; simpl; try congruence.
    + destruct (includes ws2' x); simpl; congruence.
    + destruct (includes ws2' x), (includes ws2' y); reflexivity.
Qed.

Lemma unionOf_perm (ws1 ws1' ws2 ws2' : list jsstring) :
  Permutation ws1 ws1' -> Permutation ws2 ws2' ->
  length (unionOf ws1 ws2) = length (unionOf ws1' ws2').
Proof.
  intros H1 H2. apply Array_from_Set_length_ext. intros x.
  rewrite !in_app_iff.
  split; intros [H|H]; [left|right|left|right];
    eauto using Permutation_in, Permutation_sym.
Qed.

Lemma intersectionOf_NoDup (ws1 ws2 : list jsstring) :
  NoDup ws1 -> NoDup (intersectionOf ws1 ws2).
Proof. apply NoDup_filter. Qed.

Lemma intersectionOf_le_unionOf (ws1 ws2 : list jsstring) :
  NoDup ws1 ->
  (length (intersectionOf ws1 ws2) <= length (unionOf ws1 ws2))%nat.
Proof.
  intros H. apply NoDup_incl_length; [apply intersectionOf_NoDup, H|].
  intros x Hx. apply filter_In in Hx. apply Array_from_Set_In.
  apply in_app_iff. tauto.
Qed.

(** Without a repeated word on either side the two filters keep the same
    words. *)
Lemma intersectionOf_comm (ws1 ws2 : list jsstring) :
  NoDup ws1 -> NoDup ws2 ->
  length (intersectionOf ws1 ws2) = length (intersectionOf ws2 ws1).
Proof.
  intros H1 H2. apply Permutation_length.
  apply NoDup_Permutation; try (apply intersectionOf_NoDup; assumption).
  intros x. unfold intersectionOf. rewrite !filter_In, !includes_In. tauto.
Qed.

Lemma unionOf_comm (ws1 ws2 : list jsstring) :
  length (unionOf ws1 ws2) = length (unionOf ws2 ws1).
Proof.
  apply Array_from_Set_length_ext. intros x. rewrite !in_app_iff. tauto.
Qed.

(** On a first name without a repeated word the handler's score is the
    Jaccard index, and lies between 0 and 1. *)
Lemma similarity_jaccard_NoDup (name1 name2 : jsstring) :
  NoDup (nameWords toLowerCase name1) ->
  calculateNameSimilarity toLowerCase name1 name2 = jaccardIndex toLowerCase name1 name2
  /\ inUnitRange (calculateNameSimilarity toLowerCase name1 name2) = true.
Proof.
  intros H. split.
  - rewrite similarity_unfold. unfold jaccardIndex. f_equal.
    + rewrite nodup_fixed_point.
      * unfold intersectionOf. f_equal. apply filter_ext. intros x.
        destruct (in_dec jsstring_eq_dec x (nameWords toLowerCase name2)) as [Hin|Hin].
        -- apply includes_In; assumption.
        -- apply includes_false; assumption.
      * apply NoDup_filter, H.
    + apply Array_from_Set_length_nodup.
  - rewrite similarity_unfold. apply divide_unit_range.
    + apply intersectionOf_le_unionOf, H.
    + apply unionOf_length.
Qed.

(** Without a repeated word in either name the score does not depend on
    the order of the two names. *)
Lemma similarity_sym_NoDup (name1 name2 : jsstring) :
  NoDup (nameWords toLowerCase name1) -> NoDup (nameWords toLowerCase name2) ->
  calculateNameSimilarity toLowerCase name1 name2 = calculateNameSimilarity toLowerCase name2 name1.
Proof.
  intros H1 H2. rewrite !similarity_unfold.
  rewrite (intersectionOf_comm H1 H2), (unionOf_comm (nameWords toLowerCase name1)).
  reflexivity.
Qed.

End SimilarityFacts.

(** ** The claims on the similarity *)

(** C5 (the code departs from it): a word repeated in the first name is
    counted once per occurrence in the intersection, while the union counts
    it once.  For "a a" against "a" the handler's score is 2, the Jaccard
    index of the two word sets is 1, and 2 is outside [0,1]. *)
Theorem similarity_counts_repeated_words :
  calculateNameSimilarity toLowerCase_ascii (lit "a a") (lit "a") = Fin 2
  /\ jaccardIndex toLowerCase_ascii (lit "a a") (lit "a") = Fin 1
  /\ calculateNameSimilarity toLowerCase_ascii (lit "a") (lit "a") = Fin 1
  /\ inUnitRange (calculateNameSimilarity toLowerCase_ascii (lit "a a") (lit "a"))
     = false.
Proof. repeat split; vm_compute; reflexivity. Qed.

(** C6 (the code departs from it): with a word repeated in one name the
    score depends on the order of the arguments: "a a" against "a" scores
    2, "a" against "a a" scores 1. *)
Theorem similarity_not_symmetric :
  calculateNameSimilarity toLowerCase_ascii (lit "a a") (lit "a") = Fin 2
  /\ calculateNameSimilarity toLowerCase_ascii (lit "a") (lit "a a") = Fin 1
  /\ calculateNameSimilarity toLowerCase_ascii (lit "a a") (lit "a")
     <> calculateNameSimilarity toLowerCase_ascii (lit "a") (lit "a a").
Proof.
  split; [vm_compute; reflexivity|].
  split; [vm_compute; reflexivity|].
  vm_compute. discriminate.
Qed.

(** C7, as stated, fails on two empty names: both normalise to the single
    empty word, which they share, and the score is 1, not 0. *)
Lemma similarity_empty_names_not_zero :
  calculateNameSimilarity toLowerCase_ascii (lit "") (lit "") = Fin 1
  /\ calculateNameSimilarity toLowerCase_ascii (lit "") (lit "") <> Fin 0.
Proof. split; [vm_compute; reflexivity | vm_compute; discriminate]. Qed.

(** C7, amended: two names with no shared normalised word score 0; two
    empty names score 1 (lowering the empty string gives the empty string),
    and the division is by the one word of the union. *)
Theorem similarity_disjoint_and_empty (toLowerCase : jsstring -> jsstring) :
  (forall name1 name2,
      (forall x, In x (nameWords toLowerCase name1) ->
                 ~ In x (nameWords toLowerCase name2)) ->
      calculateNameSimilarity toLowerCase name1 name2 = Fin 0)
  /\ (toLowerCase [] = [] ->
      length (unionOf (nameWords toLowerCase []) (nameWords toLowerCase [])) = 1%nat
      /\ calculateNameSimilarity toLowerCase [] [] = Fin 1).
Proof.
  split.
  - intros name1 name2 H. rewrite similarity_unfold.
    replace (intersectionOf _ _) with (@nil jsstring).
    + apply divide_zero, unionOf_length.
    + symmetry. unfold intersectionOf.
      induction (nameWords toLowerCase name1) as [|x xs IH]; [reflexivity|].
      simpl. destruct (includes _ x) eqn:E.
      * apply includes_In in E. exfalso. apply (H x); simpl; auto.
      * apply IH. intros y Hy. apply H. simpl; auto.
  - intros H0.
    unfold calculateNameSimilarity, nameWords, normalizeVietnameseName.
    rewrite H0. split; reflexivity.
Qed.

Lemma similarity_disjoint_and_empty_witness :
  calculateNameSimilarity toLowerCase_ascii (lit "Tran Thi B") (lit "Le Van C")
  = Fin 0
  /\ calculateNameSimilarity toLowerCase_ascii [] [] = Fin 1.
Proof.
  destruct (similarity_disjoint_and_empty toLowerCase_ascii) as [Hdisj Hempty].
  split.
  - apply Hdisj. vm_compute.
    intros x H1 H2.
    repeat (destruct H1 as [H1|H1];
            [subst x; repeat (destruct H2 as [H2|H2]; [discriminate H2|]);
             exact H2|]).
    exact H1.
  - apply Hempty. reflexivity.
Defined.

(** C8: the score depends on the two word lists up to permutation; on
    "Nguyen Van A" against "A Van Nguyen" and against itself it is 1 (for a
    [toLowerCase] that lowers the two strings as ASCII). *)
Theorem similarity_word_order_insensitive (toLowerCase : jsstring -> jsstring) :
  (forall name1 name1' name2 name2',
      Permutation (nameWords toLowerCase name1) (nameWords toLowerCase name1') ->
      Permutation (nameWords toLowerCase name2) (nameWords toLowerCase name2') ->
      calculateNameSimilarity toLowerCase name1 name2
      = calculateNameSimilarity toLowerCase name1' name2')
  /\ (toLowerCase (lit "Nguyen Van A") = lit "nguyen van a" ->
      toLowerCase (lit "A Van Nguyen") = lit "a van nguyen" ->
      calculateNameSimilarity toLowerCase (lit "Nguyen Van A") (lit "A Van Nguyen")
      = Fin 1
      /\ calculateNameSimilarity toLowerCase (lit "Nguyen Van A") (lit "Nguyen Van A")
         = Fin 1).
Proof.
  split.
  - intros name1 name1' name2 name2' H1 H2. rewrite !similarity_unfold.
    rewrite (intersectionOf_perm H1 H2), (unionOf_perm H1 H2). reflexivity.
  - intros Ha Hb.
    unfold calculateNameSimilarity, normalizeVietnameseName.
    rewrite Ha, Hb. split; vm_compute; reflexivity.
Qed.

Lemma similarity_word_order_insensitive_witness :
  calculateNameSimilarity toLowerCase_ascii (lit "Tran Thi B") (lit "Le Van C")
  = calculateNameSimilarity toLowerCase_ascii (lit "Thi B Tran") (lit "C Le Van")
  /\ calculateNameSimilarity toLowerCase_ascii (lit "Nguyen Van A") (lit "A Van Nguyen")
     = Fin 1
  /\ calculateNameSimilarity toLowerCase_ascii (lit "Nguyen Van A") (lit "Nguyen Van A")
     = Fin 1.
Proof.
  destruct (similarity_word_order_insensitive toLowerCase_ascii) as [Hperm Hex].
  split.
  - apply Hperm; vm_compute.
    + match goal with
      | |- Permutation (?x :: ?l) _ => exact (Permutation_cons_append l x)
      end.
    + match goal with
      | |- Permutation _ (?x :: ?l) =>
          exact (Permutation_sym (Permutation_cons_append l x))
      end.
  - apply Hex; reflexivity.
Defined.

(** C10: the similarity is total.  Splitting any string gives at least one
    word, so both word lists and their union are non-empty, and the score
    is the finite quotient of the two lengths, never [NaN] or [Infinity]. *)
Theorem similarity_total (toLowerCase : jsstring -> jsstring)
  (name1 name2 : jsstring) :
  split SPACE [] = [[]]
  /\ (1 <= length (nameWords toLowerCase name1))%nat
  /\ (1 <= length (nameWords toLowerCase name2))%nat
  /\ (1 <= length (unionOf (nameWords toLowerCase name1)
                           (nameWords toLowerCase name2)))%nat
  /\ exists q,
       calculateNameSimilarity toLowerCase name1 name2 = Fin q
       /\ (q == Z.of_nat (length (intersectionOf (nameWords toLowerCase name1)
                                                 (nameWords toLowerCase name2)))
                # Pos.of_nat (length (unionOf (nameWords toLowerCase name1)
                                              (nameWords toLowerCase name2))))%Q.
Proof.
  split; [reflexivity|].
  split; [apply nameWords_length|].
  split; [apply nameWords_length|].
  split; [apply unionOf_length|].
  rewrite similarity_unfold, divide_Fin by apply unionOf_length.
  eexists; split; [reflexivity | apply Qred_correct].
Qed.

(** ** Properties of the comparisons *)

Lemma ge_Fin_true (x y : Q) : ge (Fin x) (Fin y) = true <-> (y <= x)%Q.
Proof. apply Qle_bool_iff. Qed.

Lemma ge_Fin_false (x y : Q) : ge (Fin x) (Fin y) = false <-> (x < y)%Q.
Proof.
  simpl. rewrite <- not_true_iff_false, Qle_bool_iff.
  split; [apply Qnot_le_lt | apply Qlt_not_le].
Qed.

Lemma gt_Fin_true (x y : Q) : gt (Fin x) (Fin y) = true <-> (y < x)%Q.
Proof. simpl. unfold Qltb. rewrite negb_true_iff. apply (ge_Fin_false y x). Qed.

Lemma gt_Fin_false (x y : Q) : gt (Fin x) (Fin y) = false <-> (x <= y)%Q.
Proof. simpl. unfold Qltb. rewrite negb_false_iff. apply Qle_bool_iff. Qed.

Lemma Qltb_true (x y : Q) : Qltb x y = true <-> (x < y)%Q.
Proof. apply (gt_Fin_true y x). Qed.

Lemma Qltb_false (x y : Q) : Qltb x y = false <-> (y <= x)%Q.
Proof. apply (gt_Fin_false y x). Qed.

(** ** Properties of the collaborators *)

Lemma findFirst_returns (sid : jsstring) (w : World) :
  prisma_rejects w OpFindFirst = None ->
  prisma_student_findFirst sid w
  = (Returned (find (fun s => jsstring_eqb (st_studentId s) sid) (students w)),
     with_call (CallFindFirst sid) w).
Proof.
  intros H. unfold prisma_student_findFirst, prisma. rewrite H. reflexivity.
Qed.

Lemma findMany_returns (w : World) :
  prisma_rejects w OpFindMany = None ->
  prisma_student_findMany w = (Returned (students w), with_call CallFindMany w).
Proof.
  intros H. unfold prisma_student_findMany, prisma. rewrite H. reflexivity.
Qed.

Lemma create_returns (studentId : N) (status : MatchType) (date : N) (w : World) :
  prisma_rejects w OpCreate = None ->
  prisma_attendance_create studentId status date w
  = (let a := {| att_id := N.succ (attendance_seq w); att_date := date;
                 att_status := status; att_studentId := studentId |} in
     (Returned a, with_attendance a (with_call (CallCreate studentId status date) w))).
Proof.
  intros H. unfold prisma_attendance_create, prisma. rewrite H. reflexivity.
Qed.

(** Under the unique index on [studentId] the lookup finds the student that
    carries the identifier. *)
Lemma find_unique_studentId (roster : list Student) (s : Student) :
  NoDup (map st_studentId roster) -> In s roster ->
  find (fun s' => jsstring_eqb (st_studentId s') (st_studentId s)) roster = Some s.
Proof.
  induction roster as [|x roster IH]; intros Hnd Hin; [contradiction|].
  simpl in *. inversion Hnd as [|? ? Hx Hnd']; subst.
  destruct Hin as [->|Hin].
  - replace (jsstring_eqb _ _) with true; [reflexivity|].
    symmetry. apply jsstring_eqb_eq. reflexivity.
  - destruct (jsstring_eqb (st_studentId x) (st_studentId s)) eqn:E.
    + apply jsstring_eqb_eq in E. exfalso. apply Hx. rewrite E.
      apply in_map. assumption.
    + apply IH; assumption.
Qed.

Lemma find_present_studentId (roster : list Student) (s : Student) :
  In s roster ->
  exists s',
    find (fun x => jsstring_eqb (st_studentId x) (st_studentId s)) roster = Some s'.
Proof.
  intros Hin.
  destruct (find (fun x => jsstring_eqb (st_studentId x) (st_studentId s)) roster)
    as [s'|] eqn:E; [eauto|].
  apply (find_none _ _ E) in Hin.
  assert (jsstring_eqb (st_studentId s) (st_studentId s) = true)
    by (apply jsstring_eqb_eq; reflexivity).
  congruence.
Qed.

Lemma find_absent_studentId (roster : list Student) (sid : jsstring) :
  (forall s, In s roster -> st_studentId s <> sid) ->
  find (fun s' => jsstring_eqb (st_studentId s') sid) roster = None.
Proof.
  intros H. induction roster as [|x roster IH]; [reflexivity|]. simpl.
  destruct (jsstring_eqb (st_studentId x) sid) eqn:E.
  - apply jsstring_eqb_eq in E. exfalso. apply (H x); simpl; auto.
  - apply IH. intros s Hs. apply H. simpl; auto.
Qed.

Lemma find_some_In (roster : list Student) (sid : jsstring) (s : Student) :
  find (fun s' => jsstring_eqb (st_studentId s') sid) roster = Some s ->
  In s roster /\ st_studentId s = sid.
Proof.
  intros H. apply find_some in H. destruct H as [Hin E].
  apply jsstring_eqb_eq in E. auto.
Qed.

Lemma truthy_Some (v : option jsstring) (s : jsstring) :
  truthy v = Some s -> v = Some s /\ s <> [].
Proof.
  destruct v as [[|c t]|]; simpl; intros H; inversion H; subst.
  split; [reflexivity | discriminate].
Qed.

Lemma truthy_nonempty (s : jsstring) : s <> [] -> truthy (Some s) = Some s.
Proof. destruct s; [congruence | reflexivity]. Qed.

(** ** The claims on the handler *)

(** C3: below confidence 50 the answer is the low-confidence failure with
    the confidence and the raw text of the OCR result, and the world is
    left as it was: no Prisma call (no identifier lookup, no roster read)
    and no attendance record. *)
Theorem low_confidence_rejected (toLowerCase : jsstring -> jsstring)
  (w : World) (file : File) (ocrResult : OCRResult) :
  ocr_service w file = ResponseOk ocrResult ->
  (confidence ocrResult < 50)%Q ->
  POST toLowerCase (Some file) w
  = (LowConfidence (confidence ocrResult) (ocr_text ocrResult), w)
  /\ prisma_calls (snd (POST toLowerCase (Some file) w)) = prisma_calls w
  /\ attendances (snd (POST toLowerCase (Some file) w)) = attendances w.
Proof.
  intros Hocr Hconf.
  assert (E : POST toLowerCase (Some file) w
              = (LowConfidence (confidence ocrResult) (ocr_text ocrResult), w)).
  { unfold POST, try_catch, bind, fetch_ocr. rewrite Hocr.
    apply Qltb_true in Hconf. rewrite Hconf. reflexivity. }
  rewrite E. auto.
Qed.

Lemma low_confidence_rejected_witness :
  POST toLowerCase_ascii (Some aFile) worldLowConfidence
  = (LowConfidence 40 (lit "raw"), worldLowConfidence)
  /\ prisma_calls (snd (POST toLowerCase_ascii (Some aFile) worldLowConfidence))
     = []
  /\ attendances (snd (POST toLowerCase_ascii (Some aFile) worldLowConfidence))
     = [].
Proof.
  apply (low_confidence_rejected toLowerCase_ascii
           worldLowConfidence aFile (ocrResult := ocrLowConfidence)).
  - reflexivity.
  - reflexivity.
Defined.


(** ** Properties of the scan of the roster *)

Section ScanFacts.

Variable toLowerCase : jsstring -> jsstring.
Variable student_name : jsstring.

Lemma nameScore_Fin (s : Student) :
  exists q, nameScore toLowerCase student_name s = Fin q /\ (0 <= q)%Q.
Proof. apply similarity_Fin. Qed.

Lemma scanStep_unfold (best : option Student * number) (x : Student) :
  scanStep toLowerCase student_name best x
  = if gt (nameScore toLowerCase student_name x) (snd best)
       && ge (nameScore toLowerCase student_name x) similarityThreshold
    then (Some x, nameScore toLowerCase student_name x)
    else best.
Proof. reflexivity. Qed.

(** Replace the scores in sight by finite numbers and decide the order. *)
Ltac finite_scores :=
  repeat match goal with
    | H : context [nameScore toLowerCase student_name ?s] |- _ =>
        let q := fresh "q" in
        let Hq := fresh "Hq" in
        let Hpos := fresh "Hpos" in
        destruct (nameScore_Fin s) as [q [Hq Hpos]];
        rewrite Hq in *; clear Hq
    | |- context [nameScore toLowerCase student_name ?s] =>
        let q := fresh "q" in
        let Hq := fresh "Hq" in
        let Hpos := fresh "Hpos" in
        destruct (nameScore_Fin s) as [q [Hq Hpos]];
        rewrite Hq in *; clear Hq
    end.

Ltac order_scores :=
  finite_scores; unfold similarityThreshold in *;
  rewrite ?ge_Fin_true, ?ge_Fin_false, ?gt_Fin_true, ?gt_Fin_false in *;
  lra.

(** The invariant of the loop: after the students [seen], [bestMatch] is
    null with [bestSimilarity] 0 and nobody seen reaches the threshold, or
    it is the best scoring student seen and [bestSimilarity] is its
    score. *)
Lemma scanStep_invariant (seen : list Student) (best : option Student * number)
  (x : Student) :
  match fst best with
  | None => snd best = Fin 0
            /\ forall s', In s' seen ->
                 ge (nameScore toLowerCase student_name s') similarityThreshold = false
  | Some s => snd best = nameScore toLowerCase student_name s
              /\ bestScoring toLowerCase seen student_name s
  end ->
  match fst (scanStep toLowerCase student_name best x) with
  | None => snd (scanStep toLowerCase student_name best x) = Fin 0
            /\ forall s', In s' (seen ++ [x]) ->
                 ge (nameScore toLowerCase student_name s') similarityThreshold = false
  | Some s => snd (scanStep toLowerCase student_name best x)
              = nameScore toLowerCase student_name s
              /\ bestScoring toLowerCase (seen ++ [x]) student_name s
  end.
Proof.
  destruct best as [[s|] bs]; simpl; intros [-> H]; rewrite scanStep_unfold; simpl snd.
  - destruct H as (before & after & Hseen & Hthr & Hbefore & Hafter).
    destruct (gt (nameScore toLowerCase student_name x)
                 (nameScore toLowerCase student_name s)) eqn:G;
      [destruct (ge (nameScore toLowerCase student_name x) similarityThreshold) eqn:T|];
      simpl.
    + split; [reflexivity|]. exists seen, []. repeat split; auto.
      * intros s' Hs'. rewrite Hseen in Hs'.
        apply in_app_iff in Hs'. destruct Hs' as [Hs'|[<-|Hs']].
        -- specialize (Hbefore s' Hs'). order_scores.
        -- assumption.
        -- specialize (Hafter s' Hs'). order_scores.
    + exfalso. order_scores.
    + split; [reflexivity|]. exists before, (after ++ [x]). repeat split; auto.
      * rewrite Hseen, <- app_assoc. reflexivity.
      * intros s' Hs'. apply in_app_iff in Hs'. destruct Hs' as [Hs'|[<-|[]]].
        -- apply Hafter, Hs'.
        -- order_scores.
  - destruct (gt (nameScore toLowerCase student_name x) (Fin 0)) eqn:G;
      [destruct (ge (nameScore toLowerCase student_name x) similarityThreshold) eqn:T|];
      simpl.
    + split; [reflexivity|]. exists seen, []. repeat split; auto.
      * intros s' Hs'. specialize (H s' Hs'). order_scores.
    + split; [reflexivity|]. intros s' Hs'.
      apply in_app_iff in Hs'. destruct Hs' as [Hs'|[<-|[]]]; auto.
    + split; [reflexivity|]. intros s' Hs'.
      apply in_app_iff in Hs'. destruct Hs' as [Hs'|[<-|[]]]; auto.
      order_scores.
Qed.

Lemma scan_invariant (rest seen : list Student) (best : option Student * number) :
  match fst best with
  | None => snd best = Fin 0
            /\ forall s', In s' seen ->
                 ge (nameScore toLowerCase student_name s') similarityThreshold = false
  | Some s => snd best = nameScore toLowerCase student_name s
              /\ bestScoring toLowerCase seen student_name s
  end ->
  match fst (fold_left (scanStep toLowerCase student_name) rest best) with
  | None => forall s', In s' (seen ++ rest) ->
              ge (nameScore toLowerCase student_name s') similarityThreshold = false
  | Some s => bestScoring toLowerCase (seen ++ rest) student_name s
  end.
Proof.
  revert seen best. induction rest as [|x rest IH]; intros seen best H.
  - simpl. rewrite app_nil_r. destruct (fst best); tauto.
  - simpl. replace (seen ++ x :: rest) with ((seen ++ [x]) ++ rest)
      by (rewrite <- app_assoc; reflexivity).
    apply IH. apply scanStep_invariant. assumption.
Qed.

(** What the scan selects. *)
Lemma scanRoster_selects (roster : list Student) :
  match fst (scanRoster toLowerCase roster student_name) with
  | None => forall s', In s' roster ->
              ge (nameScore toLowerCase student_name s') similarityThreshold = false
  | Some s => bestScoring toLowerCase roster student_name s
  end.
Proof.
  apply (scan_invariant roster [] (None, Fin 0)). simpl. split; [reflexivity|].
  intros s' [].
Qed.

Lemma bestScoring_In (roster : list Student) (s : Student) :
  bestScoring toLowerCase roster student_name s -> In s roster.
Proof.
  intros (before & after & -> & _). apply in_app_iff. simpl. auto.
Qed.

(** The best scoring student is determined by the roster. *)
Lemma bestScoring_unique (roster : list Student) (s t : Student) :
  bestScoring toLowerCase roster student_name s ->
  bestScoring toLowerCase roster student_name t ->
  s = t.
Proof.
  intros (b1 & a1 & E1 & _ & Hb1 & Ha1) (b2 & a2 & E2 & _ & Hb2 & Ha2).
  rewrite E1 in E2. clear E1. revert Hb1 b2 E2 Hb2.
  induction b1 as [|y b1 IH]; intros Hb1 [|z b2] E2 Hb2; simpl in E2;
    injection E2 as Hhead Htail.
  - assumption.
  - exfalso.
    assert (In t a1) as Hin by (rewrite Htail; apply in_elt).
    specialize (Ha1 t Hin). specialize (Hb2 z (or_introl eq_refl)).
    rewrite <- Hhead in Hb2. order_scores.
  - exfalso.
    assert (In s a2) as Hin by (rewrite <- Htail; apply in_elt).
    specialize (Ha2 s Hin). specialize (Hb1 y (or_introl eq_refl)).
    rewrite Hhead in Hb1. order_scores.
  - apply (IH (fun s' H => Hb1 s' (or_intror H)) b2 Htail).
    intros s' H. apply Hb2. simpl; auto.
Qed.

End ScanFacts.

(** ** Properties of the steps of the handler *)

Section HandlerFacts.

Variable toLowerCase : jsstring -> jsstring.

Lemma with_calls_app (cs ds : list PrismaCall) (w : World) :
  with_calls (cs ++ ds) w = with_calls ds (with_calls cs w).
Proof. apply fold_left_app. Qed.

Lemma with_calls_fields (cs : list PrismaCall) (w : World) :
  students (with_calls cs w) = students w
  /\ attendances (with_calls cs w) = attendances w
  /\ attendance_seq (with_calls cs w) = attendance_seq w
  /\ clock (with_calls cs w) = clock w
  /\ prisma_rejects (with_calls cs w) = prisma_rejects w
  /\ prisma_calls (with_calls cs w) = prisma_calls w ++ cs.
Proof.
  revert w; induction cs as [|c cs IH]; intros w; simpl.
  - rewrite app_nil_r. repeat split; reflexivity.
  - destruct (IH (with_call c w)) as (H1 & H2 & H3 & H4 & H5 & H6).
    unfold with_calls in *. rewrite H1, H2, H3, H4, H5, H6. simpl.
    rewrite <- app_assoc. repeat split; reflexivity.
Qed.

Lemma identifierMatch_found (w : World) (ocrResult : OCRResult)
  (sid : jsstring) (s : Student) :
  truthy (student_id ocrResult) = Some sid ->
  prisma_rejects w OpFindFirst = None ->
  find (fun s' => jsstring_eqb (st_studentId s') sid) (students w) = Some s ->
  identifierMatch ocrResult w
  = (Returned (Some s, ID_Match), with_call (CallFindFirst sid) w).
Proof.
  intros Hid Hff Hfind. unfold identifierMatch. rewrite Hid. unfold bind.
  rewrite findFirst_returns by assumption. rewrite Hfind. reflexivity.
Qed.

Lemma identifierMatch_fails (w : World) (ocrResult : OCRResult) :
  identifierLookupFails w ocrResult ->
  identifierMatch ocrResult w
  = (Returned (None, NoMatchType), with_calls (identifierCalls ocrResult) w).
Proof.
  unfold identifierLookupFails, identifierMatch, identifierCalls.
  destruct (truthy (student_id ocrResult)) as [sid|]; [|reflexivity].
  intros [Hff Habsent]. unfold bind.
  rewrite findFirst_returns by assumption.
  rewrite find_absent_studentId by assumption. reflexivity.
Qed.

Lemma nameMatch_skipped (ocrResult : OCRResult)
  (found : option Student * MatchType) (w : World) :
  nameMatchGuard (fst found) ocrResult = None ->
  nameMatch toLowerCase ocrResult found w = (Returned found, w).
Proof. intros H. unfold nameMatch. rewrite H. reflexivity. Qed.

Lemma nameMatch_runs (ocrResult : OCRResult)
  (found : option Student * MatchType) (name : jsstring) (w : World) :
  nameMatchGuard (fst found) ocrResult = Some name ->
  prisma_rejects w OpFindMany = None ->
  nameMatch toLowerCase ocrResult found w
  = (Returned match fst (scanRoster toLowerCase (students w) name) with
              | Some bestMatch => (Some bestMatch, Name_Match)
              | None => found
              end,
     with_call CallFindMany w).
Proof.
  intros H Hfm. unfold nameMatch. rewrite H. unfold bind.
  rewrite findMany_returns by assumption.
  destruct (fst (scanRoster toLowerCase (students w) name)); reflexivity.
Qed.

Lemma nameMatchGuard_Some (student : option Student) (ocrResult : OCRResult)
  (name : jsstring) :
  nameMatchGuard student ocrResult = Some name <->
  student = None /\ truthy (student_name ocrResult) = Some name
  /\ (75 <= confidence ocrResult)%Q.
Proof.
  unfold nameMatchGuard. rewrite <- Qle_bool_iff.
  destruct student; [split; [discriminate | intros [H _]; discriminate]|].
  destruct (truthy (student_name ocrResult)) as [n|];
    [|split; [discriminate | intros (_ & H & _); discriminate]].
  destruct (Qle_bool 75 (confidence ocrResult)).
  - split; [intros H; inversion H; auto | intros (_ & H & _); exact H].
  - split; [discriminate | intros (_ & _ & H); discriminate].
Qed.

Lemma recordAttendance_none (ocrResult : OCRResult) (matchType : MatchType)
  (w : World) :
  recordAttendance ocrResult (None, matchType) w
  = (Returned (StudentNotFound (student_id ocrResult) (student_name ocrResult)
                 (confidence ocrResult) (ocr_text ocrResult)), w).
Proof. reflexivity. Qed.

Lemma recordAttendance_some (ocrResult : OCRResult) (student : Student)
  (matchType : MatchType) (w : World) :
  prisma_rejects w OpCreate = None ->
  let attendance := {| att_id := N.succ (attendance_seq w);
                       att_date := clock w;
                       att_status := matchType;
                       att_studentId := st_id student |} in
  recordAttendance ocrResult (Some student, matchType) w
  = (Returned (Success attendance matchType student ocrResult),
     with_attendance attendance
       (with_call (CallCreate (st_id student) matchType (clock w)) w)).
Proof.
  intros H attendance. unfold recordAttendance, bind, new_Date.
  rewrite create_returns by assumption. reflexivity.
Qed.

Lemma recordAttendance_rejected (ocrResult : OCRResult) (student : Student)
  (matchType : MatchType) (w : World) (e : jsstring) :
  prisma_rejects w OpCreate = Some e ->
  recordAttendance ocrResult (Some student, matchType) w
  = (Thrown e, with_call (CallCreate (st_id student) matchType (clock w)) w).
Proof.
  intros H. unfold recordAttendance, bind, new_Date, prisma_attendance_create, prisma.
  rewrite H. reflexivity.
Qed.

Lemma POST_accepted (w : World) (file : File) (ocrResult : OCRResult) :
  ocr_service w file = ResponseOk ocrResult ->
  (50 <= confidence ocrResult)%Q ->
  POST toLowerCase (Some file) w
  = try_catch (found <- resolveStudent toLowerCase ocrResult ;;
               recordAttendance ocrResult found) w.
Proof.
  intros Hocr Hconf. apply Qltb_false in Hconf.
  unfold POST, try_catch, bind at 1, fetch_ocr. rewrite Hocr, Hconf.
  reflexivity.
Qed.

Lemma bind_returned {A B} (m : Async A) (k : A -> Async B) (w w' : World) (a : A) :
  m w = (Returned a, w') -> bind m k w = k a w'.
Proof. intros H. unfold bind. rewrite H. reflexivity. Qed.

Lemma bind_thrown {A B} (m : Async A) (k : A -> Async B) (w w' : World)
  (e : jsstring) :
  m w = (Thrown e, w') -> bind m k w = (Thrown e, w').
Proof. intros H. unfold bind. rewrite H. reflexivity. Qed.

(** What the two steps do to the world and whom they can resolve. *)
Lemma resolveStudent_outcome (ocrResult : OCRResult) (w : World) :
  exists calls res,
    resolveStudent toLowerCase ocrResult w = (res, with_calls calls w)
    /\ (forall c, In c calls -> c = CallFindMany \/ exists sid, c = CallFindFirst sid)
    /\ (In CallFindMany calls ->
        identifierLookupFails w ocrResult
        /\ exists name, truthy (student_name ocrResult) = Some name
                        /\ (75 <= confidence ocrResult)%Q)
    /\ (forall st mt, res = Returned (Some st, mt) ->
        In st (students w) /\ (mt = ID_Match \/ mt = Name_Match)).
Proof.
  unfold resolveStudent, identifierMatch.
  destruct (truthy (student_id ocrResult)) as [sid|] eqn:Hsid.
  - (* an identifier to look up *)
    destruct (prisma_rejects w OpFindFirst) as [e|] eqn:Hff.
    + exists [CallFindFirst sid], (Thrown e). split; [|split; [|split]].
      * unfold bind, prisma_student_findFirst, prisma. rewrite Hff. reflexivity.
      * intros c [<-|[]]. right. eauto.
      * intros [H|[]]. discriminate.
      * discriminate.
    + unfold bind, ret. rewrite findFirst_returns by assumption. cbv beta iota.
      destruct (find _ (students w)) as [s|] eqn:Hfind.
      * exists [CallFindFirst sid], (Returned (Some s, ID_Match)).
        split; [|split; [|split]].
        -- reflexivity.
        -- intros c [<-|[]]. right. eauto.
        -- intros [H|[]]. discriminate.
        -- intros st mt H. inversion H; subst.
           apply find_some_In in Hfind. tauto.
      * assert (Hfails : identifierLookupFails w ocrResult).
        { unfold identifierLookupFails. rewrite Hsid. split; [assumption|].
          intros s Hs Hid. apply (find_none _ _ Hfind) in Hs.
          apply jsstring_eqb_eq in Hid. congruence. }
        destruct (nameMatchGuard (fst (@None Student, NoMatchType)) ocrResult)
          as [name|] eqn:Hguard.
        -- destruct (prisma_rejects w OpFindMany) as [e|] eqn:Hfm.
           ++ exists [CallFindFirst sid; CallFindMany], (Thrown e).
              split; [|split; [|split]].
              ** unfold nameMatch. rewrite Hguard.
                 unfold bind, prisma_student_findMany, prisma. simpl.
                 rewrite Hfm. reflexivity.
              ** intros c [<-|[<-|[]]]; eauto.
              ** intros _. split; [assumption|]. exists name.
                 apply nameMatchGuard_Some in Hguard. tauto.
              ** discriminate.
           ++ rewrite (@nameMatch_runs ocrResult _ name _ Hguard)
                by (simpl; assumption).
              simpl students.
              pose proof (scanRoster_selects toLowerCase name (students w)) as Hsel.
              destruct (fst (scanRoster toLowerCase (students w) name)) as [b|].
              ** exists [CallFindFirst sid; CallFindMany],
                   (Returned (Some b, Name_Match)).
                 split; [|split; [|split]].
                 --- reflexivity.
                 --- intros c [<-|[<-|[]]]; eauto.
                 --- intros _. split; [assumption|]. exists name.
                     apply nameMatchGuard_Some in Hguard. tauto.
                 --- intros st mt H. inversion H; subst.
                     split; [eapply bestScoring_In; eassumption | auto].
              ** exists [CallFindFirst sid; CallFindMany],
                   (Returned (None, NoMatchType)).
                 split; [|split; [|split]].
                 --- reflexivity.
                 --- intros c [<-|[<-|[]]]; eauto.
                 --- intros _. split; [assumption|]. exists name.
                     apply nameMatchGuard_Some in Hguard. tauto.
                 --- discriminate.
        -- rewrite nameMatch_skipped by assumption.
           exists [CallFindFirst sid], (Returned (None, NoMatchType)).
           split; [|split; [|split]].
           ++ reflexivity.
           ++ intros c [<-|[]]. right. eauto.
           ++ intros [H|[]]. discriminate.
           ++ discriminate.
  - (* no identifier *)
    assert (Hfails : identifierLookupFails w ocrResult).
    { unfold identifierLookupFails. rewrite Hsid. exact I. }
    unfold ret, bind at 1.
    destruct (nameMatchGuard (fst (@None Student, NoMatchType)) ocrResult)
      as [name|] eqn:Hguard.
    + destruct (prisma_rejects w OpFindMany) as [e|] eqn:Hfm.
      * exists [CallFindMany], (Thrown e). split; [|split; [|split]].
        -- unfold nameMatch. rewrite Hguard.
           unfold bind, prisma_student_findMany, prisma. rewrite Hfm. reflexivity.
        -- intros c [<-|[]]; eauto.
        -- intros _. split; [assumption|]. exists name.
           apply nameMatchGuard_Some in Hguard. tauto.
        -- discriminate.
      * rewrite (@nameMatch_runs ocrResult _ name _ Hguard) by assumption.
        pose proof (scanRoster_selects toLowerCase name (students w)) as Hsel.
        destruct (fst (scanRoster toLowerCase (students w) name)) as [b|].
        -- exists [CallFindMany], (Returned (Some b, Name_Match)).
           split; [|split; [|split]].
           ++ reflexivity.
           ++ intros c [<-|[]]; eauto.
           ++ intros _. split; [assumption|]. exists name.
              apply nameMatchGuard_Some in Hguard. tauto.
           ++ intros st mt H. inversion H; subst.
              split; [eapply bestScoring_In; eassumption | auto].
        -- exists [CallFindMany], (Returned (None, NoMatchType)).
           split; [|split; [|split]].
           ++ reflexivity.
           ++ intros c [<-|[]]; eauto.
           ++ intros _. split; [assumption|]. exists name.
              apply nameMatchGuard_Some in Hguard. tauto.
           ++ discriminate.
    + rewrite nameMatch_skipped by assumption.
      exists [], (Returned (None, NoMatchType)). split; [|split; [|split]].
      * reflexivity.
      * intros c [].
      * intros [].
      * discriminate.
Qed.

End HandlerFacts.

(** ** The claims on the matching *)

(** C1: with confidence at least 50, a non-empty [student_id] and a roster
    holding a student with exactly that identifier, the handler resolves a
    student with that identifier as [ID_Match] and records it; under the
    unique index on [studentId] it is that student.  The only Prisma calls
    are the lookup and the creation: the roster is not read and no name is
    scored, whatever [student_name] and the other students are. *)
Theorem identifier_match_wins (toLowerCase : jsstring -> jsstring)
  (w : World) (file : File) (ocrResult : OCRResult) (s : Student) :
  ocr_service w file = ResponseOk ocrResult ->
  (50 <= confidence ocrResult)%Q ->
  student_id ocrResult = Some (st_studentId s) ->
  st_studentId s <> [] ->
  In s (students w) ->
  prisma_rejects w OpFindFirst = None ->
  prisma_rejects w OpCreate = None ->
  exists resolved,
    In resolved (students w)
    /\ st_studentId resolved = st_studentId s
    /\ (NoDup (map st_studentId (students w)) -> resolved = s)
    /\ let attendance := {| att_id := N.succ (attendance_seq w);
                            att_date := clock w;
                            att_status := ID_Match;
                            att_studentId := st_id resolved |} in
       POST toLowerCase (Some file) w
       = (Success attendance ID_Match resolved ocrResult,
          with_attendance attendance
            (with_calls [CallFindFirst (st_studentId s);
                         CallCreate (st_id resolved) ID_Match (clock w)] w)).
Proof.
  intros Hocr Hconf Hid Hne Hin Hff Hcr.
  destruct (find_present_studentId _ _ Hin) as [resolved Hfind].
  exists resolved.
  destruct (find_some_In _ _ Hfind) as [Hin' Hsid].
  split; [assumption|]. split; [assumption|]. split.
  - intros Hnd. rewrite find_unique_studentId in Hfind by assumption. congruence.
  - intros attendance.
    rewrite POST_accepted with (ocrResult := ocrResult) by assumption.
    unfold try_catch, resolveStudent, bind.
    rewrite identifierMatch_found with (sid := st_studentId s) (s := resolved)
      by (assumption || (rewrite Hid; apply truthy_nonempty; assumption)).
    rewrite nameMatch_skipped by reflexivity.
    rewrite recordAttendance_some by assumption.
    reflexivity.
Qed.

Lemma identifier_match_wins_witness :
  exists resolved,
    In resolved roster3
    /\ st_studentId resolved = lit "W"
    /\ (NoDup (map st_studentId roster3) -> resolved = mkStudent 3 "W" "Le Van")
    /\ let attendance := {| att_id := 1; att_date := 1700000000;
                            att_status := ID_Match;
                            att_studentId := st_id resolved |} in
       POST toLowerCase_ascii (Some aFile) worldById
       = (Success attendance ID_Match resolved ocrById,
          with_attendance attendance
            (with_calls [CallFindFirst (lit "W");
                         CallCreate (st_id resolved) ID_Match 1700000000]
               worldById)).
Proof.
  apply (identifier_match_wins toLowerCase_ascii worldById aFile
           (ocrResult := ocrById) (mkStudent 3 "W" "Le Van")).
  - reflexivity.
  - unfold Qle; simpl; lia.
  - reflexivity.
  - discriminate.
  - simpl; auto.
  - reflexivity.
  - reflexivity.
Defined.

(** The student resolved by identifier on the sample roster scores lower
    by name than the first two students. *)
Example identifier_match_ignores_names :
  fst (POST toLowerCase_ascii (Some aFile) worldById)
  = Success {| att_id := 1; att_date := 1700000000; att_status := ID_Match;
               att_studentId := 3 |}
      ID_Match (mkStudent 3 "W" "Le Van") ocrById
  /\ prisma_calls (snd (POST toLowerCase_ascii (Some aFile) worldById))
     = [CallFindFirst (lit "W"); CallCreate 3 ID_Match 1700000000].
Proof. split; vm_compute; reflexivity. Qed.

(** C2: when the name matching runs (nobody resolved by identifier, a
    non-empty [student_name], confidence at least 75), every student of the
    roster is scored against [student_name]; the handler resolves, as
    [Name_Match], the student whose score is the highest and at least 0.7,
    the first one of the roster among those with that score; when no
    student reaches 0.7 the answer is that no student was found. *)
Theorem name_match_selects_best (toLowerCase : jsstring -> jsstring)
  (w : World) (file : File) (ocrResult : OCRResult) (name : jsstring) :
  ocr_service w file = ResponseOk ocrResult ->
  (75 <= confidence ocrResult)%Q ->
  identifierLookupFails w ocrResult ->
  truthy (student_name ocrResult) = Some name ->
  prisma_rejects w OpFindMany = None ->
  prisma_rejects w OpCreate = None ->
  (exists s,
      bestScoring toLowerCase (students w) name s
      /\ let attendance := {| att_id := N.succ (attendance_seq w);
                              att_date := clock w;
                              att_status := Name_Match;
                              att_studentId := st_id s |} in
         POST toLowerCase (Some file) w
         = (Success attendance Name_Match s ocrResult,
            with_attendance attendance
              (with_calls (identifierCalls ocrResult
                           ++ [CallFindMany;
                               CallCreate (st_id s) Name_Match (clock w)]) w)))
  \/ ((forall s, In s (students w) ->
         ge (nameScore toLowerCase name s) similarityThreshold = false)
      /\ POST toLowerCase (Some file) w
         = (StudentNotFound (student_id ocrResult) (student_name ocrResult)
              (confidence ocrResult) (ocr_text ocrResult),
            with_calls (identifierCalls ocrResult ++ [CallFindMany]) w)).
Proof.
  intros Hocr Hconf Hfails Hname Hfm Hcr.
  assert (Hguard : nameMatchGuard (fst (@None Student, NoMatchType)) ocrResult
                   = Some name)
    by (apply nameMatchGuard_Some; auto).
  destruct (with_calls_fields (identifierCalls ocrResult) w)
    as (Hst & Hatt & Hseq & Hclk & Hrej & Hcalls).
  rewrite POST_accepted with (ocrResult := ocrResult) by (assumption || lra).
  unfold try_catch, resolveStudent, bind.
  rewrite identifierMatch_fails by assumption.
  rewrite (@nameMatch_runs toLowerCase ocrResult _ name _ Hguard)
    by (rewrite Hrej; assumption).
  rewrite Hst.
  pose proof (scanRoster_selects toLowerCase name (students w)) as Hsel.
  destruct (fst (scanRoster toLowerCase (students w) name)) as [b|].
  - left. exists b. split; [assumption|].
    rewrite recordAttendance_some by (simpl; rewrite Hrej; assumption).
    rewrite with_calls_app. simpl. rewrite Hseq, Hclk. reflexivity.
  - right. split; [assumption|].
    rewrite recordAttendance_none, with_calls_app. reflexivity.
Qed.

Lemma name_match_selects_best_witness :
  (exists s,
      bestScoring toLowerCase_ascii roster3 (lit "Le Van C") s
      /\ let attendance := {| att_id := 1; att_date := 1700000000;
                              att_status := Name_Match;
                              att_studentId := st_id s |} in
         POST toLowerCase_ascii (Some aFile) worldByName
         = (Success attendance Name_Match s ocrByName,
            with_attendance attendance
              (with_calls ([CallFindFirst (lit "Y")]
                           ++ [CallFindMany;
                               CallCreate (st_id s) Name_Match 1700000000])
                 worldByName)))
  \/ ((forall s, In s roster3 ->
         ge (nameScore toLowerCase_ascii (lit "Le Van C") s) similarityThreshold
         = false)
      /\ POST toLowerCase_ascii (Some aFile) worldByName
         = (StudentNotFound (Some (lit "Y")) (Some (lit "Le Van C")) 80 (lit "raw"),
            with_calls ([CallFindFirst (lit "Y")] ++ [CallFindMany]) worldByName)).
Proof.
  apply (name_match_selects_best toLowerCase_ascii worldByName aFile
           (ocrResult := ocrByName) (name := lit "Le Van C")).
  - reflexivity.
  - unfold Qle; simpl; lia.
  - split; [reflexivity|].
    intros s [<-|[<-|[<-|[]]]]; discriminate.
  - reflexivity.
  - reflexivity.
  - reflexivity.
Defined.

(** On the sample roster two students score 1; the first one is recorded. *)
Example name_match_first_of_tied :
  fst (POST toLowerCase_ascii (Some aFile) worldByName)
  = Success {| att_id := 1; att_date := 1700000000; att_status := Name_Match;
               att_studentId := 1 |}
      Name_Match (mkStudent 1 "X" "Le Van C") ocrByName
  /\ map (nameScore toLowerCase_ascii (lit "Le Van C")) roster3
     = [Fin 1; Fin 1; Fin (2 # 3)].
Proof. split; vm_compute; reflexivity. Qed.

(** ** Every run of the handler *)

(** Either the handler answers before the matching and leaves the world as
    it was, or the two matching steps run and the answer follows from what
    they resolve. *)
Lemma POST_outcome (toLowerCase : jsstring -> jsstring)
  (file : option File) (w : World) :
  (snd (POST toLowerCase file w) = w
   /\ match fst (POST toLowerCase file w) with
      | Success _ _ _ _ => False
      | StudentNotFound _ _ _ _ => False
      | _ => True
      end)
  \/ exists f ocrResult calls res,
       file = Some f
       /\ ocr_service w f = ResponseOk ocrResult
       /\ (50 <= confidence ocrResult)%Q
       /\ resolveStudent toLowerCase ocrResult w = (res, with_calls calls w)
       /\ (forall c, In c calls ->
             c = CallFindMany \/ exists sid, c = CallFindFirst sid)
       /\ (In CallFindMany calls ->
           identifierLookupFails w ocrResult
           /\ exists name, truthy (student_name ocrResult) = Some name
                           /\ (75 <= confidence ocrResult)%Q)
       /\ match res with
          | Thrown e =>
              POST toLowerCase file w = (FailedToProcess e, with_calls calls w)
          | Returned (None, _) =>
              POST toLowerCase file w
              = (StudentNotFound (student_id ocrResult) (student_name ocrResult)
                   (confidence ocrResult) (ocr_text ocrResult),
                 with_calls calls w)
          | Returned (Some st, mt) =>
              In st (students w) /\ (mt = ID_Match \/ mt = Name_Match)
              /\ let create := CallCreate (st_id st) mt (clock w) in
                 let attendance := {| att_id := N.succ (attendance_seq w);
                                      att_date := clock w;
                                      att_status := mt;
                                      att_studentId := st_id st |} in
                 (prisma_rejects w OpCreate = None
                  /\ POST toLowerCase file w
                     = (Success attendance mt st ocrResult,
                        with_attendance attendance
                          (with_calls (calls ++ [create]) w)))
                 \/ (exists e,
                        prisma_rejects w OpCreate = Some e
                        /\ POST toLowerCase file w
                           = (FailedToProcess e, with_calls (calls ++ [create]) w))
          end.
Proof.
  destruct file as [f|]; [|left; split; [reflexivity | exact I]].
  destruct (ocr_service w f) as [e|errorText|ocrResult] eqn:Hocr;
    try (left; unfold POST, try_catch, bind, fetch_ocr; rewrite Hocr;
         split; [reflexivity | exact I]).
  destruct (Qltb (confidence ocrResult) 50) eqn:Hconf.
  - left. unfold POST, try_catch, bind, fetch_ocr. rewrite Hocr, Hconf.
    split; [reflexivity | exact I].
  - right. apply Qltb_false in Hconf.
    destruct (resolveStudent_outcome toLowerCase ocrResult w)
      as (calls & res & Hres & Hkinds & Hmany & Hwho).
    exists f, ocrResult, calls, res.
    repeat (split; [assumption || reflexivity|]).
    rewrite POST_accepted with (ocrResult := ocrResult) by assumption.
    unfold try_catch, bind. rewrite Hres.
    destruct (with_calls_fields calls w) as (Hst & Hatt & Hseq & Hclk & Hrej & Hcalls).
    destruct res as [[[st|] mt]|e]; [| reflexivity | reflexivity].
    destruct (Hwho st mt eq_refl) as [Hin Hmt].
    split; [assumption|]. split; [assumption|].
    destruct (prisma_rejects w OpCreate) as [e|] eqn:Hcr.
    + right. exists e. split; [reflexivity|].
      rewrite recordAttendance_rejected with (e := e) by (rewrite Hrej; assumption).
      rewrite with_calls_app, Hclk. reflexivity.
    + left. split; [reflexivity|].
      rewrite recordAttendance_some by (rewrite Hrej; assumption).
      rewrite with_calls_app. simpl. rewrite Hseq, Hclk. reflexivity.
Qed.

Lemma with_calls_new_calls (w : World) (calls extra : list PrismaCall) :
  prisma_calls (with_calls calls w) = prisma_calls w ++ extra -> extra = calls.
Proof.
  destruct (with_calls_fields calls w) as (_ & _ & _ & _ & _ & H).
  rewrite H. intros E. apply app_inv_head in E. congruence.
Qed.

(** C4, as stated, fails on an empty roster.  With nobody resolved by
    identifier, a name and confidence 80, the name matching is not
    skipped: the roster is read.  When that read is rejected the answer is
    the 500 failure, not that no student was found. *)
Lemma name_match_not_skipped_on_empty_roster :
  students worldEmptyRoster = []
  /\ prisma_calls (snd (POST toLowerCase_ascii (Some aFile) worldEmptyRoster))
     = [CallFindFirst (lit "Y"); CallFindMany]
  /\ students worldEmptyRosterDbDown = []
  /\ POST toLowerCase_ascii (Some aFile) worldEmptyRosterDbDown
     = (FailedToProcess (lit "database is locked"),
        with_calls [CallFindMany] worldEmptyRosterDbDown)
  /\ fst (POST toLowerCase_ascii (Some aFile) worldEmptyRosterDbDown)
     <> StudentNotFound (student_id ocrNameOnly) (student_name ocrNameOnly)
          (confidence ocrNameOnly) (ocr_text ocrNameOnly).
Proof.
  split; [reflexivity|]. split; [vm_compute; reflexivity|].
  split; [reflexivity|]. split; [vm_compute; reflexivity|].
  vm_compute. discriminate.
Qed.

(** C4, amended: the roster is read for the name matching only if nobody
    was resolved by identifier, [student_name] is non-empty and the
    confidence is at least 75.  When nobody is resolved by identifier and
    [student_name] is empty or the confidence is below 75, the step is
    skipped: the answer is that no student was found, with the raw OCR
    fields, after the identifier lookup alone, and nothing is recorded.
    An empty roster does not skip the step: when its condition holds the
    roster is read, no student is scored, and the answer is that no
    student was found with nothing recorded, or the 500 failure when the
    read is rejected. *)
Theorem name_match_attempted_only_if (toLowerCase : jsstring -> jsstring) :
  (forall file w calls,
      prisma_calls (snd (POST toLowerCase file w)) = prisma_calls w ++ calls ->
      In CallFindMany calls ->
      exists f ocrResult name,
        file = Some f
        /\ ocr_service w f = ResponseOk ocrResult
        /\ identifierLookupFails w ocrResult
        /\ truthy (student_name ocrResult) = Some name
        /\ (75 <= confidence ocrResult)%Q)
  /\ (forall w f ocrResult,
         ocr_service w f = ResponseOk ocrResult ->
         (50 <= confidence ocrResult)%Q ->
         identifierLookupFails w ocrResult ->
         let notFound :=
           StudentNotFound (student_id ocrResult) (student_name ocrResult)
             (confidence ocrResult) (ocr_text ocrResult) in
         (truthy (student_name ocrResult) = None
          \/ (confidence ocrResult < 75)%Q ->
          POST toLowerCase (Some f) w
          = (notFound, with_calls (identifierCalls ocrResult) w)
          /\ attendances (snd (POST toLowerCase (Some f) w)) = attendances w)
         /\ (forall name,
                truthy (student_name ocrResult) = Some name ->
                (75 <= confidence ocrResult)%Q ->
                students w = [] ->
                scanRoster toLowerCase (students w) name = (None, Fin 0)
                /\ attendances (snd (POST toLowerCase (Some f) w)) = attendances w
                /\ (prisma_rejects w OpFindMany = None ->
                    POST toLowerCase (Some f) w
                    = (notFound,
                       with_calls (identifierCalls ocrResult ++ [CallFindMany]) w))
                /\ (forall e,
                       prisma_rejects w OpFindMany = Some e ->
                       POST toLowerCase (Some f) w
                       = (FailedToProcess e,
                          with_calls (identifierCalls ocrResult ++ [CallFindMany])
                            w)))).
Proof.
  split.
  - intros file w calls Hcalls Hmany.
    destruct (POST_outcome toLowerCase file w)
      as [[Hw _]|(f & r & calls0 & res & -> & Hocr & Hconf & Hres & Hkinds & Hm & Hpost)].
    + rewrite Hw in Hcalls. rewrite <- (app_nil_r (prisma_calls w)) in Hcalls at 1.
      apply app_inv_head in Hcalls. subst calls. destruct Hmany.
    + assert (Hin : In CallFindMany calls0).
      { destruct res as [[[st|] mt]|e].
        - destruct Hpost as (_ & _ & [[_ E]|[e [_ E]]]);
            rewrite E in Hcalls; simpl snd in Hcalls.
          + change (prisma_calls (with_attendance ?a ?x)) with (prisma_calls x)
              in Hcalls.
            apply with_calls_new_calls in Hcalls. subst calls.
            apply in_app_iff in Hmany. destruct Hmany as [H|[H|[]]];
              [assumption | discriminate].
          + apply with_calls_new_calls in Hcalls. subst calls.
            apply in_app_iff in Hmany. destruct Hmany as [H|[H|[]]];
              [assumption | discriminate].
        - rewrite Hpost in Hcalls. apply with_calls_new_calls in Hcalls.
          congruence.
        - rewrite Hpost in Hcalls. apply with_calls_new_calls in Hcalls.
          congruence. }
      destruct (Hm Hin) as [Hfails [name [Hname H75]]].
      exists f, r, name. auto.
  - intros w f r Hocr Hconf Hfails notFound.
    destruct (with_calls_fields (identifierCalls r) w)
      as (Hst & Hatt & Hseq & Hclk & Hrej & Hcalls).
    destruct (with_calls_fields (identifierCalls r ++ [CallFindMany]) w)
      as (_ & Hatt' & _).
    assert (Hpost : POST toLowerCase (Some f) w
                    = match nameMatch toLowerCase r (None, NoMatchType)
                              (with_calls (identifierCalls r) w) with
                      | (Returned found, w') =>
                          try_catch (recordAttendance r found) w'
                      | (Thrown e, w') => (FailedToProcess e, w')
                      end).
    { rewrite POST_accepted with (ocrResult := r) by assumption.
      unfold try_catch, resolveStudent, bind.
      rewrite identifierMatch_fails by assumption.
      destruct (nameMatch toLowerCase r (None, NoMatchType)
                  (with_calls (identifierCalls r) w)) as [[found|e] w'];
        reflexivity. }
    split.
    + intros Hskip.
      assert (Hguard : nameMatchGuard (fst (@None Student, NoMatchType)) r = None).
      { unfold nameMatchGuard. simpl fst.
        destruct (truthy (student_name r)) as [name|]; [|reflexivity].
        destruct (Qle_bool 75 (confidence r)) eqn:E; [|reflexivity].
        apply Qle_bool_iff in E. destruct Hskip as [H|H]; [discriminate | lra]. }
      rewrite Hpost, nameMatch_skipped by assumption.
      split; [reflexivity | exact Hatt].
    + intros name Hname H75 Hempty.
      assert (Hguard : nameMatchGuard (fst (@None Student, NoMatchType)) r
                       = Some name)
        by (apply nameMatchGuard_Some; auto).
      assert (Hscan : scanRoster toLowerCase (students w) name = (None, Fin 0))
        by (rewrite Hempty; reflexivity).
      assert (Hok : prisma_rejects w OpFindMany = None ->
                    POST toLowerCase (Some f) w
                    = (notFound,
                       with_calls (identifierCalls r ++ [CallFindMany]) w)).
      { intros Hfm. rewrite Hpost.
        rewrite (@nameMatch_runs toLowerCase r _ name _ Hguard)
          by (rewrite Hrej; assumption).
        rewrite Hst, Hscan. simpl fst.
        rewrite with_calls_app. reflexivity. }
      assert (Hbad : forall e, prisma_rejects w OpFindMany = Some e ->
                     POST toLowerCase (Some f) w
                     = (FailedToProcess e,
                        with_calls (identifierCalls r ++ [CallFindMany]) w)).
      { intros e Hfm. rewrite Hpost. unfold nameMatch. rewrite Hguard.
        unfold bind, prisma_student_findMany, prisma. rewrite Hrej, Hfm.
        rewrite with_calls_app. reflexivity. }
      split; [exact Hscan|]. split; [|split; assumption].
      destruct (prisma_rejects w OpFindMany) as [e|] eqn:Hfm.
      * rewrite (Hbad e eq_refl). exact Hatt'.
      * rewrite (Hok eq_refl). exact Hatt'.
Qed.

Lemma name_match_attempted_only_if_witness :
  (exists f ocrResult name,
      Some aFile = Some f
      /\ ocr_service worldByName f = ResponseOk ocrResult
      /\ identifierLookupFails worldByName ocrResult
      /\ truthy (student_name ocrResult) = Some name
      /\ (75 <= confidence ocrResult)%Q)
  /\ (POST toLowerCase_ascii (Some aFile) worldMidConfidence
      = (StudentNotFound (Some (lit "Y")) (Some (lit "Le Van C")) 60 (lit "raw"),
         with_calls [CallFindFirst (lit "Y")] worldMidConfidence)
      /\ attendances (snd (POST toLowerCase_ascii (Some aFile) worldMidConfidence))
         = [])
  /\ POST toLowerCase_ascii (Some aFile) worldEmptyRoster
     = (StudentNotFound (Some (lit "Y")) (Some (lit "Le Van C")) 80 (lit "raw"),
        with_calls [CallFindFirst (lit "Y"); CallFindMany] worldEmptyRoster)
  /\ POST toLowerCase_ascii (Some aFile) worldEmptyRosterDbDown
     = (FailedToProcess (lit "database is locked"),
        with_calls [CallFindMany] worldEmptyRosterDbDown).
Proof.
  destruct (name_match_attempted_only_if toLowerCase_ascii) as [Honly Hskip].
  split; [|split; [|split]].
  - apply (Honly (Some aFile) worldByName
             [CallFindFirst (lit "Y"); CallFindMany;
              CallCreate 1 Name_Match 1700000000]).
    + reflexivity.
    + simpl; auto.
  - assert (Hfails : identifierLookupFails worldMidConfidence ocrMidConfidence).
    { split; [reflexivity|]. intros s [<-|[<-|[<-|[]]]]; discriminate. }
    assert (Hconf : (50 <= confidence ocrMidConfidence)%Q)
      by (unfold Qle; simpl; lia).
    destruct (Hskip worldMidConfidence aFile ocrMidConfidence eq_refl Hconf Hfails)
      as [Hmid _].
    apply Hmid. right. reflexivity.
  - assert (Hfails : identifierLookupFails worldEmptyRoster ocrByName).
    { split; [reflexivity|]. intros s []. }
    assert (Hconf : (50 <= confidence ocrByName)%Q)
      by (unfold Qle; simpl; lia).
    assert (H75 : (75 <= confidence ocrByName)%Q)
      by (unfold Qle; simpl; lia).
    destruct (Hskip worldEmptyRoster aFile ocrByName eq_refl Hconf Hfails)
      as [_ Hempty].
    destruct (Hempty (lit "Le Van C") eq_refl H75 eq_refl) as (_ & _ & Hread & _).
    apply (Hread eq_refl).
  - assert (Hconf : (50 <= confidence ocrNameOnly)%Q)
      by (unfold Qle; simpl; lia).
    assert (H75 : (75 <= confidence ocrNameOnly)%Q)
      by (unfold Qle; simpl; lia).
    destruct (Hskip worldEmptyRosterDbDown aFile ocrNameOnly eq_refl Hconf I)
      as [_ Hempty].
    destruct (Hempty (lit "C  van LE") eq_refl H75 eq_refl) as (_ & _ & _ & Hrej).
    apply (Hrej (lit "database is locked") eq_refl).
Defined.

(** C9: a run of the handler adds an attendance record exactly when it
    answers with success, and then adds exactly one, for the student the
    matching resolved, with status the match type ([ID_Match] or
    [Name_Match]) and the date read from the clock; on every other answer
    the table is unchanged.  When the matching resolves a student and the
    creation is not rejected, the answer is that success. *)
Theorem attendance_created_iff_resolved (toLowerCase : jsstring -> jsstring) :
  (forall file w,
      match fst (POST toLowerCase file w) with
      | Success attendance matchType student ocrResult =>
          attendances (snd (POST toLowerCase file w))
          = attendances w ++ [attendance]
          /\ att_studentId attendance = st_id student
          /\ att_status attendance = matchType
          /\ att_date attendance = clock w
          /\ (matchType = ID_Match \/ matchType = Name_Match)
          /\ In student (students w)
          /\ exists f w1,
               file = Some f
               /\ ocr_service w f = ResponseOk ocrResult
               /\ resolveStudent toLowerCase ocrResult w
                  = (Returned (Some student, matchType), w1)
      | _ => attendances (snd (POST toLowerCase file w)) = attendances w
      end)
  /\ (forall w f ocrResult student matchType w1,
         ocr_service w f = ResponseOk ocrResult ->
         (50 <= confidence ocrResult)%Q ->
         resolveStudent toLowerCase ocrResult w
         = (Returned (Some student, matchType), w1) ->
         prisma_rejects w OpCreate = None ->
         let attendance := {| att_id := N.succ (attendance_seq w);
                              att_date := clock w;
                              att_status := matchType;
                              att_studentId := st_id student |} in
         fst (POST toLowerCase (Some f) w)
         = Success attendance matchType student ocrResult
         /\ attendances (snd (POST toLowerCase (Some f) w))
            = attendances w ++ [attendance]).
Proof.
  split.
  - intros file w.
    destruct (POST_outcome toLowerCase file w)
      as [[Hw Hresp]|(f & r & calls & res & -> & Hocr & Hconf & Hres & _ & _ & Hpost)].
    + rewrite Hw. destruct (fst (POST toLowerCase file w));
        (reflexivity || contradiction).
    + destruct (with_calls_fields calls w) as (_ & Hatt & _).
      destruct res as [[[st|] mt]|e].
      * destruct Hpost as (Hin & Hmt & [[_ E]|[e [_ E]]]); rewrite E; simpl.
        -- destruct (with_calls_fields
                       (calls ++ [CallCreate (st_id st) mt (clock w)]) w)
             as (_ & Hatt' & _).
           rewrite Hatt'. repeat (split; [assumption || reflexivity|]).
           exists f, (with_calls calls w). auto.
        -- destruct (with_calls_fields
                       (calls ++ [CallCreate (st_id st) mt (clock w)]) w)
             as (_ & Hatt' & _).
           exact Hatt'.
      * rewrite Hpost. exact Hatt.
      * rewrite Hpost. exact Hatt.
  - intros w f r st mt w1 Hocr Hconf Hres Hcr attendance.
    destruct (resolveStudent_outcome toLowerCase r w) as (calls & res & Hres' & _).
    rewrite Hres in Hres'. injection Hres' as Hr Hw1.
    destruct (with_calls_fields calls w) as (_ & Hatt & Hseq & Hclk & Hrej & _).
    rewrite POST_accepted with (ocrResult := r) by assumption.
    unfold try_catch, bind. rewrite Hres.
    rewrite recordAttendance_some by (rewrite Hw1, Hrej; assumption).
    simpl. rewrite Hw1, Hseq, Hclk, Hatt. split; reflexivity.
Qed.

Lemma attendance_created_iff_resolved_witness :
  fst (POST toLowerCase_ascii (Some aFile) worldByName)
  = Success {| att_id := 1; att_date := 1700000000; att_status := Name_Match;
               att_studentId := 1 |}
      Name_Match (mkStudent 1 "X" "Le Van C") ocrByName
  /\ attendances (snd (POST toLowerCase_ascii (Some aFile) worldByName))
     = [{| att_id := 1; att_date := 1700000000; att_status := Name_Match;
           att_studentId := 1 |}].
Proof.
  destruct (attendance_created_iff_resolved toLowerCase_ascii) as [_ Hone].
  apply (Hone worldByName aFile ocrByName (mkStudent 1 "X" "Le Van C") Name_Match
           (with_calls [CallFindFirst (lit "Y"); CallFindMany] worldByName)).
  - reflexivity.
  - unfold Qle; simpl; lia.
  - vm_compute. reflexivity.
  - reflexivity.
Defined.

(** ** The scenarios of the specification, run on the handler *)

Example scenario_identifier :
  fst (POST toLowerCase_ascii (Some aFile)
         (mkWorld [mkStudent 1 "B21DCVT020" "Nguyen Van A"]
            (ResponseOk (mkOcr "B21DCVT020" "" 90))))
  = Success {| att_id := 1; att_date := 1700000000; att_status := ID_Match;
               att_studentId := 1 |}
      ID_Match (mkStudent 1 "B21DCVT020" "Nguyen Van A")
      (mkOcr "B21DCVT020" "" 90).
Proof. vm_compute. reflexivity. Qed.

Example scenario_name_reordered :
  fst (POST toLowerCase_ascii (Some aFile)
         (mkWorld [mkStudent 1 "X" "Tran Thi B"]
            (ResponseOk (mkOcr "" "Thi B Tran" 80))))
  = Success {| att_id := 1; att_date := 1700000000; att_status := Name_Match;
               att_studentId := 1 |}
      Name_Match (mkStudent 1 "X" "Tran Thi B") (mkOcr "" "Thi B Tran" 80).
Proof. vm_compute. reflexivity. Qed.

Example scenario_no_overlap :
  POST toLowerCase_ascii (Some aFile)
    (mkWorld roster1 (ResponseOk (mkOcr "" "Nobody Matching" 80)))
  = (StudentNotFound (Some []) (Some (lit "Nobody Matching")) 80 (lit "raw"),
     with_calls [CallFindMany]
       (mkWorld roster1 (ResponseOk (mkOcr "" "Nobody Matching" 80)))).
Proof. vm_compute. reflexivity. Qed.

(** A student whose name repeats a word is matched by a name that shares
    only that word: "Le Le" against "Le Van" scores 2/2, where the two word
    sets share one word of two. *)
Example repeated_word_reaches_threshold :
  calculateNameSimilarity toLowerCase_ascii (lit "Le Le") (lit "Le Van") = Fin 1
  /\ jaccardIndex toLowerCase_ascii (lit "Le Le") (lit "Le Van") = Fin (1 # 2)
  /\ fst (POST toLowerCase_ascii (Some aFile)
            (mkWorld [mkStudent 1 "X" "Le Le"]
               (ResponseOk (mkOcr "" "Le Van" 80))))
     = Success {| att_id := 1; att_date := 1700000000; att_status := Name_Match;
                  att_studentId := 1 |}
         Name_Match (mkStudent 1 "X" "Le Le") (mkOcr "" "Le Van" 80).
Proof. repeat split; vm_compute; reflexivity. Qed.

(** A roster name that is empty after normalisation is matched by an OCR
    name made of white space: both have the single empty word. *)
Example blank_names_match :
  calculateNameSimilarity toLowerCase_ascii (lit "") (lit "  ") = Fin 1.
Proof. vm_compute. reflexivity. Qed.

(** * Further properties of the attendance handler *)

(** ** The similarity, beyond the claims *)

Lemma nodup_length_le (l : list jsstring) :
  (length (nodup jsstring_eq_dec l) <= length l)%nat.
Proof.
  induction l as [|x l IH]; simpl; [lia|].
  destruct (in_dec jsstring_eq_dec x l); simpl; lia.
Qed.

Lemma nodup_length_NoDup (l : list jsstring) :
  length (nodup jsstring_eq_dec l) = length l -> NoDup l.
Proof.
  induction l as [|x l IH]; simpl; [constructor|].
  pose proof (nodup_length_le l) as Hle.
  destruct (in_dec jsstring_eq_dec x l); simpl; intros H; [lia|].
  constructor; [assumption | apply IH; lia].
Qed.

Lemma divide_eq_one (n d : nat) :
  (1 <= d)%nat -> divide n d = Fin 1 -> n = d.
Proof.
  intros Hd H. rewrite divide_Fin in H by assumption.
  assert (Hq : Qred (Z.of_nat n # Pos.of_nat d) = 1%Q) by (injection H; trivial).
  assert (E : (Z.of_nat n # Pos.of_nat d == 1)%Q)
    by (transitivity (Qred (Z.of_nat n # Pos.of_nat d));
        [symmetry; apply Qred_correct | rewrite Hq; reflexivity]).
  unfold Qeq in E. simpl in E. rewrite Zpos_of_nat in E by assumption. lia.
Qed.

Lemma divide_eq_zero (n d : nat) :
  (1 <= d)%nat -> divide n d = Fin 0 -> n = 0%nat.
Proof.
  intros Hd H. rewrite divide_Fin in H by assumption.
  assert (Hq : Qred (Z.of_nat n # Pos.of_nat d) = 0%Q) by (injection H; trivial).
  assert (E : (Z.of_nat n # Pos.of_nat d == 0)%Q)
    by (transitivity (Qred (Z.of_nat n # Pos.of_nat d));
        [symmetry; apply Qred_correct | rewrite Hq; reflexivity]).
  unfold Qeq in E. simpl in E. lia.
Qed.

Lemma divide_ge_one (n d : nat) :
  (1 <= d)%nat -> (d <= n)%nat -> ge (divide n d) (Fin 1) = true.
Proof.
  intros Hd Hn. rewrite divide_Fin by assumption.
  apply ge_Fin_true. rewrite Qred_correct.
  unfold Qle; simpl. rewrite Zpos_of_nat by assumption. lia.
Qed.

Section SimilarityMore.

Variable toLowerCase : jsstring -> jsstring.

Lemma intersectionOf_all (ws1 ws2 : list jsstring) :
  (forall x, In x ws1 -> In x ws2) -> intersectionOf ws1 ws2 = ws1.
Proof.
  intros H. unfold intersectionOf.
  induction ws1 as [|x ws1 IH]; [reflexivity|]. simpl.
  replace (includes ws2 x) with true
    by (symmetry; apply includes_In, H; simpl; auto).
  f_equal. apply IH. intros y Hy. apply H. simpl; auto.
Qed.

Lemma unionOf_same_words (ws1 ws2 : list jsstring) :
  (forall x, In x ws2 -> In x ws1) ->
  length (unionOf ws1 ws2) = length (nodup jsstring_eq_dec ws1).
Proof.
  intros H. unfold unionOf.
  rewrite <- Array_from_Set_length_nodup.
  apply Array_from_Set_length_ext. intros x. rewrite in_app_iff.
  split; [intros [Hx|Hx]; auto | auto].
Qed.

Lemma similarity_reordered (name1 name2 : jsstring) :
  Permutation (nameWords toLowerCase name1) (nameWords toLowerCase name2) ->
  calculateNameSimilarity toLowerCase name1 name2
  = divide (length (nameWords toLowerCase name1))
           (length (nodup jsstring_eq_dec (nameWords toLowerCase name1)))
  /\ (1 <= length (nodup jsstring_eq_dec (nameWords toLowerCase name1))
       <= length (nameWords toLowerCase name1))%nat.
Proof.
  intros Hperm. rewrite similarity_unfold.
  rewrite intersectionOf_all
    by (intros x Hx; apply Permutation_in with (1 := Hperm); assumption).
  rewrite unionOf_same_words
    by (intros x Hx; apply Permutation_in with (1 := Permutation_sym Hperm);
        assumption).
  split; [reflexivity|].
  pose proof (nameWords_length toLowerCase name1) as Hlen.
  pose proof (nodup_length_le (nameWords toLowerCase name1)) as Hle.
  split; [|assumption].
  destruct (nameWords toLowerCase name1) as [|x xs] eqn:E; [simpl in Hlen; lia|].
  assert (Hin : In x (nodup jsstring_eq_dec (x :: xs)))
    by (apply nodup_In; simpl; auto).
  destruct (nodup jsstring_eq_dec (x :: xs)); [destruct Hin | simpl; lia].
Qed.

Lemma similarity_reordered_ge_one (name1 name2 : jsstring) :
  Permutation (nameWords toLowerCase name1) (nameWords toLowerCase name2) ->
  ge (calculateNameSimilarity toLowerCase name1 name2) (Fin 1) = true.
Proof.
  intros Hperm. destruct (similarity_reordered _ _ Hperm) as [-> [Hd Hle]].
  apply divide_ge_one; assumption.
Qed.

(** The score of a name against a reordering of its own words is the
    number of its words over the number of its distinct words: at least 1,
    and exactly 1 when no word is repeated and only then. *)
Theorem similarity_of_reordered_name (name1 name2 : jsstring) :
  Permutation (nameWords toLowerCase name1) (nameWords toLowerCase name2) ->
  ge (calculateNameSimilarity toLowerCase name1 name2) (Fin 1) = true
  /\ (calculateNameSimilarity toLowerCase name1 name2 = Fin 1
      <-> NoDup (nameWords toLowerCase name1)).
Proof.
  intros Hperm. split; [apply similarity_reordered_ge_one, Hperm|].
  destruct (similarity_reordered _ _ Hperm) as [-> [Hd Hle]]. split.
  - intros H. apply nodup_length_NoDup. symmetry.
    apply divide_eq_one; assumption.
  - intros Hnd. rewrite nodup_fixed_point by assumption.
    apply divide_same. rewrite nodup_fixed_point in Hd by assumption. exact Hd.
Qed.

(** The score is 0 exactly when the two names share no word. *)
Theorem similarity_zero_iff_disjoint (name1 name2 : jsstring) :
  calculateNameSimilarity toLowerCase name1 name2 = Fin 0
  <-> forall x, In x (nameWords toLowerCase name1) ->
                ~ In x (nameWords toLowerCase name2).
Proof.
  rewrite similarity_unfold. split.
  - intros H x H1 H2.
    apply divide_eq_zero in H; [|apply unionOf_length].
    assert (Hin : In x (intersectionOf (nameWords toLowerCase name1)
                                       (nameWords toLowerCase name2)))
      by (apply filter_In; split; [assumption | apply includes_In; assumption]).
    destruct (intersectionOf _ _); [destruct Hin | discriminate].
  - intros H.
    replace (intersectionOf _ _) with (@nil jsstring).
    + apply divide_zero, unionOf_length.
    + symmetry. unfold intersectionOf.
      induction (nameWords toLowerCase name1) as [|x xs IH]; [reflexivity|].
      simpl. destruct (includes _ x) eqn:E.
      * apply includes_In in E. exfalso. apply (H x); simpl; auto.
      * apply IH. intros y Hy. apply H. simpl; auto.
Qed.

(** A word repeated in the second name has no effect: the score depends on
    the second name through the set of its words only. *)
Theorem similarity_second_name_as_set (name1 name2 name2' : jsstring) :
  (forall x, In x (nameWords toLowerCase name2)
             <-> In x (nameWords toLowerCase name2')) ->
  calculateNameSimilarity toLowerCase name1 name2
  = calculateNameSimilarity toLowerCase name1 name2'.
Proof.
  intros H. rewrite !similarity_unfold. f_equal.
  - unfold intersectionOf. f_equal. apply filter_ext. intros x.
    destruct (includes (nameWords toLowerCase name2') x) eqn:E.
    + apply includes_In. apply H. apply includes_In. assumption.
    + apply includes_false. apply includes_false in E. rewrite H. assumption.
  - apply Array_from_Set_length_ext. intros x. rewrite !in_app_iff, H. tauto.
Qed.

End SimilarityMore.

Lemma similarity_of_reordered_name_witness :
  ge (calculateNameSimilarity toLowerCase_ascii (lit "Tran Thi B") (lit "thi  b TRAN"))
     (Fin 1) = true
  /\ (calculateNameSimilarity toLowerCase_ascii (lit "Tran Thi B") (lit "thi  b TRAN")
      = Fin 1
      <-> NoDup (nameWords toLowerCase_ascii (lit "Tran Thi B"))).
Proof.
  apply similarity_of_reordered_name. vm_compute.
  match goal with
  | |- Permutation (?x :: ?l) _ => exact (Permutation_cons_append l x)
  end.
Defined.

Lemma similarity_second_name_as_set_witness :
  calculateNameSimilarity toLowerCase_ascii (lit "Le Van") (lit "van le le")
  = calculateNameSimilarity toLowerCase_ascii (lit "Le Van") (lit "le van").
Proof.
  apply similarity_second_name_as_set. vm_compute. intros x. tauto.
Defined.

Lemma similarity_jaccard_NoDup_witness :
  calculateNameSimilarity toLowerCase_ascii (lit "Le Van C") (lit "c c le")
  = jaccardIndex toLowerCase_ascii (lit "Le Van C") (lit "c c le")
  /\ inUnitRange (calculateNameSimilarity toLowerCase_ascii (lit "Le Van C")
                    (lit "c c le")) = true.
Proof.
  apply similarity_jaccard_NoDup. vm_compute.
  repeat constructor; simpl; intuition discriminate.
Defined.

Lemma similarity_sym_NoDup_witness :
  calculateNameSimilarity toLowerCase_ascii (lit "Le Van C") (lit "Tran Van")
  = calculateNameSimilarity toLowerCase_ascii (lit "Tran Van") (lit "Le Van C").
Proof.
  apply similarity_sym_NoDup; vm_compute;
    repeat constructor; simpl; intuition discriminate.
Defined.

(** ** The shape of a normalised name *)

Lemma isWhiteSpace_SPACE : isWhiteSpace SPACE = true.
Proof. reflexivity. Qed.

Lemma replaceRuns_wellSpaced (s : jsstring) (inRun : bool) :
  wellSpaced inRun (replaceRuns inRun s) = true.
Proof.
  revert inRun; induction s as [|c s IH]; intros inRun; [reflexivity|].
  simpl. destruct (isWhiteSpace c) eqn:E.
  - destruct inRun; [apply IH|]. simpl. rewrite IH. reflexivity.
  - simpl. rewrite E. apply IH.
Qed.

Lemma replaceRuns_length (s : jsstring) (inRun : bool) :
  (length (replaceRuns inRun s) <= length s)%nat.
Proof.
  revert inRun; induction s as [|c s IH]; intros inRun; simpl; [lia|].
  destruct (isWhiteSpace c); [destruct inRun|]; simpl;
    first [specialize (IH true); lia | specialize (IH false); lia].
Qed.

Lemma wellSpaced_replaceRuns (s : jsstring) (inRun : bool) :
  wellSpaced inRun s = true -> replaceRuns inRun s = s.
Proof.
  revert inRun; induction s as [|c s IH]; intros inRun; [reflexivity|].
  simpl. destruct (isWhiteSpace c) eqn:E.
  - rewrite !andb_true_iff, negb_true_iff. intros [[Hc ->] Hs].
    apply N.eqb_eq in Hc. subst c. f_equal. apply IH, Hs.
  - intros Hs. f_equal. apply IH, Hs.
Qed.

Lemma wellSpaced_weaken (s : jsstring) :
  wellSpaced true s = true -> wellSpaced false s = true.
Proof.
  destruct s as [|c s]; [reflexivity|]. simpl.
  destruct (isWhiteSpace c); [|trivial].
  rewrite andb_false_r. discriminate.
Qed.

Lemma wellSpaced_prefix (p t : jsstring) (b : bool) :
  wellSpaced b (p ++ t) = true -> wellSpaced b p = true.
Proof.
  revert b; induction p as [|c p IH]; intros b; [reflexivity|]. simpl.
  destruct (isWhiteSpace c).
  - rewrite !andb_true_iff. intros [H1 H2]. split; [assumption | eapply IH, H2].
  - apply IH.
Qed.

Lemma wellSpaced_trimStart (s : jsstring) :
  wellSpaced false s = true -> wellSpaced true (trimStart s) = true.
Proof.
  induction s as [|c s IH]; [reflexivity|]. simpl.
  destruct (isWhiteSpace c) eqn:E.
  - rewrite !andb_true_iff. intros [_ H]. apply IH, wellSpaced_weaken, H.
  - intros H. simpl. rewrite E. assumption.
Qed.

(** [trimEnd] by recursion from the front. *)
Lemma trimStart_snoc (a : jsstring) (c : codeunit) :
  trimStart (a ++ [c])
  = match trimStart a with
    | [] => if isWhiteSpace c then [] else [c]
    | _ :: _ => trimStart a ++ [c]
    end.
Proof.
  induction a as [|x a IH]; simpl; [destruct (isWhiteSpace c); reflexivity|].
  destruct (isWhiteSpace x); [exact IH | reflexivity].
Qed.

Lemma trimEnd_cons (c : codeunit) (s : jsstring) :
  trimEnd (c :: s)
  = match trimEnd s with
    | [] => if isWhiteSpace c then [] else [c]
    | _ :: _ => c :: trimEnd s
    end.
Proof.
  unfold trimEnd. simpl rev at 1. rewrite trimStart_snoc.
  destruct (trimStart (rev s)) as [|x u] eqn:E.
  - simpl. destruct (isWhiteSpace c); reflexivity.
  - rewrite rev_app_distr. simpl rev at 1. simpl.
    destruct (rev u ++ [x]) eqn:E'; [|reflexivity].
    destruct (rev u); discriminate.
Qed.

Lemma trimEnd_prefix (s : jsstring) : exists t, s = trimEnd s ++ t.
Proof.
  induction s as [|c s [t IH]]; [exists []; reflexivity|].
  rewrite trimEnd_cons. destruct (trimEnd s) as [|x u].
  - destruct (isWhiteSpace c); [exists (c :: s) | exists s]; reflexivity.
  - exists t. simpl. f_equal. exact IH.
Qed.

Lemma trimEnd_endsClean (s : jsstring) : endsClean (trimEnd s) = true.
Proof.
  induction s as [|c s IH]; [reflexivity|].
  rewrite trimEnd_cons. destruct (trimEnd s) as [|x u] eqn:E.
  - destruct (isWhiteSpace c) eqn:Ec; simpl; [reflexivity | rewrite Ec; reflexivity].
  - exact IH.
Qed.

Lemma trimEnd_fixed (s : jsstring) : endsClean s = true -> trimEnd s = s.
Proof.
  induction s as [|c s IH]; [reflexivity|]. intros H.
  rewrite trimEnd_cons. destruct s as [|d s].
  - simpl in *. destruct (isWhiteSpace c); [discriminate | reflexivity].
  - rewrite IH by exact H. reflexivity.
Qed.

Lemma trimEnd_head (c : codeunit) (s : jsstring) :
  isWhiteSpace c = false -> exists u, trimEnd (c :: s) = c :: u.
Proof.
  intros E. rewrite trimEnd_cons. rewrite E.
  destruct (trimEnd s); eauto.
Qed.

Lemma trimStart_head (s : jsstring) :
  match trimStart s with
  | [] => True
  | c :: _ => isWhiteSpace c = false
  end.
Proof.
  induction s as [|c s IH]; [exact I|]. simpl.
  destruct (isWhiteSpace c) eqn:E; [exact IH | exact E].
Qed.

Lemma trimStart_fixed (s : jsstring) :
  match s with [] => True | c :: _ => isWhiteSpace c = false end ->
  trimStart s = s.
Proof. destruct s as [|c s]; [reflexivity|]. simpl. intros ->. reflexivity. Qed.

(** The pieces of a split avoid the separator and keep the code units. *)
Lemma split_pieces (sep : codeunit) (s : jsstring) (w : jsstring) (c : codeunit) :
  In w (split sep s) -> In c w -> In c s /\ c <> sep.
Proof.
  revert w; induction s as [|x s IH]; intros w; simpl.
  - intros [<-|[]] [].
  - destruct (codeunit_eqb x sep) eqn:E.
    + intros [<-|Hw] Hc; [destruct Hc|].
      destruct (IH w Hw Hc). auto.
    + unfold codeunit_eqb in E. apply N.eqb_neq in E.
      destruct (split sep s) as [|w0 ws] eqn:Es.
      * intros [<-|[]] [<-|[]]. auto.
      * intros [<-|Hw] Hc.
        -- destruct Hc as [<-|Hc]; [auto|].
           destruct (IH w0 (or_introl eq_refl) Hc). auto.
        -- destruct (IH w (or_intror Hw) Hc). auto.
Qed.

Lemma wellSpaced_In (s : jsstring) (b : bool) (c : codeunit) :
  wellSpaced b s = true -> In c s -> isWhiteSpace c = true -> c = SPACE.
Proof.
  revert b; induction s as [|x s IH]; intros b; [intros _ []|]. simpl.
  destruct (isWhiteSpace x) eqn:E.
  - rewrite !andb_true_iff. intros [[Hx _] Hs] [<-|Hc] Hw.
    + apply N.eqb_eq in Hx. exact Hx.
    + eapply IH; eassumption.
  - intros Hs [<-|Hc] Hw; [congruence | eapply IH; eassumption].
Qed.

Lemma endsClean_tail (c : codeunit) (s : jsstring) :
  s <> [] -> endsClean (c :: s) = endsClean s.
Proof. destruct s; [congruence | reflexivity]. Qed.

(** In a well spaced string that ends clean, every piece between SPACEs
    after the first is non-empty, and so is the first when the string does
    not start with a SPACE. *)
Lemma split_wellSpaced (s : jsstring) (b : bool) :
  wellSpaced b s = true -> endsClean s = true ->
  Forall (fun w => w <> []) (tl (split SPACE s))
  /\ (b = true -> s <> [] -> hd [] (split SPACE s) <> []).
Proof.
  revert b; induction s as [|c s IH]; intros b Hw He.
  - simpl. split; [constructor | congruence].
  - simpl in Hw. simpl split. destruct (isWhiteSpace c) eqn:E.
    + apply andb_true_iff in Hw. destruct Hw as [Hw Hs].
      apply andb_true_iff in Hw. destruct Hw as [Hc Hb].
      rewrite Hc. simpl.
      assert (Hne : s <> []).
      { intros ->. simpl in He. rewrite E in He. discriminate. }
      rewrite endsClean_tail in He by assumption.
      destruct (IH true Hs He) as [Htl Hhd].
      split.
      * destruct (split SPACE s) as [|w ws] eqn:Es.
        -- constructor.
        -- constructor; [apply (Hhd eq_refl Hne) | exact Htl].
      * apply negb_true_iff in Hb. congruence.
    + assert (Hc : codeunit_eqb c SPACE = false).
      { unfold codeunit_eqb. apply N.eqb_neq. intros ->.
        rewrite isWhiteSpace_SPACE in E. discriminate. }
      rewrite Hc.
      assert (He' : endsClean s = true).
      { destruct s as [|d s]; [reflexivity | exact He]. }
      destruct (IH false Hw He') as [Htl _].
      destruct (split SPACE s) as [|w ws]; simpl; split;
        try constructor; try discriminate; auto.
Qed.

Section NormalForm.

Variable toLowerCase : jsstring -> jsstring.

Lemma normalize_shape (name : jsstring) :
  wellSpaced true (normalizeVietnameseName toLowerCase name) = true
  /\ endsClean (normalizeVietnameseName toLowerCase name) = true.
Proof.
  unfold normalizeVietnameseName, trim, replace_ws_plus_g.
  split; [|apply trimEnd_endsClean].
  pose proof (wellSpaced_trimStart _ (replaceRuns_wellSpaced (toLowerCase name) false))
    as Hw.
  pose proof (trimStart_head (replaceRuns false (toLowerCase name))) as Hh.
  destruct (trimStart (replaceRuns false (toLowerCase name))) as [|c u] eqn:E.
  - reflexivity.
  - destruct (trimEnd_prefix (c :: u)) as [t Ht].
    rewrite Ht in Hw. apply wellSpaced_prefix in Hw. exact Hw.
Qed.

Lemma normalize_fixed_points (name : jsstring) :
  replace_ws_plus_g (normalizeVietnameseName toLowerCase name)
  = normalizeVietnameseName toLowerCase name
  /\ trim (normalizeVietnameseName toLowerCase name)
     = normalizeVietnameseName toLowerCase name.
Proof.
  destruct (normalize_shape name) as [Hw He]. split.
  - apply wellSpaced_replaceRuns, wellSpaced_weaken, Hw.
  - unfold trim at 1. rewrite trimStart_fixed.
    + apply trimEnd_fixed, He.
    + destruct (normalizeVietnameseName toLowerCase name) as [|c u]; [exact I|].
      simpl in Hw. destruct (isWhiteSpace c); [|reflexivity].
      rewrite andb_false_r in Hw. discriminate.
Qed.

(** Normalising leaves single SPACEs between the words and no white space
    at either end: collapsing the white space again, or trimming again,
    changes nothing. *)
Theorem normalize_whitespace_fixed (name : jsstring) :
  replace_ws_plus_g (normalizeVietnameseName toLowerCase name)
  = normalizeVietnameseName toLowerCase name
  /\ trim (normalizeVietnameseName toLowerCase name)
     = normalizeVietnameseName toLowerCase name
  /\ forall c, In c (normalizeVietnameseName toLowerCase name) ->
               isWhiteSpace c = true -> c = SPACE.
Proof.
  destruct (normalize_fixed_points name) as [Hr Ht].
  split; [exact Hr|]. split; [exact Ht|].
  intros c. apply wellSpaced_In with (b := true).
  apply normalize_shape.
Qed.

(** The words of a name: a blank name has the single empty word; any other
    name has non-empty words only, free of white space. *)
Theorem nameWords_nonempty (name : jsstring) :
  (normalizeVietnameseName toLowerCase name = []
   /\ nameWords toLowerCase name = [[]])
  \/ (normalizeVietnameseName toLowerCase name <> []
      /\ Forall (fun w => w <> [] /\ forall c, In c w -> isWhiteSpace c = false)
           (nameWords toLowerCase name)).
Proof.
  destruct (normalize_shape name) as [Hw He]. unfold nameWords.
  destruct (normalizeVietnameseName toLowerCase name) as [|c u] eqn:E.
  - left. split; reflexivity.
  - right. split; [discriminate|].
    destruct (split_wellSpaced _ _ Hw He) as [Htl Hhd].
    assert (Hne : c :: u <> []) by discriminate.
    specialize (Hhd eq_refl Hne).
    apply Forall_forall. intros w Hin. split.
    + destruct (split SPACE (c :: u)) as [|w0 ws]; [destruct Hin|].
      destruct Hin as [<-|Hin]; [exact Hhd|].
      simpl in Htl. rewrite Forall_forall in Htl. apply Htl, Hin.
    + intros x Hx. destruct (split_pieces _ _ _ _ Hin Hx) as [Hxs Hsep].
      destruct (isWhiteSpace x) eqn:Ex; [|reflexivity].
      exfalso. apply Hsep. eapply wellSpaced_In; eassumption.
Qed.

(** Normalising twice is normalising once, for a [toLowerCase] that leaves
    the normalised name as it is. *)
Theorem normalize_idempotent (name : jsstring) :
  toLowerCase (normalizeVietnameseName toLowerCase name)
  = normalizeVietnameseName toLowerCase name ->
  normalizeVietnameseName toLowerCase (normalizeVietnameseName toLowerCase name)
  = normalizeVietnameseName toLowerCase name.
Proof.
  intros H. unfold normalizeVietnameseName at 1. rewrite H.
  destruct (normalize_fixed_points name) as [Hr Ht].
  rewrite Hr. exact Ht.
Qed.

End NormalForm.

Lemma normalize_idempotent_witness :
  normalizeVietnameseName toLowerCase_ascii
    (normalizeVietnameseName toLowerCase_ascii (lit "  NGUYEN   Van  a "))
  = normalizeVietnameseName toLowerCase_ascii (lit "  NGUYEN   Van  a ").
Proof. apply normalize_idempotent. reflexivity. Defined.

(** ** The handler, beyond the claims *)

Section HandlerMore.

Variable toLowerCase : jsstring -> jsstring.

(** The Prisma calls of the two matching steps: the identifier lookup, if
    any, then the roster read, if any. *)
Lemma resolveStudent_calls (ocrResult : OCRResult) (w : World) :
  exists many res,
    (many = [] \/ many = [CallFindMany])
    /\ resolveStudent toLowerCase ocrResult w
       = (res, with_calls (identifierCalls ocrResult ++ many) w).
Proof.
  unfold resolveStudent, identifierMatch, identifierCalls, bind.
  destruct (truthy (student_id ocrResult)) as [sid|].
  - unfold prisma_student_findFirst, prisma.
    destruct (prisma_rejects w OpFindFirst) as [e|].
    + exists [], (Thrown e). split; [auto | reflexivity].
    + unfold ret. cbv beta iota zeta.
      unfold nameMatch.
      destruct (nameMatchGuard _ ocrResult) as [name|].
      * unfold bind, prisma_student_findMany, prisma.
        change (prisma_rejects (with_call (CallFindFirst sid) w) OpFindMany)
          with (prisma_rejects w OpFindMany).
        destruct (prisma_rejects w OpFindMany) as [e|].
        -- exists [CallFindMany], (Thrown e). split; [auto | reflexivity].
        -- cbv beta iota zeta.
           destruct (fst (scanRoster toLowerCase _ name));
             eexists [CallFindMany], _; split; auto; reflexivity.
      * eexists [], _. split; [auto | reflexivity].
  - unfold ret, nameMatch.
    destruct (nameMatchGuard _ ocrResult) as [name|].
    + unfold bind, prisma_student_findMany, prisma.
      destruct (prisma_rejects w OpFindMany) as [e|].
      * exists [CallFindMany], (Thrown e). split; [auto | reflexivity].
      * cbv beta iota zeta.
        destruct (fst (scanRoster toLowerCase _ name));
          eexists [CallFindMany], _; split; auto; reflexivity.
    + eexists [], _. split; [auto | reflexivity].
Qed.

Lemma with_calls_inj (w : World) (cs ds : list PrismaCall) :
  with_calls cs w = with_calls ds w -> cs = ds.
Proof.
  intros H. apply (f_equal prisma_calls) in H.
  destruct (with_calls_fields cs w) as (_ & _ & _ & _ & _ & Hc).
  destruct (with_calls_fields ds w) as (_ & _ & _ & _ & _ & Hd).
  rewrite Hc, Hd in H. apply app_inv_head in H. exact H.
Qed.

(** Without an OCR result (no file in the request, a service that cannot
    be reached, an answer that is not ok) the handler answers with the
    matching failure and leaves the world as it was. *)
Theorem POST_without_ocr_result (file : option File) (w : World) :
  (forall f ocrResult, file = Some f -> ocr_service w f <> ResponseOk ocrResult) ->
  snd (POST toLowerCase file w) = w
  /\ fst (POST toLowerCase file w)
     = match file with
       | None => NoFileUploaded
       | Some f =>
           match ocr_service w f with
           | ResponseNotOk errorText => OCRServiceFailed errorText
           | FetchRejected e => FailedToProcess e
           | ResponseOk _ => NoFileUploaded
           end
       end.
Proof.
  intros H. destruct file as [f|]; [|split; reflexivity].
  unfold POST, try_catch, bind, fetch_ocr.
  destruct (ocr_service w f) as [e|errorText|r] eqn:E; try (split; reflexivity).
  exfalso. apply (H f r eq_refl). exact E.
Qed.

(** In one request the handler makes at most one identifier lookup, then
    at most one roster read, then at most one creation, dated by the
    clock; it adds at most one attendance record and never changes the
    students or the clock. *)
Theorem POST_prisma_calls (file : option File) (w : World) :
  students (snd (POST toLowerCase file w)) = students w
  /\ clock (snd (POST toLowerCase file w)) = clock w
  /\ exists lookup many create,
       prisma_calls (snd (POST toLowerCase file w))
       = prisma_calls w ++ lookup ++ many ++ create
       /\ (lookup = [] \/ exists sid, lookup = [CallFindFirst sid])
       /\ (many = [] \/ many = [CallFindMany])
       /\ (create = [] \/ exists id mt, create = [CallCreate id mt (clock w)])
       /\ (length (attendances w)
           <= length (attendances (snd (POST toLowerCase file w)))
           <= length (attendances w) + length create)%nat.
Proof.
  destruct (POST_outcome toLowerCase file w)
    as [[Hw _]|(f & r & calls & res & -> & Hocr & Hconf & Hres & _ & _ & Hpost)].
  - rewrite Hw. split; [reflexivity|]. split; [reflexivity|].
    exists [], [], []. rewrite !app_nil_r. simpl. repeat split; auto; lia.
  - destruct (resolveStudent_calls r w) as (many & res' & Hmany & Hres').
    rewrite Hres in Hres'. injection Hres' as _ Hcalls.
    apply with_calls_inj in Hcalls. subst calls.
    assert (Hlookup : identifierCalls r = []
                      \/ exists sid, identifierCalls r = [CallFindFirst sid]).
    { unfold identifierCalls. destruct (truthy (student_id r)); eauto. }
    destruct (with_calls_fields (identifierCalls r ++ many) w)
      as (Hst & Hatt & _ & Hclk & _ & Hcalls).
    destruct res as [[[st|] mt]|e].
    + destruct Hpost as (_ & _ & Hpost).
      destruct (with_calls_fields
                  ((identifierCalls r ++ many)
                   ++ [CallCreate (st_id st) mt (clock w)]) w)
        as (Hst' & Hatt' & _ & Hclk' & _ & Hcalls').
      destruct Hpost as [[_ E]|[e [_ E]]]; rewrite E; simpl;
        rewrite ?Hst', ?Hclk', ?Hatt', ?Hcalls';
        (split; [reflexivity|]); (split; [reflexivity|]);
        exists (identifierCalls r), many, [CallCreate (st_id st) mt (clock w)];
        rewrite <- !app_assoc; repeat split; eauto;
        rewrite ?length_app; simpl; lia.
    + rewrite Hpost. simpl. rewrite Hst, Hclk, Hatt, Hcalls.
      split; [reflexivity|]. split; [reflexivity|].
      exists (identifierCalls r), many, []. rewrite app_nil_r.
      repeat split; auto; simpl; lia.
    + rewrite Hpost. simpl. rewrite Hst, Hclk, Hatt, Hcalls.
      split; [reflexivity|]. split; [reflexivity|].
      exists (identifierCalls r), many, []. rewrite app_nil_r.
      repeat split; auto; simpl; lia.
Qed.

(** A rejected Prisma call ends the request: the answer is the failure
    with the message of the error, no later call is made and no attendance
    record is added, also when a student had been resolved. *)
Theorem prisma_rejection_fails_request (w : World) (file : File)
  (ocrResult : OCRResult) (e : jsstring) :
  ocr_service w file = ResponseOk ocrResult ->
  (50 <= confidence ocrResult)%Q ->
  (forall sid,
      truthy (student_id ocrResult) = Some sid ->
      prisma_rejects w OpFindFirst = Some e ->
      POST toLowerCase (Some file) w
      = (FailedToProcess e, with_calls [CallFindFirst sid] w))
  /\ (forall name,
         identifierLookupFails w ocrResult ->
         truthy (student_name ocrResult) = Some name ->
         (75 <= confidence ocrResult)%Q ->
         prisma_rejects w OpFindMany = Some e ->
         POST toLowerCase (Some file) w
         = (FailedToProcess e,
            with_calls (identifierCalls ocrResult ++ [CallFindMany]) w))
  /\ (forall student matchType w1,
         resolveStudent toLowerCase ocrResult w
         = (Returned (Some student, matchType), w1) ->
         prisma_rejects w OpCreate = Some e ->
         POST toLowerCase (Some file) w
         = (FailedToProcess e,
            with_call (CallCreate (st_id student) matchType (clock w)) w1)
         /\ attendances (snd (POST toLowerCase (Some file) w)) = attendances w).
Proof.
  intros Hocr Hconf.
  rewrite POST_accepted with (ocrResult := ocrResult) by assumption.
  unfold try_catch. split; [|split].
  - intros sid Hsid Hff.
    unfold bind, resolveStudent, identifierMatch, bind. rewrite Hsid.
    unfold prisma_student_findFirst, prisma. rewrite Hff. reflexivity.
  - intros name Hfails Hname H75 Hfm.
    assert (Hguard : nameMatchGuard (fst (@None Student, NoMatchType)) ocrResult
                     = Some name)
      by (apply nameMatchGuard_Some; auto).
    destruct (with_calls_fields (identifierCalls ocrResult) w)
      as (_ & _ & _ & _ & Hrej & _).
    unfold bind, resolveStudent, bind.
    rewrite identifierMatch_fails by assumption.
    unfold nameMatch. rewrite Hguard.
    unfold bind, prisma_student_findMany, prisma. rewrite Hrej, Hfm.
    rewrite with_calls_app. reflexivity.
  - intros st mt w1 Hres Hcr.
    destruct (resolveStudent_outcome toLowerCase ocrResult w)
      as (calls & res & Hres' & _).
    rewrite Hres in Hres'. injection Hres' as _ Hw1.
    destruct (with_calls_fields calls w) as (_ & Hatt & _ & Hclk & Hrej & _).
    unfold bind. rewrite Hres.
    rewrite recordAttendance_rejected with (e := e)
      by (rewrite Hw1, Hrej; assumption).
    simpl. rewrite Hw1, Hclk, Hatt. split; reflexivity.
Qed.

(** The answer of the handler once the name matching runs. *)
Lemma POST_name_step (w : World) (file : File) (ocrResult : OCRResult)
  (name : jsstring) :
  ocr_service w file = ResponseOk ocrResult ->
  (75 <= confidence ocrResult)%Q ->
  identifierLookupFails w ocrResult ->
  truthy (student_name ocrResult) = Some name ->
  prisma_rejects w OpFindMany = None ->
  prisma_rejects w OpCreate = None ->
  POST toLowerCase (Some file) w
  = match fst (scanRoster toLowerCase (students w) name) with
    | Some s =>
        let attendance := {| att_id := N.succ (attendance_seq w);
                             att_date := clock w;
                             att_status := Name_Match;
                             att_studentId := st_id s |} in
        (Success attendance Name_Match s ocrResult,
         with_attendance attendance
           (with_calls (identifierCalls ocrResult
                        ++ [CallFindMany;
                            CallCreate (st_id s) Name_Match (clock w)]) w))
    | None =>
        (StudentNotFound (student_id ocrResult) (student_name ocrResult)
           (confidence ocrResult) (ocr_text ocrResult),
         with_calls (identifierCalls ocrResult ++ [CallFindMany]) w)
    end.
Proof.
  intros Hocr Hconf Hfails Hname Hfm Hcr.
  assert (Hguard : nameMatchGuard (fst (@None Student, NoMatchType)) ocrResult
                   = Some name)
    by (apply nameMatchGuard_Some; auto).
  destruct (with_calls_fields (identifierCalls ocrResult) w)
    as (Hst & Hatt & Hseq & Hclk & Hrej & Hcalls).
  rewrite POST_accepted with (ocrResult := ocrResult) by (assumption || lra).
  unfold try_catch, resolveStudent, bind.
  rewrite identifierMatch_fails by assumption.
  rewrite (@nameMatch_runs toLowerCase ocrResult _ name _ Hguard)
    by (rewrite Hrej; assumption).
  rewrite Hst.
  destruct (fst (scanRoster toLowerCase (students w) name)) as [b|].
  - rewrite recordAttendance_some by (simpl; rewrite Hrej; assumption).
    rewrite with_calls_app. simpl. rewrite Hseq, Hclk. reflexivity.
  - rewrite recordAttendance_none, with_calls_app. reflexivity.
Qed.

(** When the name matching runs and the roster holds a student whose name
    has the words of the OCR name, in any order, the handler records a
    [Name_Match]: of that student or of one that scores as high and comes
    first in the roster; the recorded student scores at least 1. *)
Theorem same_words_name_is_matched (w : World) (file : File)
  (ocrResult : OCRResult) (name : jsstring) (s : Student) :
  ocr_service w file = ResponseOk ocrResult ->
  (75 <= confidence ocrResult)%Q ->
  identifierLookupFails w ocrResult ->
  truthy (student_name ocrResult) = Some name ->
  prisma_rejects w OpFindMany = None ->
  prisma_rejects w OpCreate = None ->
  In s (students w) ->
  Permutation (nameWords toLowerCase (st_name s)) (nameWords toLowerCase name) ->
  exists resolved attendance w',
    POST toLowerCase (Some file) w
    = (Success attendance Name_Match resolved ocrResult, w')
    /\ In resolved (students w)
    /\ ge (nameScore toLowerCase name resolved) (nameScore toLowerCase name s) = true
    /\ ge (nameScore toLowerCase name resolved) (Fin 1) = true
    /\ attendances w' = attendances w ++ [attendance]
    /\ att_studentId attendance = st_id resolved.
Proof.
  intros Hocr Hconf Hfails Hname Hfm Hcr Hin Hperm.
  rewrite POST_name_step with (ocrResult := ocrResult) (name := name)
    by assumption.
  pose proof (similarity_reordered_ge_one toLowerCase _ _ Hperm) as Hone.
  fold (nameScore toLowerCase name s) in Hone.
  pose proof (scanRoster_selects toLowerCase name (students w)) as Hsel.
  destruct (nameScore_Fin toLowerCase name s) as [qs [Hqs _]].
  destruct (fst (scanRoster toLowerCase (students w) name)) as [b|].
  - destruct (nameScore_Fin toLowerCase name b) as [qb [Hqb _]].
    assert (Hge : ge (nameScore toLowerCase name b) (nameScore toLowerCase name s)
                  = true).
    { destruct Hsel as (before & after & Hroster & _ & Hbefore & Hafter).
      rewrite Hroster in Hin. apply in_app_iff in Hin.
      destruct Hin as [Hin|[<-|Hin]].
      - specialize (Hbefore s Hin). rewrite Hqs, Hqb in *.
        apply gt_Fin_true in Hbefore. apply ge_Fin_true. lra.
      - rewrite Hqb. apply ge_Fin_true. lra.
      - apply Hafter, Hin. }
    eexists b, _, _. split; [reflexivity|].
    split; [eapply bestScoring_In; eassumption|].
    split; [assumption|]. split.
    + rewrite Hqs, Hqb in *. apply ge_Fin_true in Hge, Hone.
      apply ge_Fin_true. lra.
    + simpl.
      destruct (with_calls_fields
                  (identifierCalls ocrResult
                   ++ [CallFindMany; CallCreate (st_id b) Name_Match (clock w)]) w)
        as (_ & Hatt & _).
      rewrite Hatt. split; reflexivity.
  - exfalso. specialize (Hsel s Hin). rewrite Hqs in *.
    unfold similarityThreshold in Hsel.
    apply ge_Fin_false in Hsel. apply ge_Fin_true in Hone. lra.
Qed.

End HandlerMore.

Lemma POST_without_ocr_result_witness :
  snd (POST toLowerCase_ascii (Some aFile) worldOcrDown) = worldOcrDown
  /\ fst (POST toLowerCase_ascii (Some aFile) worldOcrDown)
     = OCRServiceFailed (lit "Internal Server Error").
Proof.
  apply (@POST_without_ocr_result toLowerCase_ascii (Some aFile) worldOcrDown).
  intros f r _. discriminate.
Defined.

Lemma prisma_rejection_fails_request_witness :
  POST toLowerCase_ascii (Some aFile) worldDbDown
  = (FailedToProcess (lit "database is locked"),
     with_calls [CallFindFirst (lit "Y")] worldDbDown)
  /\ POST toLowerCase_ascii (Some aFile) worldDbDownNameOnly
     = (FailedToProcess (lit "database is locked"),
        with_calls [CallFindMany] worldDbDownNameOnly)
  /\ attendances (snd (POST toLowerCase_ascii (Some aFile) worldCreateRejected))
     = [].
Proof.
  split; [|split].
  - assert (Hconf : (50 <= confidence ocrByName)%Q) by (unfold Qle; simpl; lia).
    destruct (@prisma_rejection_fails_request toLowerCase_ascii worldDbDown aFile
                ocrByName (lit "database is locked") eq_refl Hconf) as (H & _ & _).
    apply (H (lit "Y")); reflexivity.
  - assert (Hconf : (50 <= confidence ocrNameOnly)%Q) by (unfold Qle; simpl; lia).
    destruct (@prisma_rejection_fails_request toLowerCase_ascii worldDbDownNameOnly
                aFile ocrNameOnly (lit "database is locked") eq_refl Hconf)
      as (_ & H & _).
    apply (H (lit "C  van LE")).
    + exact I.
    + reflexivity.
    + unfold Qle; simpl; lia.
    + reflexivity.
  - assert (Hconf : (50 <= confidence ocrByName)%Q) by (unfold Qle; simpl; lia).
    destruct (@prisma_rejection_fails_request toLowerCase_ascii worldCreateRejected
                aFile ocrByName (lit "disk full") eq_refl Hconf) as (_ & _ & H).
    apply (H (mkStudent 1 "X" "Le Van C") Name_Match
             (with_calls [CallFindFirst (lit "Y"); CallFindMany] worldCreateRejected)).
    + vm_compute. reflexivity.
    + reflexivity.
Defined.

Lemma same_words_name_is_matched_witness :
  exists resolved attendance w',
    POST toLowerCase_ascii (Some aFile) worldNameOnly
    = (Success attendance Name_Match resolved ocrNameOnly, w')
    /\ In resolved roster3
    /\ ge (nameScore toLowerCase_ascii (lit "C  van LE") resolved)
          (nameScore toLowerCase_ascii (lit "C  van LE")
             (mkStudent 2 "Z" "Van C Le")) = true
    /\ ge (nameScore toLowerCase_ascii (lit "C  van LE") resolved) (Fin 1) = true
    /\ attendances w' = [] ++ [attendance]
    /\ att_studentId attendance = st_id resolved.
Proof.
  apply (@same_words_name_is_matched toLowerCase_ascii worldNameOnly aFile
           ocrNameOnly (lit "C  van LE") (mkStudent 2 "Z" "Van C Le")).
  - reflexivity.
  - unfold Qle; simpl; lia.
  - exact I.
  - reflexivity.
  - reflexivity.
  - reflexivity.
  - simpl; auto.
  - vm_compute. apply perm_swap.
Defined.

(** * The students route *)

Lemma existsb_studentId (roster : list Student) (sid : jsstring) :
  existsb (fun s => jsstring_eqb (st_studentId s) sid) roster = true
  <-> exists s, In s roster /\ st_studentId s = sid.
Proof.
  rewrite existsb_exists. split; intros [s [Hin H]]; exists s; split; auto;
    apply jsstring_eqb_eq; assumption.
Qed.

(** The outcomes of a registration.  A missing or empty property gives the
    400 answer before any access to the table; an identifier already in
    the table gives the 409 answer; any other rejection the 500 answer;
    in the three cases the table is unchanged.  Otherwise the student is
    appended with the next key and the three properties as given. *)
Theorem register_outcomes (json : Students.StudentJson) (r : Students.Registry) :
  (truthy (Students.json_studentId json) = None
   \/ truthy (Students.json_name json) = None
   \/ truthy (Students.json_class json) = None ->
   Students.POST (Students.Json json) r = (Students.MissingRequiredFields, r))
  /\ (forall studentId name class,
         truthy (Students.json_studentId json) = Some studentId ->
         truthy (Students.json_name json) = Some name ->
         truthy (Students.json_class json) = Some class ->
         (forall e, Students.student_create_rejects r = Some e ->
                    Students.POST (Students.Json json) r
                    = (Students.FailedToCreate, r))
         /\ (Students.student_create_rejects r = None ->
             (exists s, In s (students (Students.world r))
                        /\ st_studentId s = studentId) ->
             Students.POST (Students.Json json) r = (Students.StudentIdExists, r))
         /\ (Students.student_create_rejects r = None ->
             (forall s, In s (students (Students.world r)) ->
                        st_studentId s <> studentId) ->
             let student := {| st_id := N.succ (Students.student_seq r);
                               st_studentId := studentId;
                               st_name := name;
                               st_class := class |} in
             Students.POST (Students.Json json) r
             = (Students.Created student, Students.with_student student r))).
Proof.
  split.
  - unfold Students.POST.
    destruct (truthy (Students.json_studentId json));
      destruct (truthy (Students.json_name json));
      destruct (truthy (Students.json_class json));
      intros [H|[H|H]]; try discriminate; reflexivity.
  - intros sid name cls Hsid Hname Hcls.
    unfold Students.POST. rewrite Hsid, Hname, Hcls.
    unfold Students.prisma_student_create. split; [|split].
    + intros e ->. reflexivity.
    + intros -> Hex. apply existsb_studentId in Hex. rewrite Hex. reflexivity.
    + intros -> Hnone.
      destruct (existsb _ (students (Students.world r))) eqn:E; [|reflexivity].
      apply existsb_studentId in E. destruct E as [s [Hin Hs]].
      exfalso. exact (Hnone s Hin Hs).
Qed.

Lemma register_outcomes_witness :
  Students.POST
    (Students.Json {| Students.json_studentId := Some (lit "B21DCCN777");
                      Students.json_name := Some [];
                      Students.json_class := None |})
    (registry0 worldByName)
  = (Students.MissingRequiredFields, registry0 worldByName)
  /\ Students.POST
       (Students.Json {| Students.json_studentId := Some (lit "Z");
                         Students.json_name := Some (lit "Pham Thi D");
                         Students.json_class := Some (lit "D21CQCN01-B") |})
       (registry0 worldByName)
     = (Students.StudentIdExists, registry0 worldByName)
  /\ fst (Students.POST (Students.Json jsonNewStudent) (registry0 worldByName))
     = Students.Created {| st_id := 4; st_studentId := lit "B21DCCN777";
                           st_name := lit "Pham Thi D";
                           st_class := lit "D21CQCN01-B" |}.
Proof.
  split; [|split].
  - apply register_outcomes. right. left. reflexivity.
  - destruct (register_outcomes
                {| Students.json_studentId := Some (lit "Z");
                   Students.json_name := Some (lit "Pham Thi D");
                   Students.json_class := Some (lit "D21CQCN01-B") |}
                (registry0 worldByName)) as [_ H].
    destruct (H (lit "Z") (lit "Pham Thi D") (lit "D21CQCN01-B")
                eq_refl eq_refl eq_refl) as (_ & Hdup & _).
    apply Hdup; [reflexivity|].
    exists (mkStudent 2 "Z" "Van C Le"). split; [simpl; auto | reflexivity].
  - destruct (register_outcomes jsonNewStudent (registry0 worldByName)) as [_ H].
    destruct (H (lit "B21DCCN777") (lit "Pham Thi D") (lit "D21CQCN01-B")
                eq_refl eq_refl eq_refl) as (_ & _ & Hnew).
    rewrite Hnew; [reflexivity | reflexivity |].
    intros s [<-|[<-|[<-|[]]]]; discriminate.
Defined.

(** Every answer other than the creation leaves the registry as it was. *)
Lemma register_inversion (body : Students.Body) (r : Students.Registry) :
  (exists studentId name class json,
      body = Students.Json json
      /\ truthy (Students.json_studentId json) = Some studentId
      /\ truthy (Students.json_name json) = Some name
      /\ truthy (Students.json_class json) = Some class
      /\ (forall s, In s (students (Students.world r)) ->
                    st_studentId s <> studentId)
      /\ let student := {| st_id := N.succ (Students.student_seq r);
                           st_studentId := studentId;
                           st_name := name;
                           st_class := class |} in
         Students.POST body r
         = (Students.Created student, Students.with_student student r))
  \/ (snd (Students.POST body r) = r
      /\ forall s, fst (Students.POST body r) <> Students.Created s).
Proof.
  destruct body as [m|json]; [right; split; [reflexivity | discriminate]|].
  unfold Students.POST.
  destruct (truthy (Students.json_studentId json)) as [sid|] eqn:Hsid;
    [|right; split; [reflexivity | discriminate]].
  destruct (truthy (Students.json_name json)) as [name|] eqn:Hname;
    [|right; split; [reflexivity | discriminate]].
  destruct (truthy (Students.json_class json)) as [cls|] eqn:Hcls;
    [|right; split; [reflexivity | discriminate]].
  unfold Students.prisma_student_create.
  destruct (Students.student_create_rejects r);
    [right; split; [reflexivity | discriminate]|].
  destruct (existsb _ (students (Students.world r))) eqn:E;
    [right; split; [reflexivity | discriminate]|].
  left. exists sid, name, cls, json.
  split; [reflexivity|]. split; [assumption|]. split; [assumption|].
  split; [assumption|]. split; [|reflexivity].
  intros s Hin Hs.
  assert (existsb (fun s0 => jsstring_eqb (st_studentId s0) sid)
            (students (Students.world r)) = true)
    by (apply existsb_studentId; eauto).
  congruence.
Qed.

Lemma tableInvariant_POST (body : Students.Body) (r : Students.Registry) :
  Students.tableInvariant r ->
  Students.tableInvariant (snd (Students.POST body r)).
Proof.
  intros (Hsid & Hid & Hseq).
  destruct (register_inversion body r)
    as [(sid & name & cls & json & _ & _ & _ & _ & Hnew & E)|[E _]];
    [|rewrite E; repeat split; assumption].
  rewrite E. unfold Students.tableInvariant, Students.with_student. simpl.
  rewrite !map_app. simpl. split; [|split].
  - apply NoDup_app; [assumption | repeat constructor; simpl; tauto |].
    intros x Hx [<-|[]]. apply in_map_iff in Hx.
    destruct Hx as [s [Hs Hin]]. exact (Hnew s Hin Hs).
  - apply NoDup_app; [assumption | repeat constructor; simpl; tauto |].
    intros x Hx [<-|[]]. apply in_map_iff in Hx.
    destruct Hx as [s [Hs Hin]]. specialize (Hseq s Hin). lia.
  - intros s Hin. apply in_app_iff in Hin. destruct Hin as [Hin|[<-|[]]].
    + specialize (Hseq s Hin). lia.
    + simpl. lia.
Qed.

(** The registration keeps the table's invariant: identifiers and keys
    stay unique, and the keys stay below the sequence. *)
Theorem register_keeps_invariant (body : Students.Body) (r : Students.Registry) :
  Students.tableInvariant r ->
  Students.tableInvariant (snd (Students.POST body r)).
Proof. apply tableInvariant_POST. Qed.

Lemma register_keeps_invariant_witness :
  Students.tableInvariant
    (snd (Students.POST (Students.Json jsonNewStudent) (registry0 worldByName))).
Proof.
  apply register_keeps_invariant. split; [|split].
  - vm_compute. repeat constructor; simpl; intuition discriminate.
  - vm_compute. repeat constructor; simpl; intuition discriminate.
  - intros s [<-|[<-|[<-|[]]]]; vm_compute; discriminate.
Defined.

(** A student that was just registered is resolved by the attendance
    handler from the identifier, as [ID_Match], and recorded. *)
Theorem registered_student_is_matched (toLowerCase : jsstring -> jsstring)
  (json : Students.StudentJson) (r r' : Students.Registry) (student : Student)
  (file : File) (ocrResult : OCRResult) :
  Students.tableInvariant r ->
  Students.POST (Students.Json json) r = (Students.Created student, r') ->
  ocr_service (Students.world r') file = ResponseOk ocrResult ->
  (50 <= confidence ocrResult)%Q ->
  student_id ocrResult = Some (st_studentId student) ->
  prisma_rejects (Students.world r') OpFindFirst = None ->
  prisma_rejects (Students.world r') OpCreate = None ->
  exists attendance w',
    POST toLowerCase (Some file) (Students.world r')
    = (Success attendance ID_Match student ocrResult, w')
    /\ attendances w' = attendances (Students.world r) ++ [attendance]
    /\ att_studentId attendance = st_id student
    /\ att_status attendance = ID_Match.
Proof.
  intros Hinv Hpost Hocr Hconf Hid Hff Hcr.
  pose proof (@tableInvariant_POST (Students.Json json) r Hinv) as Hinv'.
  rewrite Hpost in Hinv'. simpl in Hinv'. destruct Hinv' as (Hnd & _ & _).
  destruct (register_inversion (Students.Json json) r)
    as [(sid & name & cls & json' & _ & Hsid & _ & _ & _ & E)|[_ Hno]];
    [|exfalso; apply (Hno student); rewrite Hpost; reflexivity].
  rewrite E in Hpost. injection Hpost as Hstudent Hr'.
  assert (Hin : In student (students (Students.world r')))
    by (rewrite <- Hr', <- Hstudent; simpl; apply in_app_iff; simpl; auto).
  assert (Hne : st_studentId student <> [])
    by (rewrite <- Hstudent; simpl; apply (truthy_Some _ Hsid)).
  rewrite POST_accepted with (ocrResult := ocrResult) by assumption.
  unfold try_catch, resolveStudent, bind.
  rewrite identifierMatch_found with (sid := st_studentId student) (s := student)
    by (assumption || (rewrite Hid; apply truthy_nonempty; assumption)
        || (apply find_unique_studentId; assumption)).
  rewrite nameMatch_skipped by reflexivity.
  rewrite recordAttendance_some by assumption.
  eexists _, _. split; [reflexivity|]. simpl.
  rewrite <- Hr'. simpl. repeat split; reflexivity.
Qed.

Lemma registered_student_is_matched_witness :
  exists attendance w',
    POST toLowerCase_ascii (Some aFile)
      (Students.world
         (snd (Students.POST (Students.Json jsonNewStudent)
                 (registry0 (mkWorld roster3
                               (ResponseOk (mkOcr "B21DCCN777" "" 60)))))))
    = (Success attendance ID_Match
         {| st_id := 4; st_studentId := lit "B21DCCN777";
            st_name := lit "Pham Thi D"; st_class := lit "D21CQCN01-B" |}
         (mkOcr "B21DCCN777" "" 60), w')
    /\ attendances w' = [] ++ [attendance]
    /\ att_studentId attendance = 4%N
    /\ att_status attendance = ID_Match.
Proof.
  apply (@registered_student_is_matched toLowerCase_ascii jsonNewStudent
           (registry0 (mkWorld roster3 (ResponseOk (mkOcr "B21DCCN777" "" 60))))
           (snd (Students.POST (Students.Json jsonNewStudent)
                   (registry0 (mkWorld roster3
                                 (ResponseOk (mkOcr "B21DCCN777" "" 60))))))
           {| st_id := 4; st_studentId := lit "B21DCCN777";
              st_name := lit "Pham Thi D"; st_class := lit "D21CQCN01-B" |}
           aFile (mkOcr "B21DCCN777" "" 60)).
  - split; [|split].
    + vm_compute. repeat constructor; simpl; intuition discriminate.
    + vm_compute. repeat constructor; simpl; intuition discriminate.
    + intros s [<-|[<-|[<-|[]]]]; vm_compute; discriminate.
  - reflexivity.
  - reflexivity.
  - unfold Qle; simpl; lia.
  - reflexivity.
  - reflexivity.
  - reflexivity.
Defined.

(** ** The list of students with their latest attendance *)

Lemma insertByDate_perm (a : Attendance) (l : list Attendance) :
  Permutation (Students.insertByDate a l) (a :: l).
Proof.
  induction l as [|b l IH]; simpl; [reflexivity|].
  destruct (N.leb (att_date b) (att_date a)); [reflexivity|].
  rewrite IH. apply perm_swap.
Qed.

Lemma sortByDateDesc_perm (l : list Attendance) :
  Permutation (Students.sortByDateDesc l) l.
Proof.
  induction l as [|a l IH]; simpl; [reflexivity|].
  rewrite insertByDate_perm. constructor. exact IH.
Qed.

Lemma insertByDate_decreasing (a : Attendance) (l : list Attendance) :
  decreasingDates l -> decreasingDates (Students.insertByDate a l).
Proof.
  induction l as [|b l IH]; simpl; [intros _; split; [intros ? []| exact I]|].
  intros [Hb Hl]. destruct (N.leb (att_date b) (att_date a)) eqn:E.
  - apply N.leb_le in E. simpl. split; [|split; assumption].
    intros c [<-|Hc]; [lia|]. specialize (Hb c Hc). lia.
  - apply N.leb_gt in E. simpl. split; [|apply IH, Hl].
    intros c Hc. apply (Permutation_in _ (insertByDate_perm a l)) in Hc.
    destruct Hc as [<-|Hc]; [lia | apply Hb, Hc].
Qed.

Lemma sortByDateDesc_decreasing (l : list Attendance) :
  decreasingDates (Students.sortByDateDesc l).
Proof.
  induction l as [|a l IH]; simpl; [exact I|].
  apply insertByDate_decreasing, IH.
Qed.


Section GetFacts.

Variable orderByDateDesc : list Attendance -> list Attendance.

Hypothesis orderBy_perm : forall l, Permutation (orderByDateDesc l) l.
Hypothesis orderBy_decreasing : forall l, decreasingDates (orderByDateDesc l).

Lemma includeAttendance_latest (w : World) (s : Student) :
  match Students.includeAttendance orderByDateDesc w s with
  | [] => forall a, In a (attendances w) -> att_studentId a <> st_id s
  | [a] => In a (attendances w)
           /\ att_studentId a = st_id s
           /\ forall b, In b (attendances w) -> att_studentId b = st_id s ->
                        (att_date b <= att_date a)%N
  | _ => False
  end.
Proof.
  unfold Students.includeAttendance.
  set (mine := filter (fun a => N.eqb (att_studentId a) (st_id s)) (attendances w)).
  pose proof (orderBy_perm mine) as Hperm.
  pose proof (orderBy_decreasing mine) as Hdec.
  assert (Hmine : forall a, In a mine <-> In a (attendances w)
                                          /\ att_studentId a = st_id s).
  { intros a. unfold mine. rewrite filter_In, N.eqb_eq. tauto. }
  destruct (orderByDateDesc mine) as [|a rest]; simpl.
  - intros a Hin Ha.
    assert (In a mine) as Hm by (apply Hmine; auto).
    apply (Permutation_in _ (Permutation_sym Hperm)) in Hm. destruct Hm.
  - assert (Ha : In a mine) by (apply (Permutation_in _ Hperm); simpl; auto).
    apply Hmine in Ha. destruct Ha as [Hin Hs]. split; [assumption|].
    split; [assumption|]. intros b Hb Hbs.
    assert (In b mine) as Hm by (apply Hmine; auto).
    apply (Permutation_in _ (Permutation_sym Hperm)) in Hm.
    destruct Hm as [<-|Hm]; [lia|]. destruct Hdec as [Hdec _]. apply Hdec, Hm.
Qed.

(** [GET] lists every student of the table, in the order of the table,
    each with at most one attendance record: a record of that student,
    none of whose records is later; with none when the student has no
    record.  When the read is rejected the answer is the 500 failure. *)
Theorem GET_lists_latest_attendance (w : World) :
  (prisma_rejects w OpFindMany = None ->
   exists rows,
     Students.GET orderByDateDesc w
     = (Students.Listed rows, with_call CallFindMany w)
     /\ map fst rows = students w
     /\ Forall (fun row =>
                  match snd row with
                  | [] => forall a, In a (attendances w) ->
                                    att_studentId a <> st_id (fst row)
                  | [a] => In a (attendances w)
                           /\ att_studentId a = st_id (fst row)
                           /\ forall b, In b (attendances w) ->
                                        att_studentId b = st_id (fst row) ->
                                        (att_date b <= att_date a)%N
                  | _ => False
                  end) rows)
  /\ (forall e, prisma_rejects w OpFindMany = Some e ->
                Students.GET orderByDateDesc w
                = (Students.FailedToFetch, with_call CallFindMany w)).
Proof.
  unfold Students.GET, prisma. split.
  - intros ->. eexists. split; [reflexivity|]. split.
    + rewrite map_map. simpl. apply map_id.
    + apply Forall_forall. intros [s l] Hrow. apply in_map_iff in Hrow.
      destruct Hrow as [s' [E _]]. injection E as -> <-. simpl.
      change (attendances (with_call CallFindMany w)) with (attendances w).
      pose proof (includeAttendance_latest w s) as H.
      unfold Students.includeAttendance in *.
      change (attendances (with_call CallFindMany w)) with (attendances w).
      exact H.
  - intros e ->. reflexivity.
Qed.


End GetFacts.

Lemma GET_lists_latest_attendance_witness :
  (exists rows,
      Students.GET Students.sortByDateDesc worldWithRecords
      = (Students.Listed rows, with_call CallFindMany worldWithRecords)
      /\ map fst rows = roster3
      /\ Forall (fun row =>
                   match snd row with
                   | [] => forall a, In a (attendances worldWithRecords) ->
                                     att_studentId a <> st_id (fst row)
                   | [a] => In a (attendances worldWithRecords)
                            /\ att_studentId a = st_id (fst row)
                            /\ forall b, In b (attendances worldWithRecords) ->
                                         att_studentId b = st_id (fst row) ->
                                         (att_date b <= att_date a)%N
                   | _ => False
                   end) rows)
  /\ Students.GET Students.sortByDateDesc worldWithRecords
     = (Students.Listed
          (combine roster3
             [[recordOf 3 1 300 Name_Match]; [recordOf 2 2 200 Name_Match]; []]),
        with_call CallFindMany worldWithRecords)
  /\ Students.GET Students.sortByDateDesc worldDbDown
     = (Students.FailedToFetch, with_call CallFindMany worldDbDown).
Proof.
  split; [|split].
  - apply (@GET_lists_latest_attendance Students.sortByDateDesc
             sortByDateDesc_perm sortByDateDesc_decreasing worldWithRecords).
    reflexivity.
  - vm_compute. reflexivity.
  - apply (@GET_lists_latest_attendance Students.sortByDateDesc
             sortByDateDesc_perm sortByDateDesc_decreasing worldDbDown)
      with (e := lit "database is locked").
    reflexivity.
Defined.


(** * The page *)

(** ** [textProcessors] *)

Lemma corrections_values (c r : codeunit) :
  textProcessors.corrections c = Some r ->
  In r [66; 68; 111; 79; 69; 49; 105; 65; 84; 67; 83; 71]%N.
Proof.
  intros H. unfold textProcessors.corrections in H.
  destruct c as [|p]; [discriminate|].
  do 12 (try (destruct p as [p|p|]; try discriminate H));
    injection H as <-; simpl; tauto.
Qed.

Lemma corrections_settled (c r : codeunit) :
  textProcessors.corrections c = Some r ->
  textProcessors.corrections r = None \/ r = 84%N.
Proof.
  intros H. apply corrections_values in H. simpl in H.
  repeat (destruct H as [<-|H]; [auto|]). destruct H.
Qed.

Lemma preprocessText_settled (text : jsstring) (c : codeunit) :
  In c (textProcessors.preprocessText text) ->
  textProcessors.corrections c = None \/ c = 84%N.
Proof.
  unfold textProcessors.preprocessText. rewrite in_map_iff.
  intros [x [Hx _]].
  destruct (textProcessors.corrections x) as [r|] eqn:E.
  - subst c. eapply corrections_settled, E.
  - subst c. auto.
Qed.

Lemma preprocessText_fixed (text : jsstring) :
  (forall c, In c text -> textProcessors.corrections c = None \/ c = 84%N) ->
  textProcessors.preprocessText text = text.
Proof.
  intros H. unfold textProcessors.preprocessText.
  rewrite <- (map_id text) at 2. apply map_ext_in. intros c Hc.
  destruct (H c Hc) as [->| ->]; reflexivity.
Qed.

(** [preprocessText] replaces code unit by code unit: the length is kept;
    no key of [corrections] other than 'T' is left (so no digit 0, 5, 6 or
    8, no 'l', no 'I'), and a second pass changes nothing. *)
Theorem preprocessText_replaces_lookalikes (text : jsstring) :
  length (textProcessors.preprocessText text) = length text
  /\ (forall c, In c (textProcessors.preprocessText text) ->
                textProcessors.corrections c = None \/ c = 84%N)
  /\ (forall c, In c (textProcessors.preprocessText text) ->
                ~ In c [48; 53; 54; 56; 108; 73]%N)
  /\ textProcessors.preprocessText (textProcessors.preprocessText text)
     = textProcessors.preprocessText text.
Proof.
  split; [apply length_map|]. split; [apply preprocessText_settled|]. split.
  - intros c Hc Hin. apply preprocessText_settled in Hc.
    simpl in Hin.
    repeat (destruct Hin as [<-|Hin]; [destruct Hc; discriminate|]).
    destruct Hin.
  - apply preprocessText_fixed, preprocessText_settled.
Qed.

(** *** Lines *)

Lemma split_no_sep (sep : codeunit) (s : jsstring) :
  ~ In sep s -> split sep s = [s].
Proof.
  induction s as [|c s IH]; intros H; [reflexivity|]. simpl.
  destruct (codeunit_eqb c sep) eqn:E.
  - unfold codeunit_eqb in E. apply N.eqb_eq in E. subst c.
    exfalso. apply H. simpl; auto.
  - rewrite IH; [reflexivity|]. intros Hin. apply H. simpl; auto.
Qed.

Lemma split_app_sep (sep : codeunit) (s rest : jsstring) :
  ~ In sep s -> split sep (s ++ sep :: rest) = s :: split sep rest.
Proof.
  induction s as [|c s IH]; intros H; simpl.
  - unfold codeunit_eqb. rewrite N.eqb_refl. reflexivity.
  - destruct (codeunit_eqb c sep) eqn:E.
    + unfold codeunit_eqb in E. apply N.eqb_eq in E. subst c.
      exfalso. apply H. simpl; auto.
    + rewrite IH; [reflexivity|]. intros Hin. apply H. simpl; auto.
Qed.

(** Splitting what was joined gives the lines back. *)
Lemma split_join (sep : codeunit) (lines : list jsstring) :
  lines <> [] ->
  (forall l, In l lines -> ~ In sep l) ->
  split sep (join sep lines) = lines.
Proof.
  induction lines as [|l lines IH]; intros Hne H; [congruence|].
  destruct lines as [|l2 lines].
  - simpl. apply split_no_sep, H. simpl; auto.
  - change (join sep (l :: l2 :: lines)) with (l ++ sep :: join sep (l2 :: lines)).
    rewrite split_app_sep by (apply H; simpl; auto).
    f_equal. apply IH; [discriminate|]. intros x Hx. apply H. simpl; auto.
Qed.

(** Joining what was split gives the string back. *)
Lemma join_split (sep : codeunit) (s : jsstring) : join sep (split sep s) = s.
Proof.
  induction s as [|c s IH]; [reflexivity|]. simpl.
  destruct (codeunit_eqb c sep) eqn:E.
  - unfold codeunit_eqb in E. apply N.eqb_eq in E. subst c.
    pose proof (split_length sep s) as Hlen.
    destruct (split sep s) as [|w ws] eqn:Es; [simpl in Hlen; lia|].
    change (join sep ([] :: w :: ws)) with ([] ++ sep :: join sep (w :: ws)).
    rewrite IH. reflexivity.
  - destruct (split sep s) as [|w ws] eqn:Es.
    + pose proof (split_length sep s) as Hlen. rewrite Es in Hlen.
      simpl in Hlen. lia.
    + destruct ws as [|w2 ws]; simpl in *; rewrite <- IH; reflexivity.
Qed.

Lemma join_In (sep : codeunit) (lines : list jsstring) (c : codeunit) :
  In c (join sep lines) -> c = sep \/ exists l, In l lines /\ In c l.
Proof.
  induction lines as [|l lines IH]; [intros []|].
  destruct lines as [|l2 lines].
  - simpl. intros H. right. exists l. auto.
  - change (join sep (l :: l2 :: lines)) with (l ++ sep :: join sep (l2 :: lines)).
    rewrite in_app_iff. intros [H|[H|H]].
    + right. exists l. simpl; auto.
    + auto.
    + destruct (IH H) as [E|[x [Hx Hc]]]; [auto|].
      right. exists x. simpl; auto.
Qed.

Lemma trimStart_suffix (s : jsstring) : exists a, s = a ++ trimStart s.
Proof.
  induction s as [|c s [a IH]]; [exists []; reflexivity|]. simpl.
  destruct (isWhiteSpace c); [|exists []; reflexivity].
  exists (c :: a). simpl. f_equal. exact IH.
Qed.

Lemma trim_In (s : jsstring) (c : codeunit) : In c (trim s) -> In c s.
Proof.
  unfold trim. intros H.
  destruct (trimEnd_prefix (trimStart s)) as [t Ht].
  destruct (trimStart_suffix s) as [a Ha].
  rewrite Ha, Ht. rewrite !in_app_iff. auto.
Qed.

Lemma trim_trim (s : jsstring) : trim (trim s) = trim s.
Proof.
  unfold trim at 1. rewrite trimStart_fixed.
  - apply trimEnd_fixed. unfold trim. apply trimEnd_endsClean.
  - unfold trim. pose proof (trimStart_head s) as H.
    destruct (trimStart s) as [|c u]; [exact I|].
    destruct (@trimEnd_head c u H) as [u' ->]. exact H.
Qed.

Lemma filter_fixed {A} (f : A -> bool) (l : list A) :
  (forall x, In x l -> f x = true) -> filter f l = l.
Proof.
  induction l as [|x l IH]; intros H; [reflexivity|]. simpl.
  rewrite (H x) by (simpl; auto). f_equal. apply IH.
  intros y Hy. apply H. simpl; auto.
Qed.

(** The lines [cleanOCRText] keeps. *)
Lemma cleanOCRText_unfold (text : jsstring) :
  text <> [] ->
  textProcessors.cleanOCRText text
  = join LF (filter textProcessors.keepLine
               (map trim (split LF (textProcessors.preprocessText text)))).
Proof. destruct text; [congruence | reflexivity]. Qed.

Lemma kept_lines (text : jsstring) (l : jsstring) :
  In l (filter textProcessors.keepLine
          (map trim (split LF (textProcessors.preprocessText text)))) ->
  trim l = l
  /\ textProcessors.keepLine l = true
  /\ ~ In LF l
  /\ forall c, In c l -> textProcessors.corrections c = None \/ c = 84%N.
Proof.
  intros H. apply filter_In in H. destruct H as [H Hkeep].
  apply in_map_iff in H. destruct H as [x [<- Hx]].
  split; [apply trim_trim|]. split; [assumption|]. split.
  - intros Hin. apply trim_In in Hin.
    destruct (split_pieces _ _ _ _ Hx Hin) as [_ Hne]. congruence.
  - intros c Hc. apply trim_In in Hc.
    destruct (split_pieces _ _ _ _ Hx Hc) as [Hin _].
    eapply preprocessText_settled, Hin.
Qed.

(** The text [cleanOCRText] returns is empty or made of lines that are
    trimmed, at least two code units long and hold a letter or a digit of
    the accepted ranges; no blank line is left. *)
Theorem cleanOCRText_lines (text : jsstring) :
  textProcessors.cleanOCRText text = []
  \/ Forall (fun line =>
               trim line = line
               /\ (2 <= length line)%nat
               /\ exists c, In c line /\ textProcessors.validChars c = true)
       (split LF (textProcessors.cleanOCRText text)).
Proof.
  destruct text as [|c0 text]; [left; reflexivity|].
  rewrite cleanOCRText_unfold by discriminate.
  set (lines := filter textProcessors.keepLine
                  (map trim (split LF (textProcessors.preprocessText (c0 :: text))))).
  destruct lines as [|l ls] eqn:E; [left; reflexivity|]. right.
  rewrite split_join.
  - apply Forall_forall. intros x Hx. rewrite <- E in Hx.
    destruct (kept_lines _ _ Hx) as (Ht & Hk & _).
    unfold textProcessors.keepLine in Hk. apply andb_true_iff in Hk.
    destruct Hk as [Hlen Hvalid]. apply Nat.leb_le in Hlen.
    apply existsb_exists in Hvalid. auto.
  - discriminate.
  - intros x Hx. rewrite <- E in Hx. apply (kept_lines _ _ Hx).
Qed.

(** Cleaning a cleaned text changes nothing. *)
Theorem cleanOCRText_idempotent (text : jsstring) :
  textProcessors.cleanOCRText (textProcessors.cleanOCRText text)
  = textProcessors.cleanOCRText text.
Proof.
  destruct text as [|c0 text]; [reflexivity|].
  rewrite (cleanOCRText_unfold (text := c0 :: text)) by discriminate.
  set (lines := filter textProcessors.keepLine
                  (map trim (split LF (textProcessors.preprocessText (c0 :: text))))).
  assert (Hlines : forall l, In l lines ->
            trim l = l /\ textProcessors.keepLine l = true /\ ~ In LF l
            /\ forall c, In c l -> textProcessors.corrections c = None \/ c = 84%N)
    by (intros l; apply kept_lines).
  destruct lines as [|l ls] eqn:E; [reflexivity|]. rewrite <- E in *.
  assert (Hne : lines <> []) by (rewrite E; discriminate).
  destruct (join LF lines) as [|c1 rest] eqn:Ej.
  - reflexivity.
  - rewrite <- Ej. rewrite cleanOCRText_unfold by (rewrite Ej; discriminate).
    rewrite preprocessText_fixed.
    + rewrite split_join by (assumption || (intros x Hx; apply (Hlines x Hx))).
      assert (Htrim : map trim lines = lines).
      { rewrite <- (map_id lines) at 2. apply map_ext_in.
        intros x Hx. apply (Hlines x Hx). }
      rewrite Htrim, filter_fixed; [reflexivity|].
      intros x Hx. apply (Hlines x Hx).
    + intros c Hc. apply join_In in Hc. destruct Hc as [->|[x [Hx Hc]]].
      * left. reflexivity.
      * apply (Hlines x Hx), Hc.
Qed.

(** ** [fetchWithRetry] *)

Lemma delays_snoc (k : nat) :
  delays (S k) = delays k ++ [(1000 * (N.of_nat k + 1))%N].
Proof. unfold delays. rewrite seq_S, map_app. reflexivity. Qed.

Section RetryFacts.

Variable R : Type.
Variable answers : nat -> FetchResult R.

(** The loop on the scripted server, entered at round [i] after the delays
    of the rounds before. *)
Lemma retryLoop_succeeds (retries d i : nat) (response : R) (status : N) :
  (i + d < retries)%nat ->
  (forall j, (i <= j < i + d)%nat -> isOk (answers j) = false) ->
  answers (i + d) = Responded true status response ->
  retryLoop (scripted answers) retries i (retries - i) i (delays i)
  = (inr response, S (i + d), delays (i + d)).
Proof.
  revert i. induction d as [|d IH]; intros i Hlt Hfail Hok.
  - rewrite Nat.add_0_r in *.
    destruct (retries - i)%nat as [|rem] eqn:E; [lia|].
    simpl. try unfold scripted at 1. rewrite Hok. reflexivity.
  - destruct (retries - i)%nat as [|rem] eqn:E; [lia|].
    simpl. try unfold scripted at 1.
    assert (Hi : isOk (answers i) = false) by (apply Hfail; lia).
    assert (Hneq : Nat.eqb i (retries - 1) = false) by (apply Nat.eqb_neq; lia).
    assert (Hrem : rem = (retries - S i)%nat) by lia.
    assert (Hnext : retryLoop (scripted answers) retries (S i) rem (S i)
                      (delays i ++ [(1000 * (N.of_nat i + 1))%N])
                    = (inr response, S (i + S d), delays (i + S d))).
    { rewrite <- delays_snoc, Hrem.
      replace (i + S d)%nat with (S i + d)%nat by lia.
      apply IH; [lia | intros j Hj; apply Hfail; lia |].
      replace (S i + d)%nat with (i + S d)%nat by lia. exact Hok. }
    destruct (answers i) as [[|] st resp|m]; simpl in Hi; try discriminate;
      rewrite Hneq; exact Hnext.
Qed.

Lemma retryLoop_fails (retries d i : nat) :
  (i + d = retries - 1)%nat -> (1 <= retries)%nat ->
  (forall j, (i <= j < retries)%nat -> isOk (answers j) = false) ->
  retryLoop (scripted answers) retries i (retries - i) i (delays i)
  = (inl (errorOf (answers (retries - 1))), retries, delays (retries - 1)).
Proof.
  revert i. induction d as [|d IH]; intros i Hlast Hpos Hfail.
  - rewrite Nat.add_0_r in Hlast. subst i.
    replace (retries - (retries - 1))%nat with 1%nat by lia.
    simpl. try unfold scripted at 1.
    assert (Hi : isOk (answers (retries - 1)) = false) by (apply Hfail; lia).
    rewrite Nat.eqb_refl.
    replace (S (retries - 1)) with retries by lia.
    destruct (answers (retries - 1)) as [[|] st resp|m]; simpl in Hi;
      try discriminate; reflexivity.
  - destruct (retries - i)%nat as [|rem] eqn:E; [lia|].
    simpl. try unfold scripted at 1.
    assert (Hi : isOk (answers i) = false) by (apply Hfail; lia).
    assert (Hneq : Nat.eqb i (retries - 1) = false) by (apply Nat.eqb_neq; lia).
    assert (Hrem : rem = (retries - S i)%nat) by lia.
    assert (Hnext : retryLoop (scripted answers) retries (S i) rem (S i)
                      (delays i ++ [(1000 * (N.of_nat i + 1))%N])
                    = (inl (errorOf (answers (retries - 1))), retries,
                       delays (retries - 1))).
    { rewrite <- delays_snoc, Hrem.
      apply IH; [lia | assumption | intros j Hj; apply Hfail; lia]. }
    destruct (answers i) as [[|] st resp|m]; simpl in Hi; try discriminate;
      rewrite Hneq; exact Hnext.
Qed.

(** [fetchWithRetry] returns the first response that is ok among the first
    [retries] answers, after as many requests as it took and a delay of
    1000 ms times the number of the failed attempt after each failure.
    When none of them is ok it throws the error of the last attempt, after
    [retries] requests and no delay after the last.  With no retries at
    all it throws 'Failed after retries' without a request. *)
Theorem fetchWithRetry_outcomes (retries : nat) :
  (forall k response status,
      (k < retries)%nat ->
      (forall j, (j < k)%nat -> isOk (answers j) = false) ->
      answers k = Responded true status response ->
      fetchWithRetry (scripted answers) retries 0%nat
      = (inr response, S k, delays k))
  /\ ((1 <= retries)%nat ->
      (forall j, (j < retries)%nat -> isOk (answers j) = false) ->
      fetchWithRetry (scripted answers) retries 0%nat
      = (inl (errorOf (answers (retries - 1))), retries, delays (retries - 1)))
  /\ (retries = 0%nat ->
      fetchWithRetry (scripted answers) retries 0%nat
      = (inl FailedAfterRetries, 0%nat, [])).
Proof.
  unfold fetchWithRetry. split; [|split].
  - intros k response status Hk Hfail Hok.
    pose proof (@retryLoop_succeeds retries k 0 response status) as H.
    rewrite Nat.sub_0_r in H. simpl in H. apply H; auto.
    intros j Hj. apply Hfail. lia.
  - intros Hpos Hfail.
    pose proof (@retryLoop_fails retries (retries - 1) 0) as H.
    rewrite Nat.sub_0_r in H. apply H; auto.
    intros j Hj. apply Hfail. lia.
  - intros ->. reflexivity.
Qed.

(** Whatever the answers, [fetchWithRetry] makes at most [retries]
    requests and waits at most 1000, 2000, ... ms between them: one delay
    less than it made requests. *)
Theorem fetchWithRetry_bounds (retries : nat) :
  exists requests,
    snd (fst (fetchWithRetry (scripted answers) retries 0%nat)) = requests
    /\ (requests <= retries)%nat
    /\ snd (fetchWithRetry (scripted answers) retries 0%nat)
       = delays (requests - 1).
Proof.
  destruct retries as [|n]; [exists 0%nat; repeat split; lia|].
  (* the first ok answer among the first [S n], if any *)
  assert (Hcases : (exists k, (k < S n)%nat
                              /\ (forall j, (j < k)%nat -> isOk (answers j) = false)
                              /\ isOk (answers k) = true)
                   \/ (forall j, (j < S n)%nat -> isOk (answers j) = false)).
  { induction (S n) as [|m IH]; [right; intros j Hj; lia|].
    destruct IH as [(k & Hk & Hf & Hok)|Hall].
    - left. exists k. repeat split; auto.
    - destruct (isOk (answers m)) eqn:E.
      + left. exists m. repeat split; auto.
      + right. intros j Hj. destruct (Nat.eq_dec j m) as [->|Hne]; [assumption|].
        apply Hall. lia. }
  destruct Hcases as [(k & Hk & Hf & Hok)|Hall].
  - destruct (answers k) as [[|] st resp|m] eqn:E; simpl in Hok; try discriminate.
    assert (H : fetchWithRetry (scripted answers) (S n) 0%nat
                = (inr resp, S k, delays k)).
    { unfold fetchWithRetry.
      pose proof (@retryLoop_succeeds (S n) k 0 resp st) as H.
      rewrite Nat.sub_0_r in H. apply H; auto.
      intros j Hj. apply Hf. lia. }
    exists (S k). rewrite H. simpl. rewrite Nat.sub_0_r. repeat split; lia.
  - assert (H : fetchWithRetry (scripted answers) (S n) 0%nat
                = (inl (errorOf (answers (S n - 1))), S n, delays (S n - 1))).
    { unfold fetchWithRetry.
      pose proof (@retryLoop_fails (S n) n 0) as H.
      rewrite Nat.sub_0_r in H. apply H; try lia.
      intros j Hj. apply Hall. lia. }
    exists (S n). rewrite H. simpl. repeat split; lia.
Qed.

End RetryFacts.

Lemma fetchWithRetry_outcomes_witness :
  fetchWithRetry (scripted flakyAnswers) 3 0%nat
  = (inr (lit "done"), 3%nat, [1000; 2000]%N)
  /\ fetchWithRetry (scripted failingAnswers) 3 0%nat
     = (inl (HttpError 502), 3%nat, [1000; 2000]%N)
  /\ fetchWithRetry (scripted flakyAnswers) 0 0%nat
     = (inl FailedAfterRetries, 0%nat, []).
Proof.
  split; [|split].
  - destruct (fetchWithRetry_outcomes flakyAnswers 3) as (H & _ & _).
    apply (H 2%nat (lit "done") 200%N).
    + lia.
    + intros [|[|j]] Hj; [reflexivity | reflexivity | lia].
    + reflexivity.
  - destruct (fetchWithRetry_outcomes failingAnswers 3) as (_ & H & _).
    apply H; [lia | reflexivity].
  - destruct (fetchWithRetry_outcomes flakyAnswers 0) as (_ & _ & H).
    apply H. reflexivity.
Defined.

(** ** The attendance request with retries *)

Lemma POST_attendances (toLowerCase : jsstring -> jsstring)
  (file : option File) (w : World) :
  match fst (POST toLowerCase file w) with
  | Success attendance _ _ _ =>
      attendances (snd (POST toLowerCase file w)) = attendances w ++ [attendance]
  | _ => attendances (snd (POST toLowerCase file w)) = attendances w
  end.
Proof.
  destruct (POST_outcome toLowerCase file w)
    as [[Hw Hresp]|(f & r & calls & res & _ & _ & _ & _ & _ & _ & Hpost)].
  - rewrite Hw. destruct (fst (POST toLowerCase file w));
      (reflexivity || contradiction).
  - destruct (with_calls_fields calls w) as (_ & Hatt & _).
    destruct res as [[[st|] mt]|e]; try (rewrite Hpost; exact Hatt).
    destruct (with_calls_fields (calls ++ [CallCreate (st_id st) mt (clock w)]) w)
      as (_ & Hatt' & _).
    destruct Hpost as (_ & _ & [[_ E]|[e [_ E]]]); rewrite E; simpl;
      rewrite Hatt'; reflexivity.
Qed.

Lemma retryLoop_step {Server R : Type} (fetch : Server -> FetchResult R * Server)
  (retries i remaining : nat) (server : Server) (slept : list N) :
  retryLoop fetch retries i (S remaining) server slept
  = let '(result, server') := fetch server in
    match result with
    | Responded true _ response => (inr response, server', slept)
    | Responded false status _ =>
        if Nat.eqb i (retries - 1) then (inl (HttpError status), server', slept)
        else retryLoop fetch retries (S i) remaining server'
               (slept ++ [1000 * (N.of_nat i + 1)])%N
    | Rejected message =>
        if Nat.eqb i (retries - 1) then (inl (FetchError message), server', slept)
        else retryLoop fetch retries (S i) remaining server'
               (slept ++ [1000 * (N.of_nat i + 1)])%N
    end.
Proof. reflexivity. Qed.

Lemma viaNetwork_step {Server Answer R : Type} (transport : nat -> Transport)
  (route : Server -> Answer * Server) (respond : Answer -> FetchResult R)
  (server : Server) (n : nat) :
  viaNetwork transport route respond (server, n)
  = match transport n with
    | Delivered => (respond (fst (route server)), (snd (route server), S n))
    | NotSent message => (Rejected message, (server, S n))
    | ReplyLost message => (Rejected message, (snd (route server), S n))
    end.
Proof.
  unfold viaNetwork. destruct (transport n); destruct (route server); reflexivity.
Qed.

Lemma retryLoop_attendance (toLowerCase : jsstring -> jsstring)
  (transport : nat -> Transport) (file : option File)
  (retries remaining i : nat) (w : World) (n : nat) (slept : list N) :
  (forall k e, transport k <> ReplyLost e) ->
  match retryLoop (fetchAttendance toLowerCase transport file) retries i remaining
          (w, n) slept with
  | (inr response, (w', _), _) =>
      exists attendance matchType student ocrResult,
        response = Success attendance matchType student ocrResult
        /\ attendances w' = attendances w ++ [attendance]
  | (inl _, (w', _), _) => attendances w' = attendances w
  end.
Proof.
  intros Hkept. revert i w n slept.
  induction remaining as [|rem IH]; intros i w n slept.
  - reflexivity.
  - rewrite retryLoop_step. unfold fetchAttendance at 1. rewrite viaNetwork_step.
    assert (Hretry :
              forall (err : RetryError) (w' : World),
                attendances w' = attendances w ->
                match (if Nat.eqb i (retries - 1)
                       then (@inl RetryError Response err, (w', S n), slept)
                       else retryLoop (fetchAttendance toLowerCase transport file)
                              retries (S i) rem (w', S n)
                              (slept ++ [(1000 * (N.of_nat i + 1))%N])) with
                | (inr r, (w'', _), _) =>
                    exists a mt st o, r = Success a mt st o
                                      /\ attendances w'' = attendances w ++ [a]
                | (inl _, (w'', _), _) => attendances w'' = attendances w
                end).
    { intros err w' Hw'. destruct (Nat.eqb i (retries - 1)); [exact Hw'|].
      rewrite <- Hw'. apply IH. }
    destruct (transport n) as [|e|e] eqn:Ht.
    + pose proof (POST_attendances toLowerCase file w) as Hatt.
      destruct (POST toLowerCase file w) as [response w'] eqn:E.
      simpl fst in *. simpl snd in *.
      destruct response; unfold respondAttendance; simpl;
        try (apply Hretry; exact Hatt).
      exists attendance, matchType, student, ocrResult. split; [reflexivity|].
      exact Hatt.
    + apply Hretry. reflexivity.
    + exfalso. apply (Hkept n e Ht).
Qed.

(** Sent with retries over a network that loses no reply, a request to
    the attendance handler adds at most one attendance record whatever
    the number of attempts: exactly one, that of the success answer, when
    a response is returned, and none when the call throws. *)
Theorem retried_attendance_records_once (toLowerCase : jsstring -> jsstring)
  (transport : nat -> Transport) (file : option File) (retries : nat)
  (w : World) :
  (forall n e, transport n <> ReplyLost e) ->
  match fetchWithRetry (fetchAttendance toLowerCase transport file) retries
          (w, 0%nat) with
  | (inr response, (w', _), _) =>
      exists attendance matchType student ocrResult,
        response = Success attendance matchType student ocrResult
        /\ attendances w' = attendances w ++ [attendance]
  | (inl _, (w', _), _) => attendances w' = attendances w
  end.
Proof. intros Hkept. apply retryLoop_attendance, Hkept. Qed.

Lemma retried_attendance_records_once_witness :
  match fetchWithRetry (fetchAttendance toLowerCase_ascii firstNotSent (Some aFile))
          3 (worldByName, 0%nat) with
  | (inr response, (w', _), _) =>
      exists attendance matchType student ocrResult,
        response = Success attendance matchType student ocrResult
        /\ attendances w' = attendances worldByName ++ [attendance]
  | (inl _, (w', _), _) => attendances w' = attendances worldByName
  end
  /\ snd (fetchWithRetry (fetchAttendance toLowerCase_ascii firstNotSent (Some aFile))
            3 (worldByName, 0%nat)) = [1000%N]
  /\ attendances
       (fst (snd (fst (fetchWithRetry
                         (fetchAttendance toLowerCase_ascii firstNotSent (Some aFile))
                         3 (worldByName, 0%nat)))))
     = [recordOf 1 1 1700000000 Name_Match].
Proof.
  split; [|split; vm_compute; reflexivity].
  apply (@retried_attendance_records_once toLowerCase_ascii firstNotSent
           (Some aFile) 3%nat worldByName).
  intros [|n] e; discriminate.
Defined.

(** When the reply to a request that was recorded is lost, the retry
    records the attendance a second time: the call returns the second
    record and the table holds both. *)
Example lost_reply_records_twice :
  fetchWithRetry (fetchAttendance toLowerCase_ascii firstReplyLost (Some aFile))
    3 (worldByName, 0%nat)
  = (inr (Success (recordOf 2 1 1700000000 Name_Match) Name_Match
            (mkStudent 1 "X" "Le Van C") ocrByName),
     (with_attendance (recordOf 2 1 1700000000 Name_Match)
        (with_calls [CallFindFirst (lit "Y"); CallFindMany;
                     CallCreate 1 Name_Match 1700000000]
           (with_attendance (recordOf 1 1 1700000000 Name_Match)
              (with_calls [CallFindFirst (lit "Y"); CallFindMany;
                           CallCreate 1 Name_Match 1700000000] worldByName))),
      2%nat),
     [1000%N])
  /\ attendances
       (fst (snd (fst (fetchWithRetry
                         (fetchAttendance toLowerCase_ascii firstReplyLost
                            (Some aFile))
                         3 (worldByName, 0%nat)))))
     = [recordOf 1 1 1700000000 Name_Match; recordOf 2 1 1700000000 Name_Match].
Proof. split; vm_compute; reflexivity. Qed.

(** ** The patterns of [validators] *)

Module RegexFacts.

Import Regex.

Lemma nullable_Matches (r : regex) : nullable r = true <-> Matches r [].
Proof.
  split.
  - induction r; simpl; intros H; try discriminate.
    + constructor.
    + apply andb_true_iff in H. destruct H as [H1 H2].
      apply (MSeq (IHr1 H1) (IHr2 H2)).
    + apply orb_true_iff in H. destruct H as [H|H];
        [apply MAltL | apply MAltR]; auto.
    + constructor.
  - intros H. remember (@nil codeunit) as s eqn:Es.
    induction H; simpl; try reflexivity; try discriminate.
    + apply app_eq_nil in Es. destruct Es as [-> ->].
      rewrite IHMatches1, IHMatches2 by reflexivity. reflexivity.
    + rewrite IHMatches by assumption. reflexivity.
    + rewrite IHMatches by assumption. apply orb_true_r.
Qed.

Lemma deriv_sound (c : codeunit) (r : regex) (s : jsstring) :
  Matches (deriv c r) s -> Matches r (c :: s).
Proof.
  revert s. induction r; simpl; intros s H.
  - inversion H.
  - inversion H.
  - destruct (p c) eqn:E; inversion H; subst. constructor. exact E.
  - destruct (nullable r1) eqn:E.
    + inversion H as [| | | ? ? ? H1 | ? ? ? H2 | |]; subst.
      * inversion H1 as [| |? ? s1 s2 Ha Hb| | | |]; subst.
        apply (MSeq (IHr1 _ Ha) Hb).
      * apply nullable_Matches in E.
        apply (MSeq E (IHr2 _ H2)).
    + inversion H as [| |? ? s1 s2 Ha Hb| | | |]; subst.
      apply (MSeq (IHr1 _ Ha) Hb).
  - inversion H; subst; [apply MAltL | apply MAltR]; auto.
  - inversion H as [| |? ? s1 s2 Ha Hb| | | |]; subst.
    apply (MStarCons (IHr _ Ha) Hb).
Qed.

Lemma deriv_complete (c : codeunit) (r : regex) (s : jsstring) :
  Matches r (c :: s) -> Matches (deriv c r) s.
Proof.
  intros H. remember (c :: s) as cs eqn:E. revert s E.
  induction H as [| p x Hp | r1 r2 s1 s2 H1 IH1 H2 IH2 | r1 r2 t H1 IH1
                  | r1 r2 t H2 IH2 | r | r t1 t2 H1 IH1 H2 IH2];
    intros s E; simpl; try discriminate.
  - injection E as -> <-. rewrite Hp. constructor.
  - destruct s1 as [|x s1].
    + simpl in E. subst s2.
      assert (Hn : nullable r1 = true) by (apply nullable_Matches; assumption).
      rewrite Hn. apply MAltR. apply IH2. reflexivity.
    + simpl in E. injection E as -> <-.
      destruct (nullable r1).
      * apply MAltL. apply MSeq; [apply IH1; reflexivity | assumption].
      * apply MSeq; [apply IH1; reflexivity | assumption].
  - apply MAltL. apply IH1, E.
  - apply MAltR. apply IH2, E.
  - destruct t1 as [|x t1].
    + simpl in E. apply IH2, E.
    + simpl in E. injection E as -> <-.
      apply MSeq; [apply IH1; reflexivity | assumption].
Qed.

(** [test] decides the language of the pattern. *)
Lemma test_Matches (r : regex) (s : jsstring) : test r s = true <-> Matches r s.
Proof.
  revert r. induction s as [|c s IH]; intros r; simpl.
  - apply nullable_Matches.
  - rewrite IH. split; [apply deriv_sound | apply deriv_complete].
Qed.

Lemma Matches_Class (p : codeunit -> bool) (s : jsstring) :
  Matches (Class p) s <-> exists c, s = [c] /\ p c = true.
Proof.
  split.
  - intros H. inversion H; subst. eauto.
  - intros [c [-> H]]. constructor. exact H.
Qed.

Lemma Matches_Seq (r1 r2 : regex) (s : jsstring) :
  Matches (Seq r1 r2) s
  <-> exists s1 s2, s = s1 ++ s2 /\ Matches r1 s1 /\ Matches r2 s2.
Proof.
  split.
  - intros H. inversion H; subst. eauto.
  - intros (s1 & s2 & -> & H1 & H2). constructor; assumption.
Qed.

Lemma Matches_Opt (r : regex) (s : jsstring) :
  Matches (Opt r) s <-> Matches r s \/ s = [].
Proof.
  unfold Opt. split.
  - intros H. inversion H as [| | |? ? ? H1|? ? ? H2| |]; subst; [auto|].
    inversion H2. auto.
  - intros [H| ->]; [apply MAltL; assumption | apply MAltR; constructor].
Qed.

Lemma Matches_Times_Class (n : nat) (p : codeunit -> bool) (s : jsstring) :
  Matches (Times n (Class p)) s <-> length s = n /\ forallb p s = true.
Proof.
  revert s. induction n as [|n IH]; intros s; simpl.
  - split.
    + intros H. inversion H. auto.
    + intros [H _]. destruct s; [constructor | discriminate].
  - rewrite Matches_Seq. split.
    + intros (s1 & s2 & -> & H1 & H2).
      apply Matches_Class in H1. destruct H1 as [c [-> Hc]].
      apply IH in H2. destruct H2 as [Hlen Hall].
      simpl. rewrite Hc, Hall, Hlen. auto.
    + intros [Hlen Hall]. destruct s as [|c s]; [discriminate|].
      simpl in *. apply andb_true_iff in Hall. destruct Hall as [Hc Hall].
      exists [c], s. split; [reflexivity|]. split.
      * apply Matches_Class. eauto.
      * apply IH. split; [lia | assumption].
Qed.

Lemma Matches_Times_Opt_Class (n : nat) (p : codeunit -> bool) (s : jsstring) :
  Matches (Times n (Opt (Class p))) s
  <-> (length s <= n)%nat /\ forallb p s = true.
Proof.
  revert s. induction n as [|n IH]; intros s; simpl.
  - split.
    + intros H. inversion H. simpl. auto.
    + intros [H _]. destruct s; [constructor | simpl in H; lia].
  - rewrite Matches_Seq. split.
    + intros (s1 & s2 & -> & H1 & H2).
      apply IH in H2. destruct H2 as [Hlen Hall].
      apply Matches_Opt in H1. destruct H1 as [H1| ->].
      * apply Matches_Class in H1. destruct H1 as [c [-> Hc]].
        simpl. rewrite Hc, Hall. split; [lia | reflexivity].
      * simpl. split; [lia | assumption].
    + intros [Hlen Hall]. destruct s as [|c s].
      * exists [], []. split; [reflexivity|]. split.
        -- apply Matches_Opt. auto.
        -- apply IH. simpl. split; [lia | reflexivity].
      * simpl in *. apply andb_true_iff in Hall. destruct Hall as [Hc Hall].
        exists [c], s. split; [reflexivity|]. split.
        -- apply Matches_Opt. left. apply Matches_Class. eauto.
        -- apply IH. split; [lia | assumption].
Qed.

Lemma forallb_app_iff (p : codeunit -> bool) (s1 s2 : jsstring) :
  forallb p (s1 ++ s2) = true <-> forallb p s1 = true /\ forallb p s2 = true.
Proof. rewrite forallb_app, andb_true_iff. reflexivity. Qed.

Lemma Matches_Range_Class (lo hi : nat) (p : codeunit -> bool) (s : jsstring) :
  (lo <= hi)%nat ->
  Matches (Range lo hi (Class p)) s
  <-> (lo <= length s <= hi)%nat /\ forallb p s = true.
Proof.
  intros Hle. unfold Range. rewrite Matches_Seq. split.
  - intros (s1 & s2 & -> & H1 & H2).
    apply Matches_Times_Class in H1. apply Matches_Times_Opt_Class in H2.
    destruct H1 as [L1 A1]. destruct H2 as [L2 A2].
    rewrite length_app, forallb_app, A1, A2. split; [lia | reflexivity].
  - intros [Hlen Hall].
    exists (firstn lo s), (skipn lo s).
    rewrite <- (firstn_skipn lo s) in Hall. apply forallb_app_iff in Hall.
    destruct Hall as [A1 A2].
    split; [symmetry; apply firstn_skipn|]. split.
    + apply Matches_Times_Class. split; [|assumption].
      apply firstn_length_le. lia.
    + apply Matches_Times_Opt_Class. split; [|assumption].
      rewrite length_skipn. lia.
Qed.

Lemma Matches_Star_Class (p : codeunit -> bool) (s : jsstring) :
  Matches (Star (Class p)) s <-> forallb p s = true.
Proof.
  split.
  - intros H. remember (Star (Class p)) as r eqn:E.
    induction H; try discriminate; [reflexivity|].
    injection E as ->. apply Matches_Class in H. destruct H as [c [-> Hc]].
    simpl. rewrite Hc. apply IHMatches2. reflexivity.
  - induction s as [|c s IH]; simpl; [constructor|].
    intros H. apply andb_true_iff in H. destruct H as [Hc Hall].
    apply (@MStarCons (Class p) [c] s); [constructor; assumption | auto].
Qed.

Lemma Matches_Plus_Class (p : codeunit -> bool) (s : jsstring) :
  Matches (Plus (Class p)) s <-> s <> [] /\ forallb p s = true.
Proof.
  unfold Plus. rewrite Matches_Seq. split.
  - intros (s1 & s2 & -> & H1 & H2).
    apply Matches_Class in H1. destruct H1 as [c [-> Hc]].
    apply Matches_Star_Class in H2. simpl. rewrite Hc, H2.
    split; [discriminate | reflexivity].
  - intros [Hne Hall]. destruct s as [|c s]; [congruence|].
    simpl in Hall. apply andb_true_iff in Hall. destruct Hall as [Hc Hall].
    exists [c], s. split; [reflexivity|]. split.
    + apply Matches_Class. eauto.
    + apply Matches_Star_Class. assumption.
Qed.

End RegexFacts.

Section ValidatorFacts.

Variable toUpperCase : jsstring -> jsstring.

(** [validators.studentId] accepts the identifiers whose upper case is one
    of B, D, C, L followed by eight to ten digits, and no other. *)
Theorem studentId_accepts (id : jsstring) :
  validators.studentId toUpperCase id = true
  <-> exists c digits,
        toUpperCase id = c :: digits
        /\ In c (lit "BDCL")
        /\ (8 <= length digits <= 10)%nat
        /\ forallb Regex.digit digits = true.
Proof.
  unfold validators.studentId, validators.studentIdPattern.
  rewrite RegexFacts.test_Matches, RegexFacts.Matches_Seq. split.
  - intros (s1 & s2 & E & H1 & H2).
    apply RegexFacts.Matches_Class in H1. destruct H1 as [c [-> Hc]].
    apply RegexFacts.Matches_Range_Class in H2; [|lia].
    exists c, s2. split; [exact E|]. split; [|exact H2].
    unfold Regex.oneOf in Hc. apply existsb_exists in Hc.
    destruct Hc as [x [Hx Heq]]. apply N.eqb_eq in Heq. subst. exact Hx.
  - intros (c & ds & E & Hc & Hlen & Hall).
    exists [c], ds. split; [exact E|]. split.
    + apply RegexFacts.Matches_Class. exists c. split; [reflexivity|].
      unfold Regex.oneOf. apply existsb_exists. exists c.
      split; [assumption | apply N.eqb_refl].
    + apply RegexFacts.Matches_Range_Class; [lia | auto].
Qed.

(** [validators.className] accepts the names whose upper case is one of
    E, D, C, L, two digits, one letter or more, two or three digits and,
    optionally, a hyphen and a letter (letters of either case), and no
    other. *)
Theorem className_accepts (name : jsstring) :
  validators.className toUpperCase name = true
  <-> exists c year letters number suffix,
        toUpperCase name = c :: year ++ letters ++ number ++ suffix
        /\ Regex.ignoreCase (Regex.oneOf (lit "EDCL")) c = true
        /\ length year = 2%nat /\ forallb Regex.digit year = true
        /\ letters <> []
        /\ forallb (Regex.ignoreCase Regex.upper) letters = true
        /\ (2 <= length number <= 3)%nat /\ forallb Regex.digit number = true
        /\ (suffix = []
            \/ exists letter,
                 suffix = [45%N; letter]
                 /\ Regex.ignoreCase Regex.upper letter = true).
Proof.
  unfold validators.className, validators.classNamePattern.
  rewrite RegexFacts.test_Matches. split.
  - intros H.
    apply RegexFacts.Matches_Seq in H. destruct H as (s1 & r1 & E1 & H1 & H).
    apply RegexFacts.Matches_Class in H1. destruct H1 as [c [-> Hc]].
    apply RegexFacts.Matches_Seq in H. destruct H as (year & r2 & -> & H2 & H).
    apply RegexFacts.Matches_Times_Class in H2. destruct H2 as [Hy1 Hy2].
    apply RegexFacts.Matches_Seq in H. destruct H as (letters & r3 & -> & H3 & H).
    apply RegexFacts.Matches_Plus_Class in H3. destruct H3 as [Hl1 Hl2].
    apply RegexFacts.Matches_Seq in H. destruct H as (number & suffix & -> & H4 & H).
    apply RegexFacts.Matches_Range_Class in H4; [|lia]. destruct H4 as [Hn1 Hn2].
    apply RegexFacts.Matches_Opt in H.
    exists c, year, letters, number, suffix.
    repeat (split; [assumption|]).
    destruct H as [H| ->]; [|auto]. right.
    apply RegexFacts.Matches_Seq in H. destruct H as (h & l & -> & Hh & Hl).
    apply RegexFacts.Matches_Class in Hh. destruct Hh as [x [-> Hx]].
    apply RegexFacts.Matches_Class in Hl. destruct Hl as [y [-> Hy]].
    exists y. split; [|assumption]. simpl. f_equal.
    unfold Regex.ignoreCase, Regex.oneOf in Hx. simpl in Hx.
    rewrite orb_false_r in Hx. apply N.eqb_eq in Hx.
    destruct ((97 <=? x) && (x <=? 122))%N eqn:E; [|assumption].
    apply andb_true_iff in E. destruct E as [E1' E2'].
    apply N.leb_le in E1'. lia.
  - intros (c & year & letters & number & suffix & E & Hc & Hy1 & Hy2 & Hl1 & Hl2
            & Hn1 & Hn2 & Hs).
    rewrite E.
    apply (@Regex.MSeq _ _ [c]); [constructor; assumption|].
    apply Regex.MSeq; [apply RegexFacts.Matches_Times_Class; auto|].
    apply Regex.MSeq; [apply RegexFacts.Matches_Plus_Class; auto|].
    apply Regex.MSeq; [apply RegexFacts.Matches_Range_Class; auto; lia|].
    apply RegexFacts.Matches_Opt.
    destruct Hs as [->|[l [-> Hl]]]; [auto|]. left.
    apply (@Regex.MSeq _ _ [45%N] [l]); constructor; [reflexivity | assumption].
Qed.

End ValidatorFacts.

(** The example of the message for a wrong identifier does not pass the
    validator; the example of the message for a wrong class does. *)
Example validators_on_the_examples :
  validators.studentId toUpperCase_ascii (lit "B21DCVT020") = false
  /\ validators.studentId toUpperCase_ascii (lit "b2112345678") = true
  /\ validators.className toUpperCase_ascii (lit "E21CQCN02-B") = true.
Proof. repeat split; vm_compute; reflexivity. Qed.

(** ** Adding a student *)

Lemma register_answers (body : Students.Body) (r : Students.Registry) :
  match fst (Students.POST body r) with
  | Students.Listed _ | Students.FailedToFetch => False
  | _ => True
  end.
Proof.
  unfold Students.POST. destruct body as [m|json]; [exact I|].
  destruct (truthy (Students.json_studentId json)); [|exact I].
  destruct (truthy (Students.json_name json)); [|exact I].
  destruct (truthy (Students.json_class json)); [|exact I].
  unfold Students.prisma_student_create.
  destruct (Students.student_create_rejects r); [exact I|].
  destruct (existsb _ (students (Students.world r))); exact I.
Qed.

(** Asked again after it created the student, the route refuses and the
    registry stays as the creation left it. *)
Lemma register_twice (json : Students.StudentJson) (r r' : Students.Registry)
  (student : Student) :
  Students.POST (Students.Json json) r = (Students.Created student, r') ->
  Students.POST (Students.Json json) r' = (Students.StudentIdExists, r').
Proof.
  unfold Students.POST.
  destruct (truthy (Students.json_studentId json)) as [sid|]; [|discriminate].
  destruct (truthy (Students.json_name json)) as [name|]; [|discriminate].
  destruct (truthy (Students.json_class json)) as [cls|]; [|discriminate].
  unfold Students.prisma_student_create.
  destruct (Students.student_create_rejects r) eqn:Hrej; [discriminate|].
  destruct (existsb _ (students (Students.world r))) eqn:E; [discriminate|].
  intros H. injection H as _ <-. simpl. rewrite Hrej, existsb_app. simpl.
  rewrite (proj2 (jsstring_eqb_eq sid sid) eq_refl), orb_true_r. reflexivity.
Qed.

(** A request the route refuses comes back not ok, or not at all, and
    leaves the registry as it was. *)
Lemma fetchStudentsPOST_refused (transport : nat -> Transport)
  (json : Students.StudentJson) (r : Students.Registry) (n : nat) :
  (forall s, fst (Students.POST (Students.Json json) r) <> Students.Created s) ->
  exists result,
    fetchStudentsPOST transport json (r, n) = (result, (r, S n))
    /\ isOk result = false.
Proof.
  intros Hno. unfold fetchStudentsPOST. rewrite viaNetwork_step.
  pose proof (register_answers (Students.Json json) r) as Hkind.
  destruct (register_inversion (Students.Json json) r)
    as [(sid & name & cls & json' & _ & _ & _ & _ & _ & E)|[Hr _]].
  - exfalso. cbv zeta in E. eapply Hno. rewrite E. reflexivity.
  - rewrite Hr.
    destruct (transport n); eexists; (split; [reflexivity|]); try reflexivity.
    destruct (fst (Students.POST (Students.Json json) r)) as [s| | | |rows|];
      try reflexivity; try contradiction.
    exfalso. apply (Hno s). reflexivity.
Qed.

Lemma retryLoop_students_refused (transport : nat -> Transport)
  (json : Students.StudentJson) (retries remaining i : nat)
  (r : Students.Registry) (n : nat) (slept : list N) :
  (forall s, fst (Students.POST (Students.Json json) r) <> Students.Created s) ->
  exists err n' slept',
    retryLoop (fetchStudentsPOST transport json) retries i remaining (r, n) slept
    = (inl err, (r, n'), slept').
Proof.
  intros Hno. revert i n slept.
  induction remaining as [|rem IH]; intros i n slept.
  - eexists _, _, _. reflexivity.
  - rewrite retryLoop_step.
    destruct (@fetchStudentsPOST_refused transport json r n Hno) as (result & -> & Hok).
    destruct result as [[|] st resp|m]; simpl in Hok; try discriminate;
      (destruct (Nat.eqb i (retries - 1));
       [eexists _, _, _; reflexivity | apply IH]).
Qed.

(** The loop on the students route: a response comes back only for the
    student the route created from the registry the loop started on; the
    loop throws with the registry as it was, or with the student created
    and the reply to that request lost. *)
Lemma retryLoop_students (transport : nat -> Transport)
  (json : Students.StudentJson) (retries remaining i : nat)
  (r : Students.Registry) (n : nat) (slept : list N) :
  match retryLoop (fetchStudentsPOST transport json) retries i remaining
          (r, n) slept with
  | (inr (ok, response), (r', _), _) =>
      ok = true
      /\ exists student,
           response = Students.Created student
           /\ Students.POST (Students.Json json) r = (Students.Created student, r')
  | (inl _, (r', _), _) =>
      r' = r
      \/ ((exists student,
              Students.POST (Students.Json json) r = (Students.Created student, r'))
          /\ exists k e, (n <= k < n + remaining)%nat /\ transport k = ReplyLost e)
  end.
Proof.
  revert i n slept. induction remaining as [|rem IH]; intros i n slept.
  - left. reflexivity.
  - rewrite retryLoop_step.
    assert (Hretry :
              forall err : RetryError,
                match (if Nat.eqb i (retries - 1)
                       then (@inl RetryError (bool * Students.Response) err,
                             (r, S n), slept)
                       else retryLoop (fetchStudentsPOST transport json) retries
                              (S i) rem (r, S n)
                              (slept ++ [(1000 * (N.of_nat i + 1))%N])) with
                | (inr (ok, response), (r', _), _) =>
                    ok = true
                    /\ exists student,
                         response = Students.Created student
                         /\ Students.POST (Students.Json json) r
                            = (Students.Created student, r')
                | (inl _, (r', _), _) =>
                    r' = r
                    \/ ((exists student,
                            Students.POST (Students.Json json) r
                            = (Students.Created student, r'))
                        /\ exists k e, (n <= k < n + S rem)%nat
                                       /\ transport k = ReplyLost e)
                end).
    { intros err. destruct (Nat.eqb i (retries - 1)); [left; reflexivity|].
      specialize (IH (S i) (S n) (slept ++ [(1000 * (N.of_nat i + 1))%N])).
      destruct (retryLoop (fetchStudentsPOST transport json) retries (S i) rem
                  (r, S n) (slept ++ [(1000 * (N.of_nat i + 1))%N]))
        as [[[err'|[ok response]] [r' n']] sl]; [|exact IH].
      destruct IH as [->|[Hc (k & e & Hk & Hl)]]; [left; reflexivity|].
      right. split; [exact Hc|]. exists k, e. split; [lia | exact Hl]. }
    destruct (register_inversion (Students.Json json) r)
      as [(sid & name & cls & json' & _ & _ & _ & _ & _ & E)|[Hr Hno]].
    + cbv zeta in E.
      set (student := {| st_id := N.succ (Students.student_seq r);
                         st_studentId := sid; st_name := name;
                         st_class := cls |}) in E.
      assert (Hfetch :
                fetchStudentsPOST transport json (r, n)
                = match transport n with
                  | Delivered =>
                      (Responded true 200 (true, Students.Created student),
                       (Students.with_student student r, S n))
                  | NotSent e => (Rejected e, (r, S n))
                  | ReplyLost e =>
                      (Rejected e, (Students.with_student student r, S n))
                  end).
      { unfold fetchStudentsPOST. rewrite viaNetwork_step, E.
        destruct (transport n); reflexivity. }
      rewrite Hfetch.
      destruct (transport n) as [|e|e] eqn:Ht.
      * split; [reflexivity|]. exists student. split; [reflexivity | exact E].
      * apply Hretry.
      * assert (Hlost : exists k e', (n <= k < n + S rem)%nat
                                     /\ transport k = ReplyLost e')
          by (exists n, e; split; [lia | exact Ht]).
        destruct (Nat.eqb i (retries - 1)).
        -- right. split; [exists student; exact E | exact Hlost].
        -- pose proof (@register_twice json r _ _ E) as Htwice.
           destruct (@retryLoop_students_refused transport json retries rem (S i)
                       (Students.with_student student r) (S n)
                       (slept ++ [(1000 * (N.of_nat i + 1))%N]))
             as (err & n' & sl & ->).
           { intros s. rewrite Htwice. discriminate. }
           right. split; [exists student; exact E | exact Hlost].
    + destruct (@fetchStudentsPOST_refused transport json r n Hno) as (result & -> & Hok).
      destruct result as [[|] st resp|m]; simpl in Hok; try discriminate;
        apply Hretry.
Qed.

Section AddStudentFacts.

Variable toUpperCase : jsstring -> jsstring.
Variable transport : nat -> Transport.

(** Whatever the form, the registry and the network, [addStudent] never
    shows an error text of the server, since a response that is not ok
    never comes back from [fetchWithRetry].  When it reports success the
    list is asked again and one student was added: the one the route
    created from the upper-cased identifier and class, both accepted by
    the validators, and the name as typed.  Under the messages of the
    validators nothing was sent: the registry is as it was.  Under the
    general failure message the list is not asked again, and the registry
    is as it was unless the reply to one of the three requests was lost:
    then the student may have been added all the same. *)
Theorem addStudent_outcomes (form : StudentForm) (r : Students.Registry) :
  match message (addStudent toUpperCase transport form r) with
  | StudentAdded =>
      refreshed (addStudent toUpperCase transport form r) = true
      /\ exists student,
           Students.POST
             (Students.Json
                {| Students.json_studentId :=
                     Some (upperField toUpperCase (form_studentId form));
                   Students.json_name := form_name form;
                   Students.json_class :=
                     Some (upperField toUpperCase (form_class form)) |}) r
           = (Students.Created student,
              registry (addStudent toUpperCase transport form r))
           /\ st_studentId student = upperField toUpperCase (form_studentId form)
           /\ st_class student = upperField toUpperCase (form_class form)
           /\ validators.studentId toUpperCase (st_studentId student) = true
           /\ validators.className toUpperCase (st_class student) = true
  | ServerError _ => False
  | AddFailed =>
      refreshed (addStudent toUpperCase transport form r) = false
      /\ (registry (addStudent toUpperCase transport form r) = r
          \/ ((exists student,
                  Students.POST
                    (Students.Json
                       {| Students.json_studentId :=
                            Some (upperField toUpperCase (form_studentId form));
                          Students.json_name := form_name form;
                          Students.json_class :=
                            Some (upperField toUpperCase (form_class form)) |}) r
                  = (Students.Created student,
                     registry (addStudent toUpperCase transport form r)))
              /\ exists k e, (k < 3)%nat /\ transport k = ReplyLost e))
  | BadStudentIdFormat | BadClassFormat =>
      registry (addStudent toUpperCase transport form r) = r
      /\ refreshed (addStudent toUpperCase transport form r) = false
      /\ waited (addStudent toUpperCase transport form r) = []
  end.
Proof.
  unfold addStudent.
  destruct (validators.studentId toUpperCase
              (upperField toUpperCase (form_studentId form))) eqn:Hsid;
    simpl; [|auto].
  destruct (validators.className toUpperCase
              (upperField toUpperCase (form_class form))) eqn:Hcls;
    simpl; [|auto].
  set (data := {| Students.json_studentId :=
                    Some (upperField toUpperCase (form_studentId form));
                  Students.json_name := form_name form;
                  Students.json_class :=
                    Some (upperField toUpperCase (form_class form)) |}).
  pose proof (@retryLoop_students transport data 3 3 0 r 0 []) as H.
  unfold fetchWithRetry.
  destruct (retryLoop (fetchStudentsPOST transport data) 3 0 3 (r, 0%nat) [])
    as [[[err|[ok response]] [r' n']] sl].
  - simpl. split; [reflexivity|]. destruct H as [->|[Hc (k & e & Hk & Hl)]].
    + left. reflexivity.
    + right. split; [exact Hc|]. exists k, e. split; [lia | exact Hl].
  - destruct H as [-> [student [-> Hpost]]]. simpl.
    split; [reflexivity|]. exists student. split; [assumption|].
    destruct (register_inversion (Students.Json data) r)
      as [(sid & name & cls & json' & Hj & Hs & _ & Hc & _ & E)|[_ Hno]];
      [|exfalso; apply (Hno student); rewrite Hpost; reflexivity].
    injection Hj as <-. rewrite E in Hpost. injection Hpost as <- _.
    apply truthy_Some in Hs. apply truthy_Some in Hc.
    destruct Hs as [Hs _]. destruct Hc as [Hc _].
    unfold data in Hs, Hc. simpl in Hs, Hc.
    injection Hs as <-. injection Hc as <-. simpl. auto.
Qed.

(** When the route refuses the student (a field missing, the identifier
    already in the table, a rejected creation), [addStudent] asks three
    times whatever the network does, waiting 1000 ms and then 2000 ms,
    and ends on the general failure message with the registry
    unchanged. *)
Theorem addStudent_refused (form : StudentForm) (r : Students.Registry) :
  validators.studentId toUpperCase
    (upperField toUpperCase (form_studentId form)) = true ->
  validators.className toUpperCase
    (upperField toUpperCase (form_class form)) = true ->
  (forall student,
      fst (Students.POST
             (Students.Json
                {| Students.json_studentId :=
                     Some (upperField toUpperCase (form_studentId form));
                   Students.json_name := form_name form;
                   Students.json_class :=
                     Some (upperField toUpperCase (form_class form)) |}) r)
      <> Students.Created student) ->
  addStudent toUpperCase transport form r
  = {| message := AddFailed; refreshed := false; registry := r;
       waited := [1000; 2000]%N |}.
Proof.
  intros Hsid Hcls Hno. unfold addStudent. rewrite Hsid, Hcls. simpl negb.
  cbv iota.
  set (data := {| Students.json_studentId :=
                    Some (upperField toUpperCase (form_studentId form));
                  Students.json_name := form_name form;
                  Students.json_class :=
                    Some (upperField toUpperCase (form_class form)) |}) in *.
  destruct (@fetchStudentsPOST_refused transport data r 0 Hno) as (x0 & H0 & Hok0).
  destruct (@fetchStudentsPOST_refused transport data r 1 Hno) as (x1 & H1 & Hok1).
  destruct (@fetchStudentsPOST_refused transport data r 2 Hno) as (x2 & H2 & Hok2).
  unfold fetchWithRetry. rewrite retryLoop_step, H0.
  destruct x0 as [[|] st0 resp0|m0]; simpl in Hok0; try discriminate;
    simpl Nat.eqb; cbv iota; rewrite retryLoop_step, H1;
    (destruct x1 as [[|] st1 resp1|m1]; simpl in Hok1; try discriminate;
     simpl Nat.eqb; cbv iota; rewrite retryLoop_step, H2;
     (destruct x2 as [[|] st2 resp2|m2]; simpl in Hok2; try discriminate;
      reflexivity)).
Qed.

(** When the route creates the student, [addStudent] reports success at
    the first request that reaches it, the requests before it not sent:
    after a delay of 1000 ms, then 2000 ms, for each of those, none when
    the first request arrives; and it asks the list again. *)
Theorem addStudent_added (form : StudentForm) (r r' : Students.Registry)
  (student : Student) (k : nat) :
  validators.studentId toUpperCase
    (upperField toUpperCase (form_studentId form)) = true ->
  validators.className toUpperCase
    (upperField toUpperCase (form_class form)) = true ->
  Students.POST
    (Students.Json
       {| Students.json_studentId :=
            Some (upperField toUpperCase (form_studentId form));
          Students.json_name := form_name form;
          Students.json_class :=
            Some (upperField toUpperCase (form_class form)) |}) r
  = (Students.Created student, r') ->
  (k < 3)%nat ->
  (forall j, (j < k)%nat -> exists e, transport j = NotSent e) ->
  transport k = Delivered ->
  addStudent toUpperCase transport form r
  = {| message := StudentAdded; refreshed := true; registry := r';
       waited := delays k |}.
Proof.
  intros Hsid Hcls Hpost Hk Hbefore Hnow. unfold addStudent.
  rewrite Hsid, Hcls. simpl negb. cbv iota.
  set (data := {| Students.json_studentId :=
                    Some (upperField toUpperCase (form_studentId form));
                  Students.json_name := form_name form;
                  Students.json_class :=
                    Some (upperField toUpperCase (form_class form)) |}) in *.
  assert (Hsent : forall n, transport n = Delivered ->
                            fetchStudentsPOST transport data (r, n)
                            = (Responded true 200 (true, Students.Created student),
                               (r', S n))).
  { intros n Hn. unfold fetchStudentsPOST. rewrite viaNetwork_step, Hn, Hpost.
    reflexivity. }
  assert (Hnot : forall n e, transport n = NotSent e ->
                             fetchStudentsPOST transport data (r, n)
                             = (Rejected e, (r, S n))).
  { intros n e Hn. unfold fetchStudentsPOST. rewrite viaNetwork_step, Hn.
    reflexivity. }
  unfold fetchWithRetry.
  destruct k as [|[|[|k]]]; [| | |lia].
  - rewrite retryLoop_step, (Hsent 0%nat Hnow). reflexivity.
  - destruct (Hbefore 0%nat ltac:(lia)) as [e0 He0].
    rewrite retryLoop_step, (Hnot 0%nat e0 He0). simpl Nat.eqb. cbv iota.
    rewrite retryLoop_step, (Hsent 1%nat Hnow). reflexivity.
  - destruct (Hbefore 0%nat ltac:(lia)) as [e0 He0].
    destruct (Hbefore 1%nat ltac:(lia)) as [e1 He1].
    rewrite retryLoop_step, (Hnot 0%nat e0 He0). simpl Nat.eqb. cbv iota.
    rewrite retryLoop_step, (Hnot 1%nat e1 He1). simpl Nat.eqb. cbv iota.
    rewrite retryLoop_step, (Hsent 2%nat Hnow). reflexivity.
Qed.

End AddStudentFacts.

Lemma addStudent_refused_witness :
  addStudent toUpperCase_ascii firstReplyLost formNewStudent
    (registryWith "B2112345678")
  = {| message := AddFailed; refreshed := false;
       registry := registryWith "B2112345678"; waited := [1000; 2000]%N |}.
Proof.
  apply addStudent_refused.
  - vm_compute. reflexivity.
  - vm_compute. reflexivity.
  - intros student. vm_compute. discriminate.
Defined.

Lemma addStudent_added_witness :
  addStudent toUpperCase_ascii firstNotSent formNewStudent (registryWith "X")
  = {| message := StudentAdded; refreshed := true;
       registry :=
         snd (Students.POST
                (Students.Json
                   {| Students.json_studentId := Some (lit "B2112345678");
                      Students.json_name := Some (lit "Pham Thi D");
                      Students.json_class := Some (lit "E21CQCN02-B") |})
                (registryWith "X"));
       waited := [1000%N] |}
  /\ map st_studentId
       (students (Students.world
                    (registry (addStudent toUpperCase_ascii firstNotSent
                                 formNewStudent (registryWith "X")))))
     = [lit "X"; lit "B2112345678"].
Proof.
  split; [|vm_compute; reflexivity].
  apply (@addStudent_added toUpperCase_ascii firstNotSent formNewStudent
           (registryWith "X")
           (snd (Students.POST
                   (Students.Json
                      {| Students.json_studentId := Some (lit "B2112345678");
                         Students.json_name := Some (lit "Pham Thi D");
                         Students.json_class := Some (lit "E21CQCN02-B") |})
                   (registryWith "X")))
           {| st_id := 4; st_studentId := lit "B2112345678";
              st_name := lit "Pham Thi D"; st_class := lit "E21CQCN02-B" |}
           1%nat).
  - vm_compute. reflexivity.
  - vm_compute. reflexivity.
  - vm_compute. reflexivity.
  - lia.
  - intros [|j] Hj; [exists (lit "network down"); reflexivity | lia].
  - reflexivity.
Defined.

(** The student is added and the page says that adding failed: the reply
    to the first request is lost, and the two that follow are refused for
    the identifier the first one took. *)
Example addStudent_lost_reply :
  addStudent toUpperCase_ascii firstReplyLost formNewStudent (registryWith "X")
  = {| message := AddFailed; refreshed := false;
       registry :=
         snd (Students.POST
                (Students.Json
                   {| Students.json_studentId := Some (lit "B2112345678");
                      Students.json_name := Some (lit "Pham Thi D");
                      Students.json_class := Some (lit "E21CQCN02-B") |})
                (registryWith "X"));
       waited := [1000; 2000]%N |}
  /\ map st_studentId
       (students (Students.world
                    (registry (addStudent toUpperCase_ascii firstReplyLost
                                 formNewStudent (registryWith "X")))))
     = [lit "X"; lit "B2112345678"].
Proof. split; vm_compute; reflexivity. Qed.

Lemma similarity_zero_iff_disjoint_witness :
  calculateNameSimilarity toLowerCase_ascii (lit "Tran Thi B") (lit "Le Van C")
  = Fin 0.
Proof.
  apply (proj2 (similarity_zero_iff_disjoint toLowerCase_ascii
                  (lit "Tran Thi B") (lit "Le Van C"))).
  vm_compute. intros x H1 H2.
  repeat (destruct H1 as [H1|H1];
          [subst x; repeat (destruct H2 as [H2|H2]; [discriminate H2|]);
           exact H2|]).
  exact H1.
Defined.

Lemma studentId_accepts_witness :
  validators.studentId toUpperCase_ascii (lit "b2112345678") = true.
Proof.
  apply (proj2 (studentId_accepts toUpperCase_ascii (lit "b2112345678"))).
  exists 66%N, (lit "2112345678").
  split; [reflexivity|]. split; [simpl; auto|].
  split; [simpl; lia | reflexivity].
Defined.

Lemma className_accepts_witness :
  validators.className toUpperCase_ascii (lit "e21cqcn02-b") = true.
Proof.
  apply (proj2 (className_accepts toUpperCase_ascii (lit "e21cqcn02-b"))).
  exists 69%N, (lit "21"), (lit "CQCN"), (lit "02"), (lit "-B").
  split; [reflexivity|]. split; [reflexivity|]. split; [reflexivity|].
  split; [reflexivity|]. split; [discriminate|]. split; [reflexivity|].
  split; [simpl; lia|]. split; [reflexivity|].
  right. exists 66%N. split; reflexivity.
Defined.
